(** * Statistics, base conversion and word counting: a verified model

    The three command-line tools of the repository are embedded here as Rocq
    functions and their documented behaviour is proved about the embedding.

    - Python [int] is [Z]; [//] and [%] with a positive divisor are [Z.div]
      and [Z.modulo] (both round towards minus infinity).
    - Python [str] is [string]: a character is a code point below 256, and
      text with other characters is outside the model.
    - A Python [float] is any type with the operations of the class
      [Number]; the binary64 floats of Rocq are an instance for every
      choice of the power function [x ** 0.5].
    - A Python [list] is a [list], indexed with a bounds check that raises
      [IndexError]; a [dict] is an association list in insertion order.
    - An exception is a value of [exn]; a function that can raise returns a
      [result].  A [while] loop is run with fuel: [None] means that the fuel
      ran out, never that the program stopped. *)

From Stdlib Require Import ZArith Lia Ascii String DecimalString Floats Uint63.
From stdpp Require Import base list sorting strings.

Local Open Scope string_scope.
Local Open Scope list_scope.
Local Open Scope Z_scope.

(** ** Exceptions and results *)

Inductive exn : Type :=
  | ValueError (msg : string)
  | ZeroDivisionError
  | IndexError
  | KeyError
  | UnicodeDecodeError (detail : string).

Inductive result (A : Type) : Type :=
  | Ok (a : A)
  | Raise (e : exn).
Arguments Ok {A} a.
Arguments Raise {A} e.

Definition rbind {A B} (r : result A) (k : A -> result B) : result B :=
  match r with
  | Ok a => k a
  | Raise e => Raise e
  end.

Declare Scope result_scope.
Delimit Scope result_scope with res.
Notation "'let*' x ':=' r 'in' k" := (rbind r (fun x => k))
  (at level 10, x name, r at level 100, k at level 200) : result_scope.
Notation "'let*' ' p ':=' r 'in' k" :=
  (rbind r (fun x => match x with p => k end))
  (at level 10, p pattern, r at level 100, k at level 200) : result_scope.
Local Open Scope result_scope.

(** A fuelled computation [f] returns [r] when some amount of fuel is enough
    and every larger amount gives the same answer. *)
Definition returns_within {A} (fuel : nat) (f : nat -> option A) (r : A) : Prop :=
  forall fuel' : nat, (fuel <= fuel')%nat -> f fuel' = Some r.

Definition returns {A} (f : nat -> option A) (r : A) : Prop :=
  exists fuel : nat, returns_within fuel f r.

Definition fbind {A B} (m : option (result A)) (k : A -> option (result B))
  : option (result B) :=
  match m with
  | None => None
  | Some (Raise e) => Some (Raise e)
  | Some (Ok a) => k a
  end.

Notation "'let+' x ':=' m 'in' k" := (fbind m (fun x => k))
  (at level 10, x name, m at level 100, k at level 200) : result_scope.
Notation "'let+' ' p ':=' m 'in' k" :=
  (fbind m (fun x => match x with p => k end))
  (at level 10, p pattern, m at level 100, k at level 200) : result_scope.

(** ** Python sequence primitives *)

(** [s[i]] on a list, with Python's negative indices. *)
Definition list_index {A} (l : list A) (i : Z) : result A :=
  let n := Z.of_nat (length l) in
  let i' := if i <? 0 then i + n else i in
  if (i' <? 0) || (n <=? i') then Raise IndexError
  else match l !! Z.to_nat i' with
       | Some a => Ok a
       | None => Raise IndexError
       end.

(** [s[i]] on a string: a string of length one. *)
Definition str_index (s : string) (i : Z) : result string :=
  let n := Z.of_nat (String.length s) in
  let i' := if i <? 0 then i + n else i in
  if (i' <? 0) || (n <=? i') then Raise IndexError
  else match String.get (Z.to_nat i') s with
       | Some c => Ok (String c "")
       | None => Raise IndexError
       end.

(** [range(start, stop)] and [range(start, stop, -1)]. *)
Definition range (start stop : Z) : list Z :=
  map (fun k => start + Z.of_nat k) (seq 0 (Z.to_nat (stop - start))).

Definition range_down (start stop : Z) : list Z :=
  map (fun k => start - Z.of_nat k) (seq 0 (Z.to_nat (start - stop))).

(** A [for] loop whose body can raise. *)
Fixpoint for_each {A S} (xs : list A) (body : S -> A -> result S) (s : S)
  : result S :=
  match xs with
  | [] => Ok s
  | x :: xs' => let* s' := body s x in for_each xs' body s'
  end.

(** [list[i] = x]. *)
Definition list_store {A} (l : list A) (i : Z) (x : A) : result (list A) :=
  let n := Z.of_nat (length l) in
  let i' := if i <? 0 then i + n else i in
  if (i' <? 0) || (n <=? i') then Raise IndexError
  else Ok (<[Z.to_nat i' := x]> l).

(** A [dict] keeps its entries in insertion order; [eqb] is key equality. *)
Section Dict.
Context {K V : Type} (eqb : K -> K -> bool).

Definition dict := list (K * V).

(** [d.get(k)], [None] when the key is absent. *)
Fixpoint dict_find (d : dict) (k : K) : option V :=
  match d with
  | [] => None
  | (k', v) :: d' => if eqb k' k then Some v else dict_find d' k
  end.

(** [d.get(k, default)] *)
Definition dict_get (d : dict) (k : K) (default : V) : V :=
  match dict_find d k with
  | Some v => v
  | None => default
  end.

(** [d[k]] *)
Definition dict_lookup (d : dict) (k : K) : result V :=
  match dict_find d k with
  | Some v => Ok v
  | None => Raise KeyError
  end.

(** [k in d] *)
Definition dict_mem (d : dict) (k : K) : bool :=
  match dict_find d k with
  | Some _ => true
  | None => false
  end.

(** [d[k] = v]: an existing key keeps its place and its key object, a new
    key goes to the end. *)
Fixpoint dict_set (d : dict) (k : K) (v : V) : dict :=
  match d with
  | [] => [(k, v)]
  | (k', v') :: d' =>
      if eqb k' k then (k', v) :: d' else (k', v') :: dict_set d' k v
  end.

(** [list(d.keys())] and [d.items()] *)
Definition dict_keys (d : dict) : list K := map fst d.
Definition dict_items (d : dict) : list (K * V) := d.
End Dict.

(** ** Text primitives *)

(** [str(n)] for an integer. *)
Definition str_of_int (n : Z) : string := NilZero.string_of_int (Z.to_int n).

Definition code (c : ascii) : Z := Z.of_N (N_of_ascii c).

(** The characters below 256 that [str.strip], [str.split] and [int] take
    for white space ([str.isspace]): tab to carriage return, the four
    separators, space, next line (U+0085) and no-break space (U+00A0). *)
Definition is_space (c : ascii) : bool :=
  let k := code c in
  ((9 <=? k) && (k <=? 13)) || ((28 <=? k) && (k <=? 31)) || (k =? 32)
  || (k =? 133) || (k =? 160).

Definition is_empty (s : string) : bool :=
  match s with
  | EmptyString => true
  | String _ _ => false
  end.

Fixpoint lstrip (s : string) : string :=
  match s with
  | EmptyString => EmptyString
  | String c s' => if is_space c then lstrip s' else s
  end.

Fixpoint rstrip (s : string) : string :=
  match s with
  | EmptyString => EmptyString
  | String c s' =>
      let r := rstrip s' in
      if is_space c && is_empty r then EmptyString else String c r
  end.

(** [s.strip()] *)
Definition strip (s : string) : string := rstrip (lstrip s).

(** [s.split()]: the maximal runs of characters that are not white space;
    [cur] is the run being read. *)
Fixpoint split_ws (s : string) (cur : string) : list string :=
  match s with
  | EmptyString => if is_empty cur then [] else [cur]
  | String c s' =>
      if is_space c then
        if is_empty cur then split_ws s' "" else cur :: split_ws s' ""
      else split_ws s' (cur +:+ String c "")
  end.

Definition split (s : string) : list string := split_ws s "".

(** [s.split(sep)] for a separator of one character. *)
Fixpoint split_on (sep : ascii) (s : string) (cur : string) : list string :=
  match s with
  | EmptyString => [cur]
  | String c s' =>
      if Ascii.eqb c sep then cur :: split_on sep s' ""
      else split_on sep s' (cur +:+ String c "")
  end.

(** [s.lower()] on the characters below 256: the capital letters are A to
    Z and U+00C0 to U+00DE without the multiplication sign U+00D7, and the
    small letter stands 32 places further on. *)
Definition lower_char (c : ascii) : ascii :=
  let k := code c in
  if ((65 <=? k) && (k <=? 90))
     || ((192 <=? k) && (k <=? 214)) || ((216 <=? k) && (k <=? 222))
  then ascii_of_N (Z.to_N (k + 32)) else c.

Fixpoint lower (s : string) : string :=
  match s with
  | EmptyString => EmptyString
  | String c s' => String (lower_char c) (lower s')
  end.

(** [c in chars] for a character. *)
Fixpoint char_in (c : ascii) (chars : string) : bool :=
  match chars with
  | EmptyString => false
  | String c' chars' => Ascii.eqb c c' || char_in c chars'
  end.

Definition is_digit (c : ascii) : bool := (48 <=? code c) && (code c <=? 57).

Definition digit_of (c : ascii) : Z := code c - 48.

(** The digits of [int(text)] after the sign: decimal digits, where one
    underscore may stand between two digits.  [seen] tells that the
    character before was a digit. *)
Fixpoint int_digits (s : string) (acc : Z) (seen : bool) : option Z :=
  match s with
  | EmptyString => if seen then Some acc else None
  | String c s' =>
      if is_digit c then int_digits s' (10 * acc + digit_of c) true
      else if Ascii.eqb c "_" && seen then int_digits s' acc false
      else None
  end.

(** The number of decimal digits in [s], underscores not counted. *)
Fixpoint digit_count (s : string) : Z :=
  match s with
  | EmptyString => 0
  | String c s' => (if is_digit c then 1 else 0) + digit_count s'
  end.

(** [sys.get_int_max_str_digits()] as the interpreter starts: [int] raises
    [ValueError] for a literal with more digits, and [str] for an integer
    with more. *)
Definition int_max_str_digits : Z := 4300.

(** The literal after the sign. *)
Definition int_body (r : string) : option Z :=
  if int_max_str_digits <? digit_count r then None else int_digits r 0 false.

(** [int(text)]: white space around the literal is dropped, a sign may
    lead; [None] stands for the [ValueError] of a text that is no literal
    or has too many digits. *)
Definition py_int (text : string) : option Z :=
  let t := strip text in
  match t with
  | String "+" r => int_body r
  | String "-" r => Z.opp <$> int_body r
  | _ => int_body t
  end.

Definition TAB : string := String "009"%char "".
Definition NL : string := String "010"%char "".

(** [sep.join(parts)] with an empty separator. *)
Definition concat_strings (parts : list string) : string :=
  fold_right String.append "" parts.

(** ** Files *)

(** What opening and reading a path gives: the lines of the file, each with
    its line terminator; [FileNotFoundError] or another [OSError] from
    [open]; or bytes that are not UTF-8, for which the iteration over the
    file raises [UnicodeDecodeError].  That error is a [ValueError], not an
    [OSError], and it is raised outside the [try] around [int] and [float],
    so no parser catches it; what a parser had read before is lost with the
    call. *)
Inductive file_contents : Type :=
  | FileLines (lines : list string)
  | FileNotFound
  | FileUnreadable (detail : string)
  | FileUndecodable (detail : string).

Definition filesystem := string -> file_contents.

(** [enumerate(xs, start=1)] *)
Definition enumerate1 {A} (xs : list A) : list (Z * A) :=
  zip (map (fun k => Z.of_nat (S k)) (seq 0 (length xs))) xs.

(** [enumerate(xs)] *)
Definition enumerate {A} (xs : list A) : list (Z * A) :=
  zip (map Z.of_nat (seq 0 (length xs))) xs.

(** What a run of a tool leaves behind: the exit code, the texts printed and
    the text written to the results file, if it was written. *)
Record outcome : Type := {
  exit_code : Z;
  console : list string;
  results_file : option string
}.

(** ** convertNumbers.py *)

Module ConvertNumbers.

Definition HEX_DIGITS : string := "0123456789ABCDEF".

(** The digit-extraction loop of [to_base]:
    [while value > 0: digits.append(HEX_DIGITS[value % base]); value //= base]. *)
Fixpoint digit_loop (fuel : nat) (base value : Z) (digits : list string)
  : option (result (list string)) :=
  if 0 <? value then
    match fuel with
    | O => None
    | S fuel' =>
        let remainder := value mod base in
        match str_index HEX_DIGITS remainder with
        | Raise e => Some (Raise e)
        | Ok d => digit_loop fuel' base (value / base) (digits ++ [d])
        end
    end
  else Some (Ok digits).

(** The reversing loop:
    [for i in range(len(digits) - 1, -1, -1): out += digits[i]]. *)
Definition reverse_digits (digits : list string) : result string :=
  for_each (range_down (Z.of_nat (length digits) - 1) (-1))
    (fun out i => let* d := list_index digits i in Ok (out +:+ d)) "".

Definition to_base (fuel : nat) (n base : Z) : option (result string) :=
  if (base <? 2) || (16 <? base) then
    Some (Raise (ValueError "Base must be between 2 and 16"))
  else if n =? 0 then Some (Ok "0")
  else
    let sign := if n <? 0 then "-" else "" in
    let value := if n <? 0 then - n else n in
    let+ digits := digit_loop fuel base value [] in
    Some (let* out := reverse_digits digits in Ok (sign +:+ out)).

Definition parse_line (st : list Z * list string) (item : Z * string)
  : list Z * list string :=
  let '(ints, errors) := st in
  let '(line_no, raw) := item in
  let text := strip raw in
  if is_empty text then
    (ints, errors ++ ["Line " +:+ str_of_int line_no +:+ ": empty line (skipped)"])
  else
    match py_int text with
    | Some value => (ints ++ [value], errors)
    | None =>
        (ints, errors ++ ["Line " +:+ str_of_int line_no +:+ ": invalid integer '"
                            +:+ text +:+ "' (skipped)"])
    end.

Definition parse_integers (fs : filesystem) (file_path : string)
  : result (list Z * list string) :=
  match fs file_path with
  | FileLines lines => Ok (fold_left parse_line (enumerate1 lines) ([], []))
  | FileNotFound => Ok ([], ["File not found: " +:+ file_path])
  | FileUnreadable exc =>
      Ok ([], ["Could not read file '" +:+ file_path +:+ "': " +:+ exc])
  | FileUndecodable detail => Raise (UnicodeDecodeError detail)
  end.

(** The text that [write_results] leaves in the results file. *)
Definition write_results (lines : list string) : string :=
  concat_strings (map (fun line => line +:+ NL) lines).

(** The loop of [main] over the parsed numbers; the state is
    [(lines, item_no)]. *)
Fixpoint convert_rows (fuel : nat) (numbers : list Z) (lines : list string)
    (item_no : Z) : option (result (list string)) :=
  match numbers with
  | [] => Some (Ok lines)
  | n :: rest =>
      let+ b2 := to_base fuel n 2 in
      let+ b16 := to_base fuel n 16 in
      let line := str_of_int item_no +:+ TAB +:+ str_of_int n +:+ TAB
                    +:+ b2 +:+ TAB +:+ b16 in
      convert_rows fuel rest (lines ++ [line]) (item_no + 1)
  end.

(** [main(argv)]; [elapsed] is the elapsed time as the report prints it.
    [Raise] is an exception that nothing catches. *)
Definition main (fuel : nat) (fs : filesystem) (elapsed : string)
    (argv : list string) : option (result outcome) :=
  if negb (Z.of_nat (length argv) =? 2) then
    Some (Ok {| exit_code := 2;
                console := ["Usage: python convertNumbers.py fileWithData.txt"];
                results_file := None |})
  else
    let+ file_path := Some (list_index argv 1) in
    let+ '(numbers, errors) := Some (parse_integers fs file_path) in
    let printed := map (fun err => "ERROR: " +:+ err) errors in
    let lines := ["ITEM" +:+ TAB +:+ "DEC" +:+ TAB +:+ "BIN" +:+ TAB +:+ "HEX"] in
    let+ lines := convert_rows fuel numbers lines 1 in
    let lines := lines ++ ["Time Elapsed (s):" +:+ TAB +:+ elapsed] in
    Some (Ok {| exit_code := 0;
                console := printed ++ lines;
                results_file := Some (write_results lines) |}).

End ConvertNumbers.

(** ** computeStatistics.py *)

(** The values of the statistics tool are Python floats.  The functions use
    them only through the operations below, so they are written once over
    this interface. *)
Class Number (V : Type) : Type := {
  num_lt : V -> V -> bool;        (* a < b *)
  num_eq : V -> V -> bool;        (* a == b, also the equality of dict keys *)
  num_zero : V;                   (* 0.0 *)
  num_two : V;                    (* 2.0 *)
  num_add : V -> V -> V;
  num_sub : V -> V -> V;
  num_mul : V -> V -> V;
  num_div : V -> V -> V;          (* a / b for b that is not zero *)
  num_of_int : Z -> V;            (* float(n) *)
  num_pow_half : V -> V           (* a ** 0.5 *)
}.

(** [float(text)] and the format [{x:.6f}]. *)
Class NumberText (V : Type) : Type := {
  num_parse : string -> option V;
  num_fmt6 : V -> string
}.

(** What the proofs about order ask of [<] and [==]: [==] is symmetric and
    transitive, [<] is a strict order that respects [==], and two values
    that are each equal to themselves are comparable.  Floats satisfy this,
    NaN included: NaN is not equal to itself and is in no relation to
    anything. *)
Class NumberOrder (V : Type) `{Number V} : Prop := {
  num_eq_sym : forall x y, num_eq x y = true -> num_eq y x = true;
  num_eq_trans : forall x y z,
    num_eq x y = true -> num_eq y z = true -> num_eq x z = true;
  num_lt_irrefl : forall x, num_lt x x = false;
  num_lt_trans : forall x y z,
    num_lt x y = true -> num_lt y z = true -> num_lt x z = true;
  num_lt_total : forall x y,
    num_eq x x = true -> num_eq y y = true ->
    num_lt x y = false -> num_lt y x = false -> num_eq x y = true;
  num_lt_eq_l : forall x y z, num_eq x y = true -> num_lt x z = num_lt y z;
  num_lt_eq_r : forall x y z, num_eq x y = true -> num_lt z x = num_lt z y
}.

(** The body of [selection_sort] after the copy, over any array that is
    read with [load] and written with [store]. *)
Section SortLoop.
Context {V : Type} `{Number V} {S : Type}.
Variable load : S -> Z -> result V.
Variable store : S -> Z -> V -> result S.

(** [for j in range(i + 1, n): if arr[j] < arr[min_idx]: min_idx = j] *)
Definition find_min (n : Z) (arr : S) (i : Z) : result Z :=
  for_each (range (i + 1) n)
    (fun min_idx j =>
       let* aj := load arr j in
       let* am := load arr min_idx in
       Ok (if num_lt aj am then j else min_idx))
    i.

(** [arr[i], arr[min_idx] = arr[min_idx], arr[i]] *)
Definition swap (arr : S) (i min_idx : Z) : result S :=
  let* x := load arr min_idx in
  let* y := load arr i in
  let* arr1 := store arr i x in
  store arr1 min_idx y.

Definition sort_loop (n : Z) (arr : S) : result S :=
  for_each (range 0 n)
    (fun arr i => let* min_idx := find_min n arr i in swap arr i min_idx)
    arr.
End SortLoop.

Module Statistics.
Section Functions.
Context {V : Type} `{Number V}.

(** [selection_sort(values)] as a function from the argument to the list
    it returns. *)
Definition selection_sort (values : list V) : result (list V) :=
  let arr := values in
  let n := Z.of_nat (length arr) in
  sort_loop list_index list_store n arr.

(** The same call in a store of list objects, where [values] is the
    address of the caller's list: [arr = values[:]] makes a new object and
    the loop writes to that one. *)
Definition heap := list (list V).

Definition heap_load (arr : nat) (h : heap) (i : Z) : result V :=
  match h !! arr with
  | Some l => list_index l i
  | None => Raise IndexError
  end.

Definition heap_store (arr : nat) (h : heap) (i : Z) (x : V) : result heap :=
  match h !! arr with
  | Some l => let* l' := list_store l i x in Ok (<[arr := l']> h)
  | None => Raise IndexError
  end.

Definition selection_sort_store (h : heap) (values : nat)
  : result (heap * nat) :=
  match h !! values with
  | None => Raise IndexError
  | Some src =>
      let arr := length h in
      let h1 := h ++ [src] in
      let n := Z.of_nat (length src) in
      let* h2 := sort_loop (heap_load arr) (heap_store arr) n h1 in
      Ok (h2, arr)
  end.

(** [total / len(values)] *)
Definition div_by_count (total : V) (count : Z) : result V :=
  if count =? 0 then Raise ZeroDivisionError
  else Ok (num_div total (num_of_int count)).

Definition mean (values : list V) : result V :=
  let total := fold_left (fun total v => num_add total v) values num_zero in
  div_by_count total (Z.of_nat (length values)).

Definition median (values : list V) : result V :=
  let* sorted_vals := selection_sort values in
  let n := Z.of_nat (length sorted_vals) in
  let mid := n / 2 in
  if n mod 2 =? 1 then list_index sorted_vals mid
  else
    let* a := list_index sorted_vals (mid - 1) in
    let* b := list_index sorted_vals mid in
    Ok (num_div (num_add a b) num_two).

(** [for v in values: freq[v] = freq.get(v, 0) + 1].  The keys are compared
    with [==], so every NaN gets a key of its own: this is what happens to
    the lists that [parse_numbers] builds, where each NaN is an object of
    its own. *)
Definition frequencies (values : list V) : dict (K:=V) (V:=Z) :=
  fold_left
    (fun freq v => dict_set num_eq freq v (dict_get num_eq freq v 0 + 1))
    values [].

(** One turn of the loop over [freq.items()]; the state is
    [(best_count, best_value)]. *)
Definition best_step (st : Z * option V) (entry : V * Z) : Z * option V :=
  let '(best_count, best_value) := st in
  let '(v, c) := entry in
  if best_count <? c then (c, Some v)
  else if (c =? best_count)
          && match best_value with
             | Some b => num_lt v b
             | None => false
             end
  then (best_count, Some v)
  else (best_count, best_value).

(** The rest of [mode], from the entries in the order they are scanned. *)
Definition mode_of_items (items : list (V * Z)) : option V :=
  let '(best_count, best_value) := fold_left best_step items (0, None) in
  if best_count <=? 1 then None else best_value.

Definition mode (values : list V) : option V :=
  mode_of_items (dict_items (frequencies values)).

Definition variance_population (values : list V) : result V :=
  let* mu := mean values in
  let total :=
    fold_left
      (fun total v => let diff := num_sub v mu in num_add total (num_mul diff diff))
      values num_zero in
  div_by_count total (Z.of_nat (length values)).

Definition stddev_population (values : list V) : result V :=
  let* var := variance_population values in
  Ok (num_pow_half var).

Context `{NumberText V}.

Definition parse_line (st : list V * list string) (item : Z * string)
  : list V * list string :=
  let '(numbers, errors) := st in
  let '(line_no, raw) := item in
  let text := strip raw in
  if is_empty text then
    (numbers,
     errors ++ ["Line " +:+ str_of_int line_no +:+ ": empty line (skipped)"])
  else
    match num_parse text with
    | Some x => (numbers ++ [x], errors)
    | None =>
        (numbers,
         errors ++ ["Line " +:+ str_of_int line_no +:+ ": invalid number '"
                      +:+ text +:+ "' (skipped)"])
    end.

Definition parse_numbers (fs : filesystem) (file_path : string)
  : result (list V * list string) :=
  match fs file_path with
  | FileLines lines => Ok (fold_left parse_line (enumerate1 lines) ([], []))
  | FileNotFound => Ok ([], ["File not found: " +:+ file_path])
  | FileUnreadable exc =>
      Ok ([], ["Could not read file '" +:+ file_path +:+ "': " +:+ exc])
  | FileUndecodable detail => Raise (UnicodeDecodeError detail)
  end.

Definition format_results (count : Z) (mu med : V) (mod_ : option V)
    (std var : V) (elapsed_sec : string) : string :=
  let mod_text :=
    match mod_ with
    | None => "N/A"
    | Some m => num_fmt6 m
    end in
  "Count: " +:+ str_of_int count +:+ NL
  +:+ "Mean: " +:+ num_fmt6 mu +:+ NL
  +:+ "Median: " +:+ num_fmt6 med +:+ NL
  +:+ "Mode: " +:+ mod_text +:+ NL
  +:+ "Standard Deviation (Population): " +:+ num_fmt6 std +:+ NL
  +:+ "Variance (Population): " +:+ num_fmt6 var +:+ NL
  +:+ "Time Elapsed (s): " +:+ elapsed_sec +:+ NL.

(** [main(argv)]; [elapsed] is the elapsed time as the report prints it. *)
Definition main (fs : filesystem) (elapsed : string) (argv : list string)
  : result outcome :=
  if negb (Z.of_nat (length argv) =? 2) then
    Ok {| exit_code := 2;
          console := ["Usage: python computeStatistics.py fileWithData.txt"];
          results_file := None |}
  else
    let* file_path := list_index argv 1 in
    let* '(numbers, errors) := parse_numbers fs file_path in
    let printed := map (fun err => "ERROR: " +:+ err) errors in
    if Z.of_nat (length numbers) =? 0 then
      let msg := "No valid numbers to process." +:+ NL
                 +:+ "Time Elapsed (s): " +:+ elapsed +:+ NL in
      Ok {| exit_code := 1;
            console := printed ++ [msg];
            results_file := Some msg |}
    else
      let* mu := mean numbers in
      let* med := median numbers in
      let mod_ := mode numbers in
      let* var := variance_population numbers in
      let* std := stddev_population numbers in
      let out := format_results (Z.of_nat (length numbers)) mu med mod_ std var
                   elapsed in
      Ok {| exit_code := 0;
            console := printed ++ [out];
            results_file := Some out |}.
End Functions.
End Statistics.

(** ** wordCount.py *)

(** [items.sort(key=...)]: a stable sort on keys computed beforehand,
    written as an insertion sort; [lt] is [<] on keys. *)
Section StableSort.
Context {K A : Type} (lt : K -> K -> bool).

Fixpoint insert_keyed (x : K * A) (l : list (K * A)) : list (K * A) :=
  match l with
  | [] => [x]
  | y :: l' => if lt (fst y) (fst x) then y :: insert_keyed x l' else x :: y :: l'
  end.

Definition stable_sort (l : list (K * A)) : list (K * A) :=
  fold_right insert_keyed [] l.
End StableSort.

(** [<] on pairs of integers. *)
Definition pair_lt (a b : Z * Z) : bool :=
  (fst a <? fst b) || ((fst a =? fst b) && (snd a <? snd b)).

(** [[f(x) for x in xs]] where [f] can raise. *)
Fixpoint map_result {A B} (f : A -> result B) (xs : list A) : result (list B) :=
  match xs with
  | [] => Ok []
  | x :: xs' => let* y := f x in let* ys := map_result f xs' in Ok (y :: ys)
  end.

Module WordCount.

Definition PUNCTUATION : string :=
  ".,;:!?" +:+ String "034"%char "" +:+ "'()[]{}<>".

(** [while token and token[0] in PUNCTUATION: token = token[1:]] *)
Fixpoint strip_front (token : string) : string :=
  match token with
  | EmptyString => EmptyString
  | String c rest => if char_in c PUNCTUATION then strip_front rest else token
  end.

(** [while token and token[-1] in PUNCTUATION: token = token[:-1]], as a
    recursion from the front: a character goes when it is punctuation and
    nothing is left behind it. *)
Fixpoint strip_back (token : string) : string :=
  match token with
  | EmptyString => EmptyString
  | String c rest =>
      let r := strip_back rest in
      if char_in c PUNCTUATION && is_empty r then EmptyString else String c r
  end.

Definition normalize_token (token : string) : string :=
  let token := lower (strip token) in
  let token := strip_front token in
  strip_back token.

(** The words of one line, appended to [words]. *)
Definition parse_line (words : list string) (raw : string) : list string :=
  let text := strip raw in
  if is_empty text then words
  else
    fold_left
      (fun words p =>
         let w := normalize_token p in
         if negb (is_empty w) then words ++ [w] else words)
      (split text) words.

Definition parse_words (fs : filesystem) (file_path : string)
  : result (list string * list string) :=
  match fs file_path with
  | FileLines lines => Ok (fold_left parse_line lines [], [])
  | FileNotFound => Ok ([], ["File not found: " +:+ file_path])
  | FileUnreadable exc =>
      Ok ([], ["Could not read file '" +:+ file_path +:+ "': " +:+ exc])
  | FileUndecodable detail => Raise (UnicodeDecodeError detail)
  end.

Definition word_dict := dict (K:=string) (V:=Z).

Definition count_step (st : word_dict * word_dict) (item : Z * string)
  : result (word_dict * word_dict) :=
  let '(counts, first_index) := st in
  let '(idx, w) := item in
  if negb (dict_mem String.eqb counts w) then
    Ok (dict_set String.eqb counts w 1, dict_set String.eqb first_index w idx)
  else
    let* c := dict_lookup String.eqb counts w in
    Ok (dict_set String.eqb counts w (c + 1), first_index).

Definition count_words (words : list string) : result (word_dict * word_dict) :=
  for_each (enumerate words) count_step ([], []).

Definition sort_words (counts first_index : word_dict) : result (list string) :=
  let items := dict_keys counts in
  let* keyed :=
    map_result
      (fun w =>
         let* c := dict_lookup String.eqb counts w in
         let* f := dict_lookup String.eqb first_index w in
         Ok ((- c, f), w))
      items in
  Ok (map snd (stable_sort pair_lt keyed)).

(** [order]: the table of [count_words] handed to [sort_words]. *)
Definition order (words : list string) : result (list string) :=
  let* '(counts, first_index) := count_words words in
  sort_words counts first_index.

Definition write_results (lines : list string) : string :=
  concat_strings (map (fun line => line +:+ NL) lines).

Definition main (fs : filesystem) (elapsed : string) (argv : list string)
  : result outcome :=
  if negb (Z.of_nat (length argv) =? 2) then
    Ok {| exit_code := 2;
          console := ["Usage: python wordCount.py fileWithData.txt"];
          results_file := None |}
  else
    let* file_path := list_index argv 1 in
    let* '(words, errors) := parse_words fs file_path in
    let printed := map (fun err => "ERROR: " +:+ err) errors in
    let* base_name := list_index (split_on "/" file_path "") (-1) in
    let lines := ["Row Labels" +:+ TAB +:+ "Count of " +:+ base_name] in
    let* lines :=
      if negb (Z.of_nat (length words) =? 0) then
        let* '(counts, first_idx) := count_words words in
        let* ordered := sort_words counts first_idx in
        for_each ordered
          (fun lines w =>
             let* c := dict_lookup String.eqb counts w in
             Ok (lines ++ [w +:+ TAB +:+ str_of_int c]))
          lines
      else Ok (lines ++ ["(no words found)" +:+ TAB +:+ "0"]) in
    let lines := lines ++ ["Time Elapsed (s):" +:+ TAB +:+ elapsed] in
    Ok {| exit_code := 0;
          console := printed ++ lines;
          results_file := Some (write_results lines) |}.

End WordCount.

(** ** Reference notions the properties are stated with *)

(** The value of a digit character, 0-9 and A-F. *)
Definition digit_value (c : ascii) : option Z :=
  if is_digit c then Some (code c - 48)
  else if (65 <=? code c) && (code c <=? 70) then Some (code c - 55)
  else None.

(** The value of a string of digits in base [b], most significant digit
    first, continuing from [acc]. *)
Fixpoint numeral_value (b acc : Z) (s : string) : option Z :=
  match s with
  | EmptyString => Some acc
  | String c s' =>
      match digit_value c with
      | Some d => if d <? b then numeral_value b (acc * b + d) s' else None
      | None => None
      end
  end.

(** A numeral in base [b]: digits, or ["-"] and digits for the negation. *)
Definition parse_numeral (b : Z) (s : string) : option Z :=
  match s with
  | EmptyString => None
  | String c s' =>
      if Ascii.eqb c "-" then
        if is_empty s' then None else Z.opp <$> numeral_value b 0 s'
      else numeral_value b 0 s
  end.

(** The fuel that [value] needs: one unit for each of its bits. *)
Definition bits (value : Z) : nat := S (Z.to_nat (Z.log2 value)).

(** The invariant of the outer loop of [selection_sort] before the turn for
    [p]: the array is the input rearranged and nothing behind a place below
    [p] is smaller than what stands there. *)
Definition sorted_below {V} `{Number V} (values : list V) (p : Z) (arr : list V)
  : Prop :=
  length arr = length values
  /\ arr ≡ₚ values
  /\ forall a b x y, (Z.of_nat a < p) -> (a < b)%nat ->
       arr !! a = Some x -> arr !! b = Some y -> num_lt y x = false.

(** Two results agree: both raise the same exception, or both return and
    what they return is related by [R]. *)
Inductive result_rel {A B} (R : A -> B -> Prop) : result A -> result B -> Prop :=
  | rel_ok (a : A) (b : B) : R a b -> result_rel R (Ok a) (Ok b)
  | rel_raise (e : exn) : result_rel R (Raise e) (Raise e).

(** The integers as values, to run the functions on exact data. *)
#[export] Instance Z_number : Number Z := {|
  num_lt := Z.ltb;
  num_eq := Z.eqb;
  num_zero := 0;
  num_two := 2;
  num_add := Z.add;
  num_sub := Z.sub;
  num_mul := Z.mul;
  num_div := Z.div;
  num_of_int := fun n => n;
  num_pow_half := Z.sqrt
|}.

#[export] Instance Z_text : NumberText Z := {|
  num_parse := py_int;
  num_fmt6 := fun n => str_of_int n +:+ ".000000"
|}.

(** Binary64 floats, the values of the program itself.  [float(n)] is given
    for the counts below 2^63.  [a ** 0.5] is the power function of the C
    library, whose last bit IEEE 754 does not fix (it need not be the
    correctly rounded square root), so it is the parameter [pow_half]. *)
Definition float_number (pow_half : float -> float) : Number float := {|
  num_lt := PrimFloat.ltb;
  num_eq := PrimFloat.eqb;
  num_zero := 0%float;
  num_two := 2%float;
  num_add := PrimFloat.add;
  num_sub := PrimFloat.sub;
  num_mul := PrimFloat.mul;
  num_div := PrimFloat.div;
  num_of_int := fun n => PrimFloat.of_uint63 (Uint63.of_Z n);
  num_pow_half := pow_half
|}.

(** The floats with the correctly rounded square root in the place of
    [pow_half]: values to run the functions on, not a statement about the
    power function of the interpreter. *)
#[export] Instance float_sqrt_number : Number float :=
  float_number PrimFloat.sqrt.

(** How often [v] occurs in [values], counted with [==]. *)
Fixpoint occurrences {V} `{Number V} (v : V) (values : list V) : Z :=
  match values with
  | [] => 0
  | x :: rest => (if num_eq x v then 1 else 0) + occurrences v rest
  end.

(** The count that the table of [mode] holds for the key [k]: the number
    of its occurrences, or 1 for a key that is not equal to itself, which no
    later value finds again. *)
Definition entry_count {V} `{Number V} (k : V) (seen : list V) : Z :=
  if num_eq k k then occurrences k seen else 1.

(** The table that [mode] has built from the values read so far: no two
    keys are equal, every key is one of the values and stands with its
    count, and every value that is equal to itself has its key. *)
Definition freq_ok {V} `{Number V} (seen : list V) (freq : list (V * Z)) : Prop :=
  (forall i j k1 c1 k2 c2,
     freq !! i = Some (k1, c1) -> freq !! j = Some (k2, c2) ->
     num_eq k1 k2 = true -> i = j)
  /\ (forall k c, (k, c) ∈ freq -> k ∈ seen /\ c = entry_count k seen)
  /\ (forall v, v ∈ seen -> num_eq v v = true ->
        exists k c, (k, c) ∈ freq /\ num_eq k v = true).

(** The state of the scan of [mode] after the entries [items]:
    [best_count] is the highest count, and [best_value] is a key with that
    count that no other such key is below. *)
Definition best_ok {V} `{Number V} (items : list (V * Z)) (st : Z * option V)
  : Prop :=
  (forall v c, (v, c) ∈ items -> c <= fst st)
  /\ match snd st with
     | None => items = [] /\ fst st = 0
     | Some m =>
         (m, fst st) ∈ items
         /\ forall v, (v, fst st) ∈ items -> num_lt v m = false
     end.

(** How often the word [w] occurs in [words]. *)
Fixpoint count_of (w : string) (words : list string) : Z :=
  match words with
  | [] => 0
  | x :: rest => (if String.eqb x w then 1 else 0) + count_of w rest
  end.

(** The position, from 0, where [w] occurs first in [words] (the length of
    [words] when it does not occur). *)
Fixpoint first_index_of (w : string) (words : list string) : Z :=
  match words with
  | [] => 0
  | x :: rest => if String.eqb x w then 0 else 1 + first_index_of w rest
  end.

(** The order of the report: more occurrences first, and among words with
    equally many the one that occurred first. *)
Definition before (words : list string) (a b : string) : Prop :=
  count_of b words < count_of a words
  \/ (count_of a words = count_of b words
      /\ first_index_of a words < first_index_of b words).

(** The two tables of [count_words] after the words [seen]: every word seen
    has its count and its first position, and no other word has an entry. *)
Definition table_ok (seen : list string)
    (st : WordCount.word_dict * WordCount.word_dict) : Prop :=
  NoDup (dict_keys (fst st))
  /\ (forall w, dict_find String.eqb (fst st) w
                = if decide (w ∈ seen) then Some (count_of w seen) else None)
  /\ (forall w, dict_find String.eqb (snd st) w
                = if decide (w ∈ seen) then Some (first_index_of w seen) else None).

(** A string of decimal digits only (the empty string included). *)
Fixpoint all_digits (s : string) : bool :=
  match s with
  | EmptyString => true
  | String c s' => is_digit c && all_digits s'
  end.

(** What stands after the sign of a literal, and the sign itself. *)
Definition unsigned_part (t : string) : string :=
  match t with
  | String "+" r => r
  | String "-" r => r
  | _ => t
  end.

Definition sign_of (t : string) : Z :=
  match t with
  | String "-" _ => -1
  | _ => 1
  end.

(** A signed integer literal in the narrow sense: an optional sign and then
    decimal digits only, at least one. *)
Definition is_int_literal (t : string) : bool :=
  negb (is_empty (unsigned_part t)) && all_digits (unsigned_part t).

(** A group of digits: not empty, digits only. *)
Definition digit_group (g : string) : bool := negb (is_empty g) && all_digits g.

(** A signed integer literal in the wide sense: an optional sign and then
    groups of digits with one underscore between two groups. *)
Definition is_grouped_literal (t : string) : bool :=
  forallb digit_group (split_on "_" (unsigned_part t) "").

(** A literal that [int] takes: no more than 4300 digits after the sign. *)
Definition within_digit_limit (t : string) : bool :=
  digit_count (unsigned_part t) <=? int_max_str_digits.

(** The number that the digits of [s] denote after [acc], underscores left
    out. *)
Fixpoint decimal_value (s : string) (acc : Z) : Z :=
  match s with
  | EmptyString => acc
  | String c s' =>
      if Ascii.eqb c "_" then decimal_value s' acc
      else decimal_value s' (10 * acc + digit_of c)
  end.

Definition literal_value (t : string) : Z :=
  sign_of t * decimal_value (unsigned_part t) 0.

(** What a line gives to the integer parser and to the number parser: the
    value, or nothing when the line is skipped. *)
Definition int_of_line (raw : string) : option Z :=
  let text := strip raw in
  if is_empty text then None else py_int text.

Definition num_of_line {V} `{NumberText V} (raw : string) : option V :=
  let text := strip raw in
  if is_empty text then None else num_parse text.

Definition is_none {A} (o : option A) : bool :=
  match o with
  | None => true
  | Some _ => false
  end.

(** The place of a float in the order of the floats: the class (minus
    infinity, negative, zero, positive, plus infinity), then exponent and
    mantissa; NaN has no place. *)
Definition rank (x : spec_float) : option (Z * Z * Z) :=
  match x with
  | S754_nan => None
  | S754_infinity true => Some (-2, 0, 0)
  | S754_infinity false => Some (2, 0, 0)
  | S754_zero _ => Some (0, 0, 0)
  | S754_finite true m e => Some (-1, - e, - Z.pos m)
  | S754_finite false m e => Some (1, e, Z.pos m)
  end.

Definition lex_lt (a b : Z * Z * Z) : Prop :=
  let '(a1, a2, a3) := a in
  let '(b1, b2, b3) := b in
  a1 < b1 \/ (a1 = b1 /\ (a2 < b2 \/ (a2 = b2 /\ a3 < b3))).

(** ** Reference notions of the further properties *)

(** Digits, each with a value below [b]. *)
Fixpoint digits_below (b : Z) (s : string) : bool :=
  match s with
  | EmptyString => true
  | String c s' =>
      match digit_value c with
      | Some d => (d <? b) && digits_below b s'
      | None => false
      end
  end.

(** What stands after the ["-"] of a numeral. *)
Definition magnitude_part (s : string) : string :=
  match s with
  | EmptyString => EmptyString
  | String c r => if Ascii.eqb c "-" then r else s
  end.

Definition leading_nonzero (s : string) : bool :=
  match s with
  | EmptyString => false
  | String c _ => negb (Ascii.eqb c "0")
  end.

(** A numeral of base [b] in the one form that [to_base] writes: ["0"], or
    an optional ["-"] and digits below [b] that do not start with ["0"]. *)
Definition canonical_numeral (b : Z) (s : string) : bool :=
  String.eqb s "0"
  || (leading_nonzero (magnitude_part s) && digits_below b (magnitude_part s)).

(** A numeral that starts with ["-"]. *)
Definition is_negative_numeral (s : string) : bool :=
  match s with
  | EmptyString => false
  | String c _ => Ascii.eqb c "-"
  end.

(** The sum of the counts of a table. *)
Definition dict_sum {K} (d : list (K * Z)) : Z :=
  fold_right (fun entry total => snd entry + total) 0 d.

(** ** The other scripts of the statistics tool

    [compute_statistics.py] and [P2/source/convert_numbers.py] hold the
    statistics tool once more.  They are modelled where their text differs
    from [computeStatistics.py]; [selection_sort] is the same text in all
    three, [median] differs only in dividing by [2] for [2.0], and
    [convert_numbers.py] has [mean], [variance_population] and
    [stddev_population] of [computeStatistics.py] unchanged. *)
Module StatisticsVariants.

(** The errors that end a call in these two scripts: those of [exn], the
    [OSError] of a file that cannot be read, which their [parse_numbers]
    does not catch, and the [OverflowError] of [x ** 2]. *)
Inductive error : Type :=
  | Exn (e : exn)
  | OSError (exc : string)
  | OverflowError.

Inductive run (A : Type) : Type :=
  | Finished (a : A)
  | Failed (e : error).
Arguments Finished {A} a.
Arguments Failed {A} e.

Definition lift {A} (r : result A) : run A :=
  match r with
  | Ok a => Finished a
  | Raise e => Failed (Exn e)
  end.

Definition run_bind {A B} (m : run A) (k : A -> run B) : run B :=
  match m with
  | Finished a => k a
  | Failed e => Failed e
  end.

Notation "'let!' x ':=' m 'in' k" := (run_bind m (fun x => k))
  (at level 10, x name, m at level 100, k at level 200) : result_scope.
Notation "'let!' ' p ':=' m 'in' k" :=
  (run_bind m (fun x => match x with p => k end))
  (at level 10, p pattern, m at level 100, k at level 200) : result_scope.

Section Functions.
Context {V : Type} `{Number V}.

(** One turn of the loop of [mode] in both scripts:
    [if c > best_count or (c == best_count and best_value is not None
    and v < best_value): best_count = c; best_value = v]. *)
Definition best_step (st : Z * option V) (entry : V * Z) : Z * option V :=
  let '(best_count, best_value) := st in
  let '(v, c) := entry in
  if (best_count <? c)
     || ((c =? best_count)
         && match best_value with
            | Some b => num_lt v b
            | None => false
            end)
  then (c, Some v)
  else (best_count, best_value).

(** [mode] of [compute_statistics.py]; it ends in
    [return best_value if best_count > 1 else None]. *)
Definition mode (values : list V) : option V :=
  let freq := Statistics.frequencies values in
  let '(best_count, best_value) := fold_left best_step (dict_items freq) (0, None) in
  if 1 <? best_count then best_value else None.

(** [mode] of [convert_numbers.py]; it ends in
    [if best_count <= 1: return None] and [return best_value]. *)
Definition mode_copy (values : list V) : option V :=
  let freq := Statistics.frequencies values in
  let '(best_count, best_value) := fold_left best_step (dict_items freq) (0, None) in
  if best_count <=? 1 then None else best_value.

Context `{NumberText V}.

(** [format_results(values, elapsed)] of [convert_numbers.py], which
    computes the statistics itself. *)
Definition format_results_copy (values : list V) (elapsed : string)
  : result string :=
  let* mu := Statistics.mean values in
  let* med := Statistics.median values in
  let mod_ := mode_copy values in
  let* var := Statistics.variance_population values in
  let* std := Statistics.stddev_population values in
  let mod_text :=
    match mod_ with
    | None => "N/A"
    | Some m => num_fmt6 m
    end in
  Ok ("Count: " +:+ str_of_int (Z.of_nat (length values)) +:+ NL
      +:+ "Mean: " +:+ num_fmt6 mu +:+ NL
      +:+ "Median: " +:+ num_fmt6 med +:+ NL
      +:+ "Mode: " +:+ mod_text +:+ NL
      +:+ "Standard Deviation (Population): " +:+ num_fmt6 std +:+ NL
      +:+ "Variance (Population): " +:+ num_fmt6 var +:+ NL
      +:+ "Time Elapsed (s): " +:+ elapsed +:+ NL).

(** [parse_numbers] of both scripts: the lines are read as in
    [computeStatistics.py], but there is no [except OSError]; the
    [UnicodeDecodeError] of a file that is not UTF-8 is caught by neither. *)
Definition parse_numbers (fs : filesystem) (file_path : string)
  : run (list V * list string) :=
  match fs file_path with
  | FileLines lines =>
      Finished (fold_left Statistics.parse_line (enumerate1 lines) ([], []))
  | FileNotFound => Finished ([], ["File not found: " +:+ file_path])
  | FileUnreadable exc => Failed (OSError exc)
  | FileUndecodable detail => Failed (Exn (UnicodeDecodeError detail))
  end.

(** [main] of [convert_numbers.py]. *)
Definition main_copy (fs : filesystem) (elapsed : string) (argv : list string)
  : run outcome :=
  if negb (Z.of_nat (length argv) =? 2) then
    Finished
      {| exit_code := 2;
         console := ["Usage: python compute_statistics.py fileWithData.txt"];
         results_file := None |}
  else
    let! file_path := lift (list_index argv 1) in
    let! '(numbers, errors) := parse_numbers fs file_path in
    let printed := map (fun err => "ERROR: " +:+ err) errors in
    if Z.of_nat (length numbers) =? 0 then
      Finished {| exit_code := 1; console := printed; results_file := None |}
    else
      let! out := lift (format_results_copy numbers elapsed) in
      Finished {| exit_code := 0;
                  console := printed ++ [out];
                  results_file := Some out |}.

(** The built-in [sum] on a list of floats, whose rounding is that of the
    interpreter, and [x ** 2], which is [None] where Python raises
    [OverflowError]. *)
Variable py_sum : list V -> V.
Variable square : V -> option V.

(** [mean] of [compute_statistics.py]: [sum(values) / len(values)]. *)
Definition mean (values : list V) : result V :=
  Statistics.div_by_count (py_sum values) (Z.of_nat (length values)).

(** The values of the generator [(v - mu) ** 2 for v in values], which
    [sum] takes one after the other. *)
Fixpoint squares (mu : V) (values : list V) : run (list V) :=
  match values with
  | [] => Finished []
  | v :: rest =>
      match square (num_sub v mu) with
      | None => Failed OverflowError
      | Some sq => let! sqs := squares mu rest in Finished (sq :: sqs)
      end
  end.

(** [variance_population] of [compute_statistics.py]:
    [sum((v - mu) ** 2 for v in values) / len(values)]. *)
Definition variance_population (values : list V) : run V :=
  let! mu := lift (mean values) in
  let! sqs := squares mu values in
  lift (Statistics.div_by_count (py_sum sqs) (Z.of_nat (length values))).

Definition stddev_population (values : list V) : run V :=
  let! var := variance_population values in
  Finished (num_pow_half var).

(** [main] of [compute_statistics.py]. *)
Definition main (fs : filesystem) (elapsed : string) (argv : list string)
  : run outcome :=
  if negb (Z.of_nat (length argv) =? 2) then
    Finished
      {| exit_code := 2;
         console := ["Usage: python compute_statistics.py file.txt"];
         results_file := None |}
  else
    let! file_path := lift (list_index argv 1) in
    let! '(numbers, errors) := parse_numbers fs file_path in
    let printed := map (fun err => "ERROR: " +:+ err) errors in
    if Z.of_nat (length numbers) =? 0 then
      Finished {| exit_code := 1; console := printed; results_file := None |}
    else
      let! mu := lift (mean numbers) in
      let! med := lift (Statistics.median numbers) in
      let mod_ := mode numbers in
      let! var := variance_population numbers in
      let! std := stddev_population numbers in
      let output :=
        Statistics.format_results (Z.of_nat (length numbers)) mu med mod_ std var
          elapsed in
      Finished {| exit_code := 0;
                  console := printed ++ [output];
                  results_file := Some output |}.
End Functions.
End StatisticsVariants.

(** The first and the last character of a string. *)
Definition first_char (s : string) : option ascii :=
  match s with
  | EmptyString => None
  | String c _ => Some c
  end.

Fixpoint last_char (s : string) : option ascii :=
  match s with
  | EmptyString => None
  | String c EmptyString => Some c
  | String _ rest => last_char rest
  end.

(** A string without white space. *)
Fixpoint no_space (s : string) : bool :=
  match s with
  | EmptyString => true
  | String c rest => negb (is_space c) && no_space rest
  end.

(** A string of characters of [chars] only. *)
Fixpoint all_chars_in (chars : string) (s : string) : bool :=
  match s with
  | EmptyString => true
  | String c rest => char_in c chars && all_chars_in chars rest
  end.

(** * Properties *)

(** ** The order of the floats *)

Module FloatOrder.

Lemma SFltb_rank (x y : spec_float) :
  SFltb x y = true <->
  exists a b, rank x = Some a /\ rank y = Some b /\ lex_lt a b.
Proof.
  unfold SFltb, SFcompare.
  destruct x as [sx|sx| |sx mx ex], y as [sy|sy| |sy my ey];
    try destruct sx; try destruct sy; cbn [rank];
    try (split; [discriminate|intros (a & b & Ha & Hb & Hlt); try discriminate;
                 injection Ha as <-; injection Hb as <-; cbn in Hlt; lia]);
    try (split; [intros _; do 2 eexists; split; [reflexivity|];
                 split; [reflexivity|]; cbn; lia|reflexivity]).
  all: change (Pos.compare_cont Eq mx my) with (Pos.compare mx my).
  all: destruct (Z.compare_spec ex ey), (Pos.compare_spec mx my); cbn [CompOpp];
    (split; [first [discriminate
                   |intros _; do 2 eexists; split; [reflexivity|];
                    split; [reflexivity|]; cbn; lia]
            |intros (a & b & Ha & Hb & Hlt); injection Ha as <-;
             injection Hb as <-; cbn in Hlt; try reflexivity; lia]).
Qed.

Lemma SFeqb_rank (x y : spec_float) :
  SFeqb x y = true <-> exists a, rank x = Some a /\ rank y = Some a.
Proof.
  unfold SFeqb, SFcompare.
  destruct x as [sx|sx| |sx mx ex], y as [sy|sy| |sy my ey];
    try destruct sx; try destruct sy; cbn [rank];
    try (split; [discriminate|intros (a & Ha & Hb); try discriminate;
                 injection Ha as <-; injection Hb as Hb; lia]);
    try (split; [intros _; eexists; split; reflexivity|reflexivity]).
  all: change (Pos.compare_cont Eq mx my) with (Pos.compare mx my).
  all: destruct (Z.compare_spec ex ey), (Pos.compare_spec mx my); cbn [CompOpp];
    (split; [first [discriminate
                   |intros _; subst; eexists; split; reflexivity]
            |intros (a & Ha & Hb); injection Ha as <-;
             injection Hb as Hb1 Hb2; try reflexivity; lia]).
Qed.

Section Floats.
Variable pow_half : float -> float.

Lemma float_lt_rank (x y : float) :
  num_lt (Number:=float_number pow_half) x y = true <->
  exists a b, rank (Prim2SF x) = Some a /\ rank (Prim2SF y) = Some b
              /\ lex_lt a b.
Proof. cbn [num_lt float_number]. rewrite FloatAxioms.ltb_spec. apply SFltb_rank. Qed.

Lemma float_eq_rank (x y : float) :
  num_eq (Number:=float_number pow_half) x y = true <->
  exists a, rank (Prim2SF x) = Some a /\ rank (Prim2SF y) = Some a.
Proof. cbn [num_eq float_number]. rewrite FloatAxioms.eqb_spec. apply SFeqb_rank. Qed.

Lemma float_lt_not (x y : float) (a b : Z * Z * Z) :
  rank (Prim2SF x) = Some a -> rank (Prim2SF y) = Some b ->
  num_lt (Number:=float_number pow_half) x y = false -> ~ lex_lt a b.
Proof.
  intros Ha Hb Hlt Hab.
  assert (num_lt (Number:=float_number pow_half) x y = true) as Htrue
    by (apply float_lt_rank; eauto).
  rewrite Htrue in Hlt. discriminate.
Qed.

Lemma float_lt_same_rank (x x' y y' : float) :
  rank (Prim2SF x) = rank (Prim2SF x') ->
  rank (Prim2SF y) = rank (Prim2SF y') ->
  num_lt (Number:=float_number pow_half) x y
  = num_lt (Number:=float_number pow_half) x' y'.
Proof.
  intros Hx Hy. apply Bool.eq_iff_eq_true.
  rewrite !float_lt_rank, Hx, Hy. reflexivity.
Qed.

(** The floats, NaN included, have the order that the proofs ask for. *)
Lemma float_number_order : NumberOrder (H:=float_number pow_half) float.
Proof.
  split.
  - intros x y Hxy. apply float_eq_rank in Hxy as (a & Hx & Hy).
    apply float_eq_rank. eauto.
  - intros x y z Hxy Hyz. apply float_eq_rank in Hxy as (a & Hx & Hy).
    apply float_eq_rank in Hyz as (b & Hy' & Hz).
    rewrite Hy in Hy'. injection Hy' as <-. apply float_eq_rank. eauto.
  - intros x.
    destruct (num_lt (Number:=float_number pow_half) x x) eqn:Hlt;
      [|reflexivity].
    apply float_lt_rank in Hlt as (a & b & Ha & Hb & Hlt).
    rewrite Ha in Hb. injection Hb as <-.
    destruct a as [[a1 a2] a3]. cbn in Hlt. lia.
  - intros x y z Hxy Hyz.
    apply float_lt_rank in Hxy as (a & b & Ha & Hb & Hab).
    apply float_lt_rank in Hyz as (b' & c & Hb' & Hc & Hbc).
    rewrite Hb in Hb'. injection Hb' as <-.
    apply float_lt_rank. exists a, c. split; [exact Ha|]. split; [exact Hc|].
    destruct a as [[a1 a2] a3], b as [[b1 b2] b3], c as [[c1 c2] c3].
    cbn in *. lia.
  - intros x y Hx Hy Hxy Hyx.
    apply float_eq_rank in Hx as (a & Ha & _).
    apply float_eq_rank in Hy as (b & Hb & _).
    pose proof (float_lt_not x y a b Ha Hb Hxy) as Hab.
    pose proof (float_lt_not y x b a Hb Ha Hyx) as Hba.
    apply float_eq_rank. exists a. split; [exact Ha|]. rewrite Hb. f_equal.
    destruct a as [[a1 a2] a3], b as [[b1 b2] b3]. cbn in *.
    repeat f_equal; lia.
  - intros x y z Hxy. apply float_eq_rank in Hxy as (a & Hx & Hy).
    apply float_lt_same_rank; congruence.
  - intros x y z Hxy. apply float_eq_rank in Hxy as (a & Hx & Hy).
    apply float_lt_same_rank; congruence.
Qed.

End Floats.

Lemma float_sqrt_order : NumberOrder (H:=float_sqrt_number) float.
Proof. exact (float_number_order PrimFloat.sqrt). Qed.

End FloatOrder.

(** ** Sequence primitives *)

Lemma list_index_nat {A} (l : list A) (k : nat) (a : A) :
  l !! k = Some a -> list_index l (Z.of_nat k) = Ok a.
Proof.
  intros Hk. pose proof (lookup_lt_Some _ _ _ Hk) as Hlt.
  unfold list_index.
  destruct (Z.ltb_spec (Z.of_nat k) 0) as [?|_]; [lia|].
  destruct (Z.ltb_spec (Z.of_nat k) 0) as [?|_]; [lia|].
  destruct (Z.leb_spec (Z.of_nat (length l)) (Z.of_nat k)) as [?|_]; [lia|].
  cbn [orb]. rewrite Nat2Z.id, Hk. reflexivity.
Qed.

Lemma range_down_succ (n : nat) :
  range_down (Z.of_nat (S n) - 1) (-1) = Z.of_nat n :: range_down (Z.of_nat n - 1) (-1).
Proof.
  unfold range_down.
  replace (Z.to_nat (Z.of_nat (S n) - 1 - -1)) with (S n) by lia.
  replace (Z.to_nat (Z.of_nat n - 1 - -1)) with n by lia.
  cbn [seq map]. f_equal; [lia|].
  rewrite <- seq_shift, map_map. apply map_ext. intros k. lia.
Qed.

Lemma string_app_cons (x : ascii) (a b : string) :
  String x a +:+ b = String x (a +:+ b).
Proof. reflexivity. Qed.

Lemma string_app_nil_l (a : string) : "" +:+ a = a.
Proof. reflexivity. Qed.

Lemma string_app_assoc (a b c : string) : (a +:+ b) +:+ c = a +:+ (b +:+ c).
Proof.
  induction a as [|x a IH]; [reflexivity|].
  rewrite !string_app_cons. now rewrite IH.
Qed.

Lemma string_app_nil_r (a : string) : a +:+ "" = a.
Proof.
  induction a as [|x a IH]; [reflexivity|].
  rewrite string_app_cons. now rewrite IH.
Qed.

Lemma concat_strings_app (l1 l2 : list string) :
  concat_strings (l1 ++ l2) = concat_strings l1 +:+ concat_strings l2.
Proof.
  induction l1 as [|x l1 IH]; [reflexivity|].
  cbn [app concat_strings fold_right]. fold (concat_strings (l1 ++ l2)).
  fold (concat_strings l1). rewrite IH. symmetry. apply string_app_assoc.
Qed.

(** ** convertNumbers.py: [to_base] *)

Module ConvertNumbersFacts.
Import ConvertNumbers.

Lemma reverse_loop (ds extra : list string) (out : string) :
  for_each (range_down (Z.of_nat (length ds) - 1) (-1))
    (fun out i => let* d := list_index (ds ++ extra) i in Ok (out +:+ d)) out
  = Ok (out +:+ concat_strings (rev ds)).
Proof.
  revert extra out. induction ds as [|d ds IH] using rev_ind; intros extra out.
  - cbn. now rewrite string_app_nil_r.
  - rewrite length_app. cbn [length].
    replace (length ds + 1)%nat with (S (length ds)) by lia.
    rewrite range_down_succ. cbn [for_each].
    rewrite <- app_assoc.
    rewrite (list_index_nat (ds ++ [d] ++ extra) (length ds) d).
    2:{ rewrite lookup_app_r by lia. now rewrite Nat.sub_diag. }
    cbn [rbind]. rewrite IH.
    rewrite rev_app_distr. cbn [rev app concat_strings fold_right].
    f_equal. unfold concat_strings. cbn [fold_right].
    now rewrite string_app_assoc.
Qed.

Lemma reverse_digits_eq (digits : list string) :
  reverse_digits digits = Ok (concat_strings (rev digits)).
Proof.
  unfold reverse_digits.
  pose proof (reverse_loop digits [] "") as E.
  rewrite app_nil_r in E. exact E.
Qed.

Lemma hex_digit (r : Z) :
  0 <= r < 16 ->
  exists c, str_index HEX_DIGITS r = Ok (String c "") /\ digit_value c = Some r.
Proof.
  intros Hr.
  assert (r = 0 \/ r = 1 \/ r = 2 \/ r = 3 \/ r = 4 \/ r = 5 \/ r = 6 \/ r = 7 \/
          r = 8 \/ r = 9 \/ r = 10 \/ r = 11 \/ r = 12 \/ r = 13 \/ r = 14 \/
          r = 15) as Hcases by lia.
  repeat (destruct Hcases as [-> | Hcases]; [eexists; split; reflexivity|]).
  subst r. eexists; split; reflexivity.
Qed.

Lemma numeral_value_app (b acc : Z) (s1 s2 : string) :
  numeral_value b acc (s1 +:+ s2) =
  match numeral_value b acc s1 with
  | Some a => numeral_value b a s2
  | None => None
  end.
Proof.
  revert acc. induction s1 as [|c s1 IH]; intros acc; [reflexivity|].
  rewrite string_app_cons. cbn [numeral_value].
  destruct (digit_value c) as [d|]; [|reflexivity].
  destruct (d <? b); [apply IH|reflexivity].
Qed.

Lemma quotient_decreases (base value : Z) :
  2 <= base -> 0 < value -> 0 <= value / base < value.
Proof.
  intros Hb Hv. split.
  - apply Z.div_pos; lia.
  - apply Z.div_lt; lia.
Qed.

Lemma quotient_below (base value : Z) (fuel : nat) :
  2 <= base -> 0 <= value < 2 ^ Z.of_nat (S fuel) ->
  0 <= value / base < 2 ^ Z.of_nat fuel.
Proof.
  intros Hb [Hv0 Hv]. split; [apply Z.div_pos; lia|].
  apply Z.div_lt_upper_bound; [lia|].
  rewrite Nat2Z.inj_succ, Z.pow_succ_r in Hv by lia.
  assert (0 < 2 ^ Z.of_nat fuel) by (apply Z.pow_pos_nonneg; lia).
  nia.
Qed.

(** The loop with enough fuel: it appends to [digits] the digits of [value],
    least significant first. *)
Lemma digit_loop_enough (fuel : nat) :
  forall base value digits,
    2 <= base <= 16 -> 0 <= value < 2 ^ Z.of_nat fuel ->
    exists ds,
      digit_loop fuel base value digits = Some (Ok (digits ++ ds))
      /\ numeral_value base 0 (concat_strings (rev ds)) = Some value
      /\ (0 < value -> ds <> []).
Proof.
  induction fuel as [|fuel IH]; intros base value digits Hb Hv.
  - assert (value = 0) as -> by (cbn in Hv; lia).
    exists []. rewrite app_nil_r. repeat split; try reflexivity. lia.
  - cbn [digit_loop].
    destruct (Z.ltb_spec 0 value) as [Hpos|Hzero].
    + pose proof (Z.mod_pos_bound value base ltac:(lia)) as Hr.
      destruct (hex_digit (value mod base) ltac:(lia)) as (c & Hc & Hd).
      rewrite Hc.
      destruct (IH base (value / base) (digits ++ [String c ""]) Hb
                  (quotient_below base value fuel ltac:(lia) Hv))
        as (ds & Hloop & Hval & _).
      exists (String c "" :: ds). split; [|split].
      * rewrite Hloop. now rewrite <- app_assoc.
      * cbn [rev]. rewrite concat_strings_app, numeral_value_app, Hval.
        cbn [concat_strings fold_right]. rewrite string_app_nil_r.
        cbn [numeral_value]. rewrite Hd.
        destruct (Z.ltb_spec (value mod base) base) as [_|?]; [|lia].
        f_equal. rewrite (Z.div_mod value base) at 3 by lia. lia.
      * intros _. discriminate.
    + assert (value = 0) as -> by lia.
      exists []. rewrite app_nil_r. repeat split; try reflexivity. lia.
Qed.

Lemma digit_loop_more_fuel (fuel : nat) :
  forall fuel' base value digits r,
    (fuel <= fuel')%nat ->
    digit_loop fuel base value digits = Some r ->
    digit_loop fuel' base value digits = Some r.
Proof.
  induction fuel as [|fuel IH]; intros fuel' base value digits r Hle Hrun.
  - cbn [digit_loop] in Hrun. destruct fuel'; cbn [digit_loop];
      destruct (0 <? value); try discriminate; exact Hrun.
  - destruct fuel' as [|fuel']; [lia|].
    cbn [digit_loop] in *. destruct (0 <? value); [|exact Hrun].
    destruct (str_index HEX_DIGITS (value mod base)); [|exact Hrun].
    apply IH; [lia|exact Hrun].
Qed.

Lemma bits_bound (value : Z) : 0 <= value -> 0 <= value < 2 ^ Z.of_nat (bits value).
Proof.
  intros Hv. split; [exact Hv|]. unfold bits.
  destruct (Z.eq_dec value 0) as [->|Hne]; [reflexivity|].
  rewrite Nat2Z.inj_succ, Z2Nat.id by apply Z.log2_nonneg.
  apply Z.log2_spec. lia.
Qed.

Lemma digit_loop_returns (base value : Z) (digits : list string) :
  2 <= base <= 16 -> 0 <= value ->
  exists ds,
    returns_within (bits value)
      (fun fuel => digit_loop fuel base value digits) (Ok (digits ++ ds))
    /\ numeral_value base 0 (concat_strings (rev ds)) = Some value.
Proof.
  intros Hb Hv.
  destruct (digit_loop_enough (bits value) base value digits Hb (bits_bound _ Hv))
    as (ds & Hloop & Hval & _).
  exists ds. split; [|assumption].
  intros fuel' Hle. now apply (digit_loop_more_fuel (bits value)).
Qed.

(** [to_base] on a number that is not zero, from the digits of its
    magnitude. *)
Lemma to_base_from_digits (k : nat) (n base : Z) (ds : list string) :
  2 <= base <= 16 -> n <> 0 ->
  returns_within k (fun fuel => digit_loop fuel base (Z.abs n) []) (Ok ds) ->
  returns_within k (fun fuel => to_base fuel n base)
    (Ok ((if n <? 0 then "-" else "") +:+ concat_strings (rev ds))).
Proof.
  intros Hb Hn Hfuel fuel' Hle.
  unfold to_base.
  destruct (Z.ltb_spec base 2) as [?|_]; [lia|].
  destruct (Z.ltb_spec 16 base) as [?|_]; [lia|].
  destruct (Z.eqb_spec n 0) as [?|_]; [contradiction|].
  cbn [orb].
  replace (if n <? 0 then - n else n) with (Z.abs n)
    by (destruct (Z.ltb_spec n 0); lia).
  rewrite (Hfuel fuel' Hle). cbn [fbind].
  rewrite reverse_digits_eq. reflexivity.
Qed.

Lemma to_base_zero (base : Z) (k : nat) :
  2 <= base <= 16 -> returns_within k (fun fuel => to_base fuel 0 base) (Ok "0").
Proof.
  intros Hb fuel' _. unfold to_base.
  destruct (Z.ltb_spec base 2) as [?|_]; [lia|].
  destruct (Z.ltb_spec 16 base) as [?|_]; [lia|]. reflexivity.
Qed.

Lemma numeral_not_minus (b v : Z) (c : ascii) (s : string) :
  numeral_value b 0 (String c s) = Some v -> Ascii.eqb c "-" = false.
Proof.
  cbn [numeral_value]. intros Hv.
  destruct (Ascii.eqb_spec c "-") as [->|]; [|reflexivity].
  discriminate Hv.
Qed.

(** The round trip for any base from 2 to 16. *)
Lemma to_base_reads_back (n base : Z) :
  2 <= base <= 16 ->
  exists s, returns_within (bits (Z.abs n)) (fun fuel => to_base fuel n base) (Ok s)
            /\ parse_numeral base s = Some n.
Proof.
  intros Hb.
  destruct (Z.eq_dec n 0) as [->|Hn].
  - exists "0". split; [now apply to_base_zero|].
    cbn [parse_numeral Ascii.eqb Bool.eqb numeral_value].
    change (digit_value "0") with (Some 0). cbv beta iota.
    destruct (Z.ltb_spec 0 base) as [_|?]; [f_equal; lia|lia].
  - destruct (digit_loop_returns base (Z.abs n) [] Hb ltac:(lia))
      as (ds & Hret & Hval).
    cbn [app] in Hret.
    exists ((if n <? 0 then "-" else "") +:+ concat_strings (rev ds)).
    split; [now apply to_base_from_digits|].
    destruct (concat_strings (rev ds)) as [|c s] eqn:Hs.
    { cbn [numeral_value] in Hval. injection Hval as Hval. lia. }
    pose proof (numeral_not_minus _ _ _ _ Hval) as Hc.
    destruct (Z.ltb_spec n 0) as [Hneg|Hpos].
    + rewrite string_app_cons, string_app_nil_l. cbn [parse_numeral].
      cbn [Ascii.eqb Bool.eqb is_empty]. rewrite Hval. cbn. f_equal. lia.
    + rewrite string_app_nil_l. cbn [parse_numeral]. rewrite Hc, Hval.
      f_equal. lia.
Qed.

(** C2: for every integer [n], reading [to_base(n, 2)] back as a binary
    numeral and [to_base(n, 16)] back as a hexadecimal numeral (a leading
    ["-"] for negation, digits 0-9 and A-F, most significant first) gives
    [n] again. *)
Theorem to_base_round_trip_2_16 (n : Z) :
  (exists s, returns (fun fuel => to_base fuel n 2) (Ok s)
             /\ parse_numeral 2 s = Some n)
  /\ (exists s, returns (fun fuel => to_base fuel n 16) (Ok s)
                /\ parse_numeral 16 s = Some n).
Proof.
  split.
  - destruct (to_base_reads_back n 2 ltac:(lia)) as (s & Hret & Hparse).
    exists s. split; [exists (bits (Z.abs n)); exact Hret|exact Hparse].
  - destruct (to_base_reads_back n 16 ltac:(lia)) as (s & Hret & Hparse).
    exists s. split; [exists (bits (Z.abs n)); exact Hret|exact Hparse].
Qed.

(** C3: for every base from 2 to 16, [to_base(0, base)] is ["0"], and for
    every [n > 0], [to_base(-n, base)] is ["-"] followed by
    [to_base(n, base)]. *)
Theorem to_base_zero_and_negative (base : Z) :
  2 <= base <= 16 ->
  returns (fun fuel => to_base fuel 0 base) (Ok "0")
  /\ forall n, 0 < n ->
       exists s, returns (fun fuel => to_base fuel n base) (Ok s)
                 /\ returns (fun fuel => to_base fuel (- n) base) (Ok ("-" +:+ s)).
Proof.
  intros Hb. split.
  - exists 0%nat. now apply to_base_zero.
  - intros n Hn.
    destruct (digit_loop_returns base n [] Hb ltac:(lia)) as (ds & Hret & _).
    cbn [app] in Hret.
    exists (concat_strings (rev ds)). split.
    + exists (bits n).
      pose proof (to_base_from_digits (bits n) n base ds Hb ltac:(lia)) as Hpos.
      replace (Z.abs n) with n in Hpos by lia.
      destruct (Z.ltb_spec n 0) as [?|_]; [lia|].
      rewrite string_app_nil_l in Hpos. now apply Hpos.
    + exists (bits n).
      pose proof (to_base_from_digits (bits n) (- n) base ds Hb ltac:(lia)) as Hneg.
      replace (Z.abs (- n)) with n in Hneg by lia.
      destruct (Z.ltb_spec (- n) 0) as [_|?]; [|lia].
      now apply Hneg.
Qed.

Lemma to_base_zero_and_negative_witness :
  2 <= 16 <= 16
  /\ returns (fun fuel => to_base fuel 0 16) (Ok "0")
  /\ exists s, returns (fun fuel => to_base fuel 255 16) (Ok s)
               /\ returns (fun fuel => to_base fuel (- 255) 16) (Ok ("-" +:+ s)).
Proof.
  split; [lia|].
  destruct (to_base_zero_and_negative 16 ltac:(lia)) as [Hzero Hneg].
  split; [exact Hzero|]. apply Hneg. lia.
Defined.

(** C9: for every integer [n] and every base from 2 to 16, [to_base]
    terminates: each turn of the digit loop replaces a positive working value
    by its quotient by the base, which is not negative and strictly smaller,
    so that as many turns as the value has bits bring it to 0 and the call
    returns a string. *)
Theorem to_base_terminates (n base : Z) :
  2 <= base <= 16 ->
  (forall value, 0 < value -> 0 <= value / base < value)
  /\ (forall value digits fuel, 0 <= value -> (bits value <= fuel)%nat ->
        exists out, digit_loop fuel base value digits = Some (Ok out))
  /\ (exists s, forall fuel, (bits (Z.abs n) <= fuel)%nat ->
                  to_base fuel n base = Some (Ok s)).
Proof.
  intros Hb. split; [|split].
  - intros value Hv. apply quotient_decreases; lia.
  - intros value digits fuel Hv Hfuel.
    destruct (digit_loop_returns base value digits Hb Hv) as (ds & Hret & _).
    exists (digits ++ ds). now apply Hret.
  - destruct (to_base_reads_back n base Hb) as (s & Hret & _).
    exists s. exact Hret.
Qed.

Lemma to_base_terminates_witness :
  2 <= 2 <= 16
  /\ (forall value, 0 < value -> 0 <= value / 2 < value)
  /\ (forall value digits fuel, 0 <= value -> (bits value <= fuel)%nat ->
        exists out, digit_loop fuel 2 value digits = Some (Ok out))
  /\ (exists s, forall fuel, (bits (Z.abs (- 10)) <= fuel)%nat ->
                  to_base fuel (- 10) 2 = Some (Ok s)).
Proof. split; [lia|]. apply (to_base_terminates (- 10) 2). lia. Defined.

End ConvertNumbersFacts.

(** ** Loops over ranges and indexed access *)

Lemma range_nil (a b : Z) : b <= a -> range a b = [].
Proof. intros H. unfold range. now replace (Z.to_nat (b - a)) with 0%nat by lia. Qed.

Lemma range_cons (a b : Z) : a < b -> range a b = a :: range (a + 1) b.
Proof.
  intros H. unfold range.
  replace (Z.to_nat (b - a)) with (S (Z.to_nat (b - (a + 1)))) by lia.
  cbn [seq map]. f_equal; [lia|].
  rewrite <- seq_shift, map_map. apply map_ext. intros k. lia.
Qed.

(** The rule for a [for] loop over [range(a, b)] with invariant [P]. *)
Lemma for_each_range {S} (P : Z -> S -> Prop) (body : S -> Z -> result S)
    (a b : Z) (s : S) :
  a <= b -> P a s ->
  (forall i s, a <= i < b -> P i s -> exists s', body s i = Ok s' /\ P (i + 1) s') ->
  exists s', for_each (range a b) body s = Ok s' /\ P b s'.
Proof.
  intros Hab. remember (Z.to_nat (b - a)) as n eqn:Hn.
  revert a s Hab Hn. induction n as [|n IH]; intros a s Hab Hn Hinit Hstep.
  - assert (a = b) as -> by lia. rewrite range_nil by lia. now exists s.
  - rewrite range_cons by lia. cbn [for_each].
    destruct (Hstep a s ltac:(lia) Hinit) as (s1 & Hbody & Hs1).
    rewrite Hbody. cbn [rbind].
    apply IH; [lia|lia|exact Hs1|].
    intros i s2 Hi. apply Hstep. lia.
Qed.

Lemma list_index_range {A} (l : list A) (i : Z) :
  0 <= i < Z.of_nat (length l) ->
  exists x, list_index l i = Ok x /\ l !! Z.to_nat i = Some x.
Proof.
  intros Hi. destruct (lookup_lt_is_Some_2 l (Z.to_nat i) ltac:(lia)) as [x Hx].
  exists x. split; [|exact Hx].
  rewrite <- (Z2Nat.id i) by lia. now apply list_index_nat.
Qed.

Lemma list_store_range {A} (l : list A) (i : Z) (x : A) :
  0 <= i < Z.of_nat (length l) ->
  list_store l i x = Ok (<[Z.to_nat i := x]> l).
Proof.
  intros Hi. unfold list_store.
  destruct (Z.ltb_spec i 0) as [?|_]; [lia|].
  destruct (Z.ltb_spec i 0) as [?|_]; [lia|].
  destruct (Z.leb_spec (Z.of_nat (length l)) i) as [?|_]; [lia|]. reflexivity.
Qed.

(** Where the elements are after the two stores of a swap. *)
Lemma swap_lookup {A} (l : list A) (i m j : nat) (x y : A) :
  l !! i = Some y -> l !! m = Some x ->
  <[m := y]> (<[i := x]> l) !! j =
  l !! (if decide (j = m) then i else if decide (j = i) then m else j).
Proof.
  intros Hi Hm.
  pose proof (lookup_lt_Some _ _ _ Hi). pose proof (lookup_lt_Some _ _ _ Hm).
  destruct (decide (j = m)) as [->|Hjm].
  - rewrite list_lookup_insert_eq by (rewrite length_insert; lia). now rewrite Hi.
  - rewrite list_lookup_insert_ne by congruence.
    destruct (decide (j = i)) as [->|Hji].
    + rewrite list_lookup_insert_eq by lia. now rewrite Hm.
    + now rewrite list_lookup_insert_ne by congruence.
Qed.

Lemma StronglySorted_pairs {A} (R : A -> A -> Prop) (l : list A) :
  (forall a b x y, (a < b)%nat -> l !! a = Some x -> l !! b = Some y -> R x y) ->
  StronglySorted R l.
Proof.
  induction l as [|x l IH]; intros Hl; constructor.
  - apply IH. intros a b u v Hab Hu Hv. now apply (Hl (S a) (S b)); [lia| |].
  - apply Forall_forall. intros y Hy.
    apply list_elem_of_lookup in Hy as [k Hk].
    now apply (Hl 0%nat (S k)); [lia| |].
Qed.

(** ** computeStatistics.py: [selection_sort] *)

Module SortFacts.
Import Statistics.

Section Sorting.
Context {V : Type} `{Number V}.
Hypothesis lt_irrefl : forall x : V, num_lt x x = false.
Hypothesis lt_trans : forall x y z : V,
  num_lt x y = true -> num_lt y z = true -> num_lt x z = true.

(** The inner loop finds a place [m] from [i] on whose element has nothing
    smaller from [i] on. *)
Lemma find_min_spec (arr : list V) (i : Z) :
  0 <= i < Z.of_nat (length arr) ->
  exists m,
    find_min list_index (Z.of_nat (length arr)) arr i = Ok m
    /\ i <= m < Z.of_nat (length arr)
    /\ forall k x y, i <= k < Z.of_nat (length arr) ->
         arr !! Z.to_nat k = Some x -> arr !! Z.to_nat m = Some y ->
         num_lt x y = false.
Proof.
  intros Hi. set (n := Z.of_nat (length arr)) in *.
  pose (P := fun (j m : Z) =>
    i <= m < j /\ forall k x y, i <= k < j ->
      arr !! Z.to_nat k = Some x -> arr !! Z.to_nat m = Some y ->
      num_lt x y = false).
  destruct (for_each_range P
    (fun min_idx j =>
       let* aj := list_index arr j in
       let* am := list_index arr min_idx in
       Ok (if num_lt aj am then j else min_idx))
    (i + 1) n i) as (m & Hm & Hrange & Hmin).
  - lia.
  - split; [lia|]. intros k x y Hk Hx Hy.
    assert (k = i) as -> by lia. rewrite Hx in Hy. injection Hy as ->.
    apply lt_irrefl.
  - intros j m Hj [Hm Hmin].
    destruct (list_index_range arr j ltac:(lia)) as (aj & -> & Haj).
    destruct (list_index_range arr m ltac:(lia)) as (am & -> & Ham).
    cbn [rbind]. eexists; split; [reflexivity|].
    destruct (num_lt aj am) eqn:Hlt; split; try lia.
    + intros k x y Hk Hx Hy. rewrite Haj in Hy. injection Hy as <-.
      destruct (Z.eq_dec k j) as [->|Hkj].
      * rewrite Haj in Hx. injection Hx as <-. apply lt_irrefl.
      * destruct (num_lt x aj) eqn:Hxj; [|reflexivity].
        rewrite <- (Hmin k x am ltac:(lia) Hx Ham).
        symmetry. now apply (lt_trans x aj am).
    + intros k x y Hk Hx Hy. rewrite Ham in Hy. injection Hy as <-.
      destruct (Z.eq_dec k j) as [->|Hkj].
      * rewrite Haj in Hx. injection Hx as <-. exact Hlt.
      * now apply (Hmin k x am ltac:(lia)).
  - exists m. split; [exact Hm|]. split; [lia|exact Hmin].
Qed.

Lemma swap_spec (arr : list V) (i m : Z) (x y : V) :
  0 <= i < Z.of_nat (length arr) -> 0 <= m < Z.of_nat (length arr) ->
  arr !! Z.to_nat i = Some y -> arr !! Z.to_nat m = Some x ->
  swap list_index list_store arr i m
  = Ok (<[Z.to_nat m := y]> (<[Z.to_nat i := x]> arr)).
Proof.
  intros Hi Hm Hy Hx. unfold swap.
  destruct (list_index_range arr m Hm) as (x' & -> & Hx').
  destruct (list_index_range arr i Hi) as (y' & -> & Hy').
  rewrite Hx in Hx'. rewrite Hy in Hy'. injection Hx' as <-. injection Hy' as <-.
  cbn [rbind]. rewrite list_store_range by exact Hi. cbn [rbind].
  apply list_store_range. rewrite length_insert. exact Hm.
Qed.

Lemma sort_step (values arr : list V) (p : Z) :
  0 <= p < Z.of_nat (length values) ->
  sorted_below values p arr ->
  exists arr',
    (let* min_idx := find_min list_index (Z.of_nat (length values)) arr p in
     swap list_index list_store arr p min_idx) = Ok arr'
    /\ sorted_below values (p + 1) arr'.
Proof.
  intros Hp (Hlen & Hperm & Hsorted). rewrite <- Hlen in *.
  destruct (find_min_spec arr p Hp) as (m & -> & Hm & Hmin).
  cbn [rbind].
  destruct (lookup_lt_is_Some_2 arr (Z.to_nat p) ltac:(lia)) as [y Hy].
  destruct (lookup_lt_is_Some_2 arr (Z.to_nat m) ltac:(lia)) as [x Hx].
  rewrite (swap_spec arr p m x y) by (assumption || lia).
  eexists; split; [reflexivity|]. split; [|split].
  - now rewrite !length_insert.
  - rewrite <- Hperm. now apply Permutation_insert_swap.
  - intros a b u v Ha Hab.
    rewrite !(swap_lookup arr _ _ _ x y Hy Hx). intros Hu Hv.
    destruct (decide (Z.of_nat a < p)) as [Hlow|Hhigh].
    + destruct (decide (a = Z.to_nat m)) as [?|_]; [lia|].
      destruct (decide (a = Z.to_nat p)) as [?|_]; [lia|].
      eapply (Hsorted a _ u v Hlow); [|exact Hu|exact Hv].
      destruct (decide (b = Z.to_nat m)); [lia|].
      destruct (decide (b = Z.to_nat p)); lia.
    + assert (a = Z.to_nat p) as -> by lia.
      assert (arr !! Z.to_nat m = Some u) as Hu'.
      { destruct (decide (Z.to_nat p = Z.to_nat m)) as [e|_];
          [now rewrite <- e|].
        destruct (decide (Z.to_nat p = Z.to_nat p)); [exact Hu|congruence]. }
      pose proof (lookup_lt_Some _ _ _ Hv) as Hbound.
      set (k := if decide (b = Z.to_nat m) then Z.to_nat p
                else if decide (b = Z.to_nat p) then Z.to_nat m else b) in *.
      apply (Hmin (Z.of_nat k) v u).
      * subst k. destruct (decide (b = Z.to_nat m)); [lia|].
        destruct (decide (b = Z.to_nat p)); lia.
      * now rewrite Nat2Z.id.
      * exact Hu'.
Qed.

(** [selection_sort] returns, and what it returns is the argument
    rearranged so that no element has a smaller one behind it. *)
Lemma selection_sort_spec (values : list V) :
  exists out,
    selection_sort values = Ok out
    /\ out ≡ₚ values
    /\ StronglySorted (fun x y => num_lt y x = false) out.
Proof.
  unfold selection_sort, sort_loop.
  destruct (for_each_range (sorted_below values)
    (fun arr i =>
       let* min_idx := find_min list_index (Z.of_nat (length values)) arr i in
       swap list_index list_store arr i min_idx)
    0 (Z.of_nat (length values)) values) as (out & Hout & Hlen & Hperm & Hsorted).
  - lia.
  - split; [reflexivity|]. split; [reflexivity|]. intros a b x y Ha. lia.
  - intros i arr Hi Harr. now apply sort_step.
  - exists out. split; [exact Hout|]. split; [exact Hperm|].
    apply StronglySorted_pairs. intros a b x y Hab Hx Hy.
    apply (Hsorted a b x y); [|exact Hab|exact Hx|exact Hy].
    pose proof (lookup_lt_Some _ _ _ Hx). lia.
Qed.

End Sorting.

(** *** The call in the store *)

Lemma for_each_rel {A S1 S2} (R : S1 -> S2 -> Prop) (xs : list A)
    (body1 : S1 -> A -> result S1) (body2 : S2 -> A -> result S2) :
  (forall s1 s2 x, R s1 s2 -> result_rel R (body1 s1 x) (body2 s2 x)) ->
  forall s1 s2, R s1 s2 ->
    result_rel R (for_each xs body1 s1) (for_each xs body2 s2).
Proof.
  intros Hbody. induction xs as [|x xs IH]; intros s1 s2 Hs; cbn [for_each].
  - now constructor.
  - destruct (Hbody s1 s2 x Hs) as [a b Hab|e]; cbn [rbind].
    + now apply IH.
    + constructor.
Qed.

Lemma for_each_ext {A S} (xs : list A) (body1 body2 : S -> A -> result S) :
  (forall s x, body1 s x = body2 s x) ->
  forall s, for_each xs body1 s = for_each xs body2 s.
Proof.
  intros Hbody. induction xs as [|x xs IH]; intros s; cbn [for_each];
    [reflexivity|].
  rewrite Hbody. destruct (body2 s x); cbn [rbind]; [apply IH|reflexivity].
Qed.

Section Simulation.
Context {V : Type} `{Number V} {S1 S2 : Type}.
Variable load1 : S1 -> Z -> result V.
Variable store1 : S1 -> Z -> V -> result S1.
Variable load2 : S2 -> Z -> result V.
Variable store2 : S2 -> Z -> V -> result S2.
Variable R : S1 -> S2 -> Prop.
Hypothesis load_rel : forall s1 s2 i, R s1 s2 -> load1 s1 i = load2 s2 i.
Hypothesis store_rel : forall s1 s2 i x,
  R s1 s2 -> result_rel R (store1 s1 i x) (store2 s2 i x).

Lemma find_min_rel (n : Z) (s1 : S1) (s2 : S2) (i : Z) :
  R s1 s2 -> find_min load1 n s1 i = find_min load2 n s2 i.
Proof.
  intros Hs. unfold find_min. apply for_each_ext. intros m j.
  now rewrite !(load_rel s1 s2) by exact Hs.
Qed.

Lemma swap_rel (s1 : S1) (s2 : S2) (i m : Z) :
  R s1 s2 -> result_rel R (swap load1 store1 s1 i m) (swap load2 store2 s2 i m).
Proof.
  intros Hs. unfold swap. rewrite !(load_rel s1 s2) by exact Hs.
  destruct (load2 s2 m) as [x|e]; cbn [rbind]; [|constructor].
  destruct (load2 s2 i) as [y|e]; cbn [rbind]; [|constructor].
  destruct (store_rel s1 s2 i x Hs) as [a b Hab|e]; cbn [rbind]; [|constructor].
  now apply store_rel.
Qed.

Lemma sort_loop_rel (n : Z) (s1 : S1) (s2 : S2) :
  R s1 s2 ->
  result_rel R (sort_loop load1 store1 n s1) (sort_loop load2 store2 n s2).
Proof.
  intros Hs. unfold sort_loop. apply for_each_rel; [|exact Hs].
  intros a b i Hab. rewrite (find_min_rel n a b i Hab).
  destruct (find_min load2 n b i) as [m|e]; cbn [rbind]; [|constructor].
  now apply swap_rel.
Qed.
End Simulation.

Section Store.
Context {V : Type} `{Number V}.

Lemma heap_load_last (h : heap) (l : list V) (i : Z) :
  heap_load (length h) (h ++ [l]) i = list_index l i.
Proof.
  unfold heap_load, heap in *. rewrite lookup_app_r by lia. now rewrite Nat.sub_diag.
Qed.

Lemma heap_store_last (h : heap) (l : list V) (i : Z) (x : V) :
  result_rel (fun h' l' => h' = h ++ [l'])
    (heap_store (length h) (h ++ [l]) i x) (list_store l i x).
Proof.
  unfold heap_store, heap in *. rewrite lookup_app_r by lia. rewrite Nat.sub_diag.
  cbn [lookup list_lookup]. destruct (list_store l i x) as [l'|e]; cbn [rbind];
    constructor.
  rewrite insert_app_r_alt by lia. now rewrite Nat.sub_diag.
Qed.

(** The call in the store does what the function on lists does, in a new
    object behind all the others. *)
Lemma selection_sort_store_eq (h : heap) (values : nat) (vs : list V) :
  h !! values = Some vs ->
  result_rel (fun hr out => hr = (h ++ [out], length h))
    (selection_sort_store h values) (selection_sort vs).
Proof.
  intros Hvs. unfold selection_sort_store, selection_sort. rewrite Hvs.
  pose proof (sort_loop_rel (heap_load (length h)) (heap_store (length h))
                list_index list_store (fun h' l' => h' = h ++ [l'])) as Hrel.
  destruct (Hrel ltac:(intros s1 s2 i ->; apply heap_load_last)
                 ltac:(intros s1 s2 i x ->; apply heap_store_last)
                 (Z.of_nat (length vs)) (h ++ [vs]) vs eq_refl)
    as [h2 out ->|e]; cbn [rbind]; now constructor.
Qed.
End Store.

(** C8: [selection_sort] returns a new list that holds the values of the
    argument in ascending order, and the list of the caller is as it was.
    Ascending means that no element is followed by a smaller one; [<] has to
    be irreflexive and transitive, as it is on floats. *)
Theorem selection_sort_sorted_copy {V : Type} `{Number V}
    (h : heap) (values : nat) (vs : list V) :
  (forall x : V, num_lt x x = false) ->
  (forall x y z : V, num_lt x y = true -> num_lt y z = true -> num_lt x z = true) ->
  h !! values = Some vs ->
  exists (h' : heap) (arr : nat) (out : list V),
    selection_sort_store h values = Ok (h', arr)
    /\ selection_sort vs = Ok out
    /\ h' !! arr = Some out
    /\ arr <> values
    /\ h' !! values = Some vs
    /\ (forall r, (r < length h)%nat -> h' !! r = h !! r)
    /\ out ≡ₚ vs
    /\ StronglySorted (fun x y => num_lt y x = false) out.
Proof.
  intros Hirr Htrans Hvs. unfold heap in *.
  destruct (selection_sort_spec Hirr Htrans vs) as (out & Hout & Hperm & Hsorted).
  pose proof (selection_sort_store_eq h values vs Hvs) as Hrel.
  rewrite Hout in Hrel. inversion Hrel as [hr out' Hhr Heq1 Heq2|]; subst.
  pose proof (lookup_lt_Some _ _ _ Hvs) as Hlt.
  exists (h ++ [out]), (length h), out. split_and!.
  - now symmetry.
  - exact Hout.
  - rewrite lookup_app_r by lia. now rewrite Nat.sub_diag.
  - lia.
  - now rewrite lookup_app_l.
  - intros r Hr. now rewrite lookup_app_l.
  - exact Hperm.
  - exact Hsorted.
Qed.

Lemma selection_sort_sorted_copy_witness :
  exists (h' : heap) (arr : nat) (out : list float),
    selection_sort_store [[3; 1; 2]%float] 0 = Ok (h', arr)
    /\ selection_sort [3; 1; 2]%float = Ok out
    /\ h' !! arr = Some out
    /\ arr <> 0%nat
    /\ h' !! 0%nat = Some [3; 1; 2]%float
    /\ (forall r, (r < 1)%nat -> h' !! r = [[3; 1; 2]%float] !! r)
    /\ out ≡ₚ [3; 1; 2]%float
    /\ StronglySorted (fun x y => num_lt y x = false) out.
Proof.
  apply (selection_sort_sorted_copy (V:=float) [[3; 1; 2]%float] 0
           [3; 1; 2]%float).
  - apply (num_lt_irrefl (NumberOrder:=FloatOrder.float_sqrt_order)).
  - apply (num_lt_trans (NumberOrder:=FloatOrder.float_sqrt_order)).
  - reflexivity.
Defined.

End SortFacts.

(** ** Dictionaries *)

Section DictFacts.
Context {K V : Type} (eqb : K -> K -> bool).

Lemma dict_find_none (d : list (K * V)) (k : K) (v : V) :
  dict_find eqb d k = None ->
  (forall k' c, (k', c) ∈ d -> eqb k' k = false)
  /\ dict_set eqb d k v = d ++ [(k, v)].
Proof.
  induction d as [|[k0 c0] d IH]; cbn [dict_find dict_set]; intros Hfind.
  - split; [|reflexivity]. intros k' c Hin. inversion Hin.
  - destruct (eqb k0 k) eqn:Hk0; [discriminate|].
    destruct (IH Hfind) as [Hnone Hset]. split.
    + intros k' c Hin. apply elem_of_cons in Hin as [Heq|Hin].
      * now injection Heq as -> ->.
      * now apply (Hnone k' c).
    + cbn [app]. now rewrite Hset.
Qed.

Lemma dict_find_some (d : list (K * V)) (k : K) (c v : V) :
  dict_find eqb d k = Some c ->
  exists i k0,
    d !! i = Some (k0, c) /\ eqb k0 k = true
    /\ dict_set eqb d k v = <[i := (k0, v)]> d.
Proof.
  induction d as [|[k0 c0] d IH]; cbn [dict_find dict_set]; intros Hfind;
    [discriminate|].
  destruct (eqb k0 k) eqn:Hk0.
  - injection Hfind as ->. now exists 0%nat, k0.
  - destruct (IH Hfind) as (i & k1 & Hi & Hk1 & Hset).
    exists (S i), k1. split; [exact Hi|]. split; [exact Hk1|].
    cbn. now rewrite Hset.
Qed.

Lemma dict_find_elem (d : list (K * V)) (k : K) :
  (exists k' c, (k', c) ∈ d /\ eqb k' k = true) -> is_Some (dict_find eqb d k).
Proof.
  intros (k' & c & Hin & Hk). destruct (dict_find eqb d k) eqn:Hfind; [eauto|].
  destruct (dict_find_none d k c Hfind) as [Hnone _].
  rewrite (Hnone k' c Hin) in Hk. discriminate.
Qed.
End DictFacts.

(** ** computeStatistics.py: [mode] *)

Module ModeFacts.
Import Statistics.

Section Mode.
Context {V : Type} `{NumberOrder V}.

Lemma num_eq_self_l (x y : V) : num_eq x y = true -> num_eq x x = true.
Proof. intros Hxy. apply (num_eq_trans x y x Hxy). now apply num_eq_sym. Qed.

Lemma num_eq_self_r (x y : V) : num_eq x y = true -> num_eq y y = true.
Proof. intros Hxy. apply (num_eq_trans y x y); [now apply num_eq_sym|exact Hxy]. Qed.

Lemma occurrences_app (v : V) (p q : list V) :
  occurrences v (p ++ q) = occurrences v p + occurrences v q.
Proof. induction p as [|x p IH]; cbn [app occurrences]; lia. Qed.

Lemma occurrences_nonneg (v : V) (p : list V) : 0 <= occurrences v p.
Proof. induction p as [|x p IH]; cbn [occurrences]; [lia|]. destruct (num_eq x v); lia. Qed.

Lemma occurrences_zero (v : V) (p : list V) :
  (forall x, x ∈ p -> num_eq x v = false) -> occurrences v p = 0.
Proof.
  induction p as [|x p IH]; intros Hp; cbn [occurrences]; [reflexivity|].
  rewrite (Hp x) by constructor. rewrite IH; [reflexivity|].
  intros y Hy. apply Hp. now constructor.
Qed.

Lemma occurrences_pos (v x : V) (p : list V) :
  x ∈ p -> num_eq x v = true -> 0 < occurrences v p.
Proof.
  induction p as [|y p IH]; intros Hin Hx; [inversion Hin|].
  cbn [occurrences]. pose proof (occurrences_nonneg v p).
  apply elem_of_cons in Hin as [<-|Hin].
  - rewrite Hx. lia.
  - specialize (IH Hin Hx). destruct (num_eq y v); lia.
Qed.

(** A value that is not equal to itself is equal to nothing. *)
Lemma occurrences_unequal (v : V) (p : list V) :
  num_eq v v = false -> occurrences v p = 0.
Proof.
  intros Hv. apply occurrences_zero. intros x _.
  destruct (num_eq x v) eqn:Hxv; [|reflexivity].
  rewrite (num_eq_self_r x v Hxv) in Hv. discriminate.
Qed.

Lemma num_eq_right (x v w : V) : num_eq v w = true -> num_eq x v = num_eq x w.
Proof.
  intros Hvw. destruct (num_eq x v) eqn:Hxv, (num_eq x w) eqn:Hxw; try reflexivity.
  - rewrite (num_eq_trans x v w Hxv Hvw) in Hxw. discriminate.
  - rewrite (num_eq_trans x w v Hxw (num_eq_sym v w Hvw)) in Hxv. discriminate.
Qed.

Lemma occurrences_eq (v w : V) (p : list V) :
  num_eq v w = true -> occurrences v p = occurrences w p.
Proof.
  intros Hvw. induction p as [|x p IH]; cbn [occurrences]; [reflexivity|].
  now rewrite IH, (num_eq_right x v w Hvw).
Qed.

Lemma entry_count_app (k v : V) (seen : list V) :
  num_eq v k = false -> entry_count k (seen ++ [v]) = entry_count k seen.
Proof.
  intros Hvk. unfold entry_count. destruct (num_eq k k); [|reflexivity].
  rewrite occurrences_app. cbn [occurrences]. rewrite Hvk. lia.
Qed.

(** One more value keeps the table right. *)
Lemma freq_step (seen : list V) (freq : list (V * Z)) (v : V) :
  freq_ok seen freq ->
  freq_ok (seen ++ [v]) (dict_set num_eq freq v (dict_get num_eq freq v 0 + 1)).
Proof.
  intros (Hdistinct & Hcount & Hkeys). unfold dict_get.
  destruct (dict_find num_eq freq v) as [c0|] eqn:Hfind.
  - destruct (dict_find_some num_eq freq v c0 (c0 + 1) Hfind)
      as (i0 & k0 & Hi0 & Hk0 & ->).
    pose proof (lookup_lt_Some _ _ _ Hi0) as Hlt.
    pose proof (num_eq_self_l k0 v Hk0) as Hk0self.
    destruct (Hcount k0 c0 ltac:(eapply list_elem_of_lookup_2; exact Hi0))
      as [Hk0seen Hc0].
    unfold entry_count in Hc0. rewrite Hk0self in Hc0.
    split; [|split].
    + intros i j k1 c1 k2 c2 Hi Hj Heq.
      assert (forall a k c, <[i0:=(k0, c0 + 1)]> freq !! a = Some (k, c) ->
                exists c', freq !! a = Some (k, c')) as Hold.
      { intros a k c Ha. destruct (decide (a = i0)) as [->|Hne].
        - rewrite list_lookup_insert_eq in Ha by exact Hlt.
          injection Ha as <- <-. eauto.
        - rewrite list_lookup_insert_ne in Ha by congruence. eauto. }
      destruct (Hold i k1 c1 Hi) as [c1' Hi'].
      destruct (Hold j k2 c2 Hj) as [c2' Hj'].
      exact (Hdistinct i j k1 c1' k2 c2' Hi' Hj' Heq).
    + intros k c Hin. apply list_elem_of_lookup in Hin as [a Ha].
      destruct (decide (a = i0)) as [->|Hne].
      * rewrite list_lookup_insert_eq in Ha by exact Hlt. injection Ha as <- <-.
        split; [apply elem_of_app; now left|].
        unfold entry_count. rewrite Hk0self, occurrences_app. cbn [occurrences].
        rewrite (num_eq_sym k0 v Hk0). lia.
      * rewrite list_lookup_insert_ne in Ha by congruence.
        destruct (Hcount k c ltac:(eapply list_elem_of_lookup_2; exact Ha))
          as [Hkseen Hc].
        split; [apply elem_of_app; now left|].
        rewrite entry_count_app; [exact Hc|].
        destruct (num_eq v k) eqn:Hvk; [|reflexivity].
        exfalso. apply Hne.
        apply (Hdistinct a i0 k c k0 c0 Ha Hi0).
        apply num_eq_sym. now apply (num_eq_trans k0 v k).
    + intros x Hx Hxself. apply elem_of_app in Hx as [Hx|Hx].
      * destruct (Hkeys x Hx Hxself) as (k & c & Hin & Hk).
        apply list_elem_of_lookup in Hin as [a Ha].
        destruct (decide (a = i0)) as [->|Hne].
        -- rewrite Hi0 in Ha. injection Ha as <- <-.
           exists k0, (c0 + 1). split; [|exact Hk].
           eapply list_elem_of_lookup_2. now apply list_lookup_insert_eq.
        -- exists k, c. split; [|exact Hk].
           apply list_elem_of_lookup. exists a.
           rewrite list_lookup_insert_ne by congruence. exact Ha.
      * apply list_elem_of_singleton in Hx as ->.
        exists k0, (c0 + 1). split; [|exact Hk0].
        eapply list_elem_of_lookup_2. now apply list_lookup_insert_eq.
  - destruct (dict_find_none num_eq freq v (0 + 1) Hfind) as [Hnone ->].
    assert (forall x, x ∈ seen -> num_eq x v = false) as Hfresh.
    { intros x Hx. destruct (num_eq x v) eqn:Hxv; [|reflexivity].
      destruct (Hkeys x Hx (num_eq_self_l x v Hxv)) as (k & c & Hin & Hk).
      rewrite <- (Hnone k c Hin). symmetry. now apply (num_eq_trans k x v). }
    split; [|split].
    + intros i j k1 c1 k2 c2 Hi Hj Heq.
      apply lookup_app_Some in Hi as [Hi|[Hilen Hi]];
        apply lookup_app_Some in Hj as [Hj|[Hjlen Hj]].
      * exact (Hdistinct i j k1 c1 k2 c2 Hi Hj Heq).
      * apply list_lookup_singleton_Some in Hj as [_ Hj]. injection Hj as <- <-.
        rewrite (Hnone k1 c1) in Heq; [discriminate|].
        eapply list_elem_of_lookup_2; exact Hi.
      * apply list_lookup_singleton_Some in Hi as [_ Hi]. injection Hi as <- <-.
        apply num_eq_sym in Heq. rewrite (Hnone k2 c2) in Heq; [discriminate|].
        eapply list_elem_of_lookup_2; exact Hj.
      * apply list_lookup_singleton_Some in Hi as [Hi _].
        apply list_lookup_singleton_Some in Hj as [Hj _]. lia.
    + intros k c Hin. apply elem_of_app in Hin as [Hin|Hin].
      * destruct (Hcount k c Hin) as [Hkseen Hc].
        split; [apply elem_of_app; now left|].
        rewrite entry_count_app; [exact Hc|].
        destruct (num_eq v k) eqn:Hvk; [|reflexivity].
        apply num_eq_sym in Hvk. rewrite (Hnone k c Hin) in Hvk. discriminate.
      * apply list_elem_of_singleton in Hin. injection Hin as -> ->.
        split; [apply elem_of_app; right; now constructor|].
        unfold entry_count. destruct (num_eq v v) eqn:Hvself; [|reflexivity].
        rewrite occurrences_app. cbn [occurrences].
        rewrite (occurrences_zero v seen Hfresh), Hvself. lia.
    + intros x Hx Hxself. apply elem_of_app in Hx as [Hx|Hx].
      * destruct (Hkeys x Hx Hxself) as (k & c & Hin & Hk).
        exists k, c. split; [apply elem_of_app; now left|exact Hk].
      * apply list_elem_of_singleton in Hx as ->.
        exists v, (0 + 1). split; [apply elem_of_app; right; now constructor|].
        exact Hxself.
Qed.

Lemma frequencies_from (values seen : list V) (freq : list (V * Z)) :
  freq_ok seen freq ->
  freq_ok (seen ++ values)
    (fold_left
       (fun freq v => dict_set num_eq freq v (dict_get num_eq freq v 0 + 1))
       values freq).
Proof.
  revert seen freq. induction values as [|v values IH]; intros seen freq Hok.
  - now rewrite app_nil_r.
  - cbn [fold_left]. replace (seen ++ v :: values) with ((seen ++ [v]) ++ values)
      by now rewrite <- app_assoc.
    apply IH. now apply freq_step.
Qed.

Lemma frequencies_ok (values : list V) : freq_ok values (frequencies values).
Proof.
  apply (frequencies_from values [] []). split; [|split].
  - intros i j k1 c1 k2 c2 Hi. discriminate.
  - intros k c Hin. inversion Hin.
  - intros v Hv. inversion Hv.
Qed.

(** One more entry keeps the state of the scan right. *)
Lemma best_step_ok (items : list (V * Z)) (st : Z * option V) (v : V) (c : Z) :
  0 < c -> best_ok items st -> best_ok (items ++ [(v, c)]) (best_step st (v, c)).
Proof.
  destruct st as [bc bv]. intros Hc [Hmax Hbest]. cbn [fst snd] in *.
  unfold best_step.
  destruct (Z.ltb_spec bc c) as [Hlt|Hge].
  - split; cbn [fst snd].
    + intros w c' Hin. apply elem_of_app in Hin as [Hin|Hin].
      * specialize (Hmax w c' Hin). lia.
      * apply list_elem_of_singleton in Hin. injection Hin as -> ->. lia.
    + split; [apply elem_of_app; right; now constructor|].
      intros w Hin. apply elem_of_app in Hin as [Hin|Hin].
      * specialize (Hmax w c Hin). lia.
      * apply list_elem_of_singleton in Hin. injection Hin as ->.
        apply num_lt_irrefl.
  - destruct (Z.eqb_spec c bc) as [->|Hne]; cbn [andb].
    + destruct bv as [b|]; [|destruct Hbest; lia].
      destruct Hbest as [Hb Hleast].
      destruct (num_lt v b) eqn:Hvb; split; cbn [fst snd].
      * intros w c' Hin. apply elem_of_app in Hin as [Hin|Hin].
        -- now apply (Hmax w).
        -- apply list_elem_of_singleton in Hin. injection Hin as -> ->. lia.
      * split; [apply elem_of_app; right; now constructor|].
        intros w Hin. apply elem_of_app in Hin as [Hin|Hin].
        -- destruct (num_lt w v) eqn:Hwv; [|reflexivity].
           rewrite <- (Hleast w Hin). symmetry. now apply (num_lt_trans w v b).
        -- apply list_elem_of_singleton in Hin. injection Hin as ->.
           apply num_lt_irrefl.
      * intros w c' Hin. apply elem_of_app in Hin as [Hin|Hin].
        -- now apply (Hmax w).
        -- apply list_elem_of_singleton in Hin. injection Hin as -> ->. lia.
      * split; [apply elem_of_app; now left|].
        intros w Hin. apply elem_of_app in Hin as [Hin|Hin].
        -- now apply Hleast.
        -- apply list_elem_of_singleton in Hin. now injection Hin as ->.
    + split; cbn [fst snd].
      * intros w c' Hin. apply elem_of_app in Hin as [Hin|Hin].
        -- now apply (Hmax w).
        -- apply list_elem_of_singleton in Hin. injection Hin as -> ->. lia.
      * destruct bv as [b|]; [|destruct Hbest; lia].
        destruct Hbest as [Hb Hleast].
        split; [apply elem_of_app; now left|].
        intros w Hin. apply elem_of_app in Hin as [Hin|Hin].
        -- now apply Hleast.
        -- apply list_elem_of_singleton in Hin. injection Hin as -> Heq.
           congruence.
Qed.

Lemma scan_from (items scanned : list (V * Z)) (st : Z * option V) :
  (forall v c, (v, c) ∈ items -> 0 < c) ->
  best_ok scanned st ->
  best_ok (scanned ++ items) (fold_left best_step items st).
Proof.
  revert scanned st. induction items as [|[v c] items IH];
    intros scanned st Hpos Hst.
  - now rewrite app_nil_r.
  - cbn [fold_left].
    replace (scanned ++ (v, c) :: items) with ((scanned ++ [(v, c)]) ++ items)
      by now rewrite <- app_assoc.
    apply IH.
    + intros w c' Hin. apply (Hpos w c'). now constructor.
    + apply best_step_ok; [|exact Hst]. apply (Hpos v c). constructor.
Qed.

Lemma scan_ok (items : list (V * Z)) :
  (forall v c, (v, c) ∈ items -> 0 < c) ->
  best_ok items (fold_left best_step items (0, None)).
Proof.
  intros Hpos. apply (scan_from items [] (0, None) Hpos).
  split; cbn [fst snd]; [|now split]. intros v c Hin. inversion Hin.
Qed.

(** Two scans of the same entries, in any two orders, reach the same
    highest count. *)
Lemma best_count_unique (items items' : list (V * Z)) (st st' : Z * option V) :
  items ≡ₚ items' -> best_ok items st -> best_ok items' st' -> fst st = fst st'.
Proof.
  destruct st as [bc bv], st' as [bc' bv'].
  intros Hperm [Hmax Hbest] [Hmax' Hbest']. cbn [fst snd] in *.
  destruct bv as [m|], bv' as [m'|].
  - destruct Hbest as [Hm _], Hbest' as [Hm' _].
    pose proof (Hmax' m bc ltac:(now rewrite <- Hperm)).
    pose proof (Hmax m' bc' ltac:(now rewrite Hperm)). lia.
  - destruct Hbest' as [-> _]. destruct Hbest as [Hm _].
    rewrite Hperm in Hm. inversion Hm.
  - destruct Hbest as [-> _]. destruct Hbest' as [Hm' _].
    rewrite <- Hperm in Hm'. inversion Hm'.
  - destruct Hbest as [_ ->], Hbest' as [_ ->]. reflexivity.
Qed.

(** They also keep the same key, when the keys with the highest count are
    equal to themselves. *)
Lemma best_value_unique (items items' : list (V * Z)) (st st' : Z * option V) :
  items ≡ₚ items' ->
  (forall k1 c1 k2 c2, (k1, c1) ∈ items -> (k2, c2) ∈ items ->
     num_eq k1 k2 = true -> k1 = k2) ->
  (forall k, (k, fst st) ∈ items -> num_eq k k = true) ->
  best_ok items st -> best_ok items' st' -> snd st = snd st'.
Proof.
  intros Hperm Hdistinct Hself Hst Hst'.
  pose proof (best_count_unique items items' st st' Hperm Hst Hst') as Hcount.
  destruct st as [bc bv], st' as [bc' bv']. cbn [fst snd] in *. subst bc'.
  destruct Hst as [Hmax Hbest], Hst' as [Hmax' Hbest']. cbn [fst snd] in *.
  destruct bv as [m|], bv' as [m'|].
  - destruct Hbest as [Hm Hleast], Hbest' as [Hm' Hleast'].
    rewrite <- Hperm in Hm'. f_equal.
    apply (Hdistinct m bc m' bc Hm Hm').
    apply num_lt_total; [now apply Hself|now apply Hself| |].
    + apply Hleast'. now rewrite <- Hperm.
    + now apply Hleast.
  - destruct Hbest' as [-> _]. destruct Hbest as [Hm _].
    rewrite Hperm in Hm. inversion Hm.
  - destruct Hbest as [-> _]. destruct Hbest' as [Hm' _].
    rewrite <- Hperm in Hm'. inversion Hm'.
  - reflexivity.
Qed.

Lemma freq_positive (values : list V) (k : V) (c : Z) :
  (k, c) ∈ frequencies values -> 0 < c.
Proof.
  intros Hin. destruct (frequencies_ok values) as (_ & Hcount & _).
  destruct (Hcount k c Hin) as [Hk ->]. unfold entry_count.
  destruct (num_eq k k) eqn:Hself; [|lia].
  now apply (occurrences_pos k k values Hk).
Qed.

(** A count above 1 is the number of occurrences of a key that is equal to
    itself. *)
Lemma freq_repeated (values : list V) (k : V) (c : Z) :
  (k, c) ∈ frequencies values -> 1 < c ->
  k ∈ values /\ num_eq k k = true /\ c = occurrences k values.
Proof.
  intros Hin Hc. destruct (frequencies_ok values) as (_ & Hcount & _).
  destruct (Hcount k c Hin) as [Hk Hcnt]. unfold entry_count in Hcnt.
  destruct (num_eq k k); [now split|lia].
Qed.

Lemma freq_distinct (values : list V) (k1 : V) (c1 : Z) (k2 : V) (c2 : Z) :
  (k1, c1) ∈ frequencies values -> (k2, c2) ∈ frequencies values ->
  num_eq k1 k2 = true -> k1 = k2.
Proof.
  intros H1 H2 Heq. destruct (frequencies_ok values) as (Hdistinct & _ & _).
  apply list_elem_of_lookup in H1 as [i Hi].
  apply list_elem_of_lookup in H2 as [j Hj].
  pose proof (Hdistinct i j k1 c1 k2 c2 Hi Hj Heq) as ->.
  rewrite Hi in Hj. now injection Hj.
Qed.

(** The result of [mode] does not depend on the order of the entries. *)
Lemma mode_any_order (values : list V) (items : list (V * Z)) :
  items ≡ₚ dict_items (frequencies values) -> mode_of_items items = mode values.
Proof.
  intros Hperm. unfold mode, mode_of_items, dict_items in *.
  assert (forall v c, (v, c) ∈ items -> 0 < c) as Hpos.
  { intros v c Hin. rewrite Hperm in Hin. now apply (freq_positive values v c). }
  pose proof (scan_ok (frequencies values) (freq_positive values)) as Hst.
  pose proof (scan_ok items Hpos) as Hst'.
  pose proof (best_count_unique _ _ _ _ (symmetry Hperm) Hst Hst') as Hcount.
  destruct (fold_left best_step (frequencies values) (0, None)) as [bc bv] eqn:E.
  destruct (fold_left best_step items (0, None)) as [bc' bv'] eqn:E'.
  cbn [fst] in Hcount. subst bc'.
  destruct (Z.leb_spec bc 1) as [_|Hbig]; [reflexivity|]. symmetry.
  apply (best_value_unique (frequencies values) items (bc, bv) (bc, bv'));
    try assumption.
  - now symmetry.
  - apply freq_distinct.
  - intros k Hk. cbn [fst] in Hk. now apply (freq_repeated values k bc Hk).
Qed.

(** No value twice: no mode. *)
Lemma mode_none (values : list V) :
  (forall v, v ∈ values -> occurrences v values <= 1) -> mode values = None.
Proof.
  intros Hsingle. unfold mode, mode_of_items, dict_items.
  pose proof (scan_ok (frequencies values) (freq_positive values)) as Hscan.
  destruct (fold_left best_step (frequencies values) (0, None)) as [bc bv].
  destruct Hscan as [_ Hbest]. cbn [fst snd] in Hbest.
  destruct (Z.leb_spec bc 1) as [_|Hbig]; [reflexivity|].
  destruct bv as [m|]; [|reflexivity]. destruct Hbest as [Hm _].
  destruct (freq_repeated values m bc Hm Hbig) as (Hmin & _ & ->).
  specialize (Hsingle m Hmin). lia.
Qed.

(** Some value twice: the mode is a value with the highest number of
    occurrences, and no value with as many is below it. *)
Lemma mode_some (values : list V) :
  (exists v, v ∈ values /\ 1 < occurrences v values) ->
  exists m,
    mode values = Some m
    /\ m ∈ values
    /\ (forall v, v ∈ values -> occurrences v values <= occurrences m values)
    /\ (forall v, v ∈ values -> occurrences v values = occurrences m values ->
          num_lt v m = false).
Proof.
  intros (v0 & Hv0 & Htwice). unfold mode, mode_of_items, dict_items.
  pose proof (scan_ok (frequencies values) (freq_positive values)) as Hscan.
  destruct (frequencies_ok values) as (_ & Hcount & Hkeys).
  destruct (fold_left best_step (frequencies values) (0, None)) as [bc bv].
  destruct Hscan as [Hmax Hbest]. cbn [fst snd] in *.
  assert (forall v, 0 < occurrences v values -> num_eq v v = true) as Hself.
  { intros v Hv. destruct (num_eq v v) eqn:E; [reflexivity|].
    rewrite (occurrences_unequal v values E) in Hv. lia. }
  assert (forall v, v ∈ values -> num_eq v v = true -> exists k,
            (k, occurrences v values) ∈ frequencies values
            /\ num_eq k v = true) as Hkey.
  { intros v Hv Hvself. destruct (Hkeys v Hv Hvself) as (k & c & Hin & Hk).
    exists k. split; [|exact Hk].
    destruct (Hcount k c Hin) as [_ ->]. unfold entry_count in Hin.
    rewrite (num_eq_self_l k v Hk) in Hin.
    now rewrite (occurrences_eq k v values Hk) in Hin. }
  assert (1 < bc) as Hbig.
  { destruct (Hkey v0 Hv0 (Hself v0 ltac:(lia))) as (k & Hin & _).
    specialize (Hmax _ _ Hin). lia. }
  destruct (Z.leb_spec bc 1) as [?|_]; [lia|].
  destruct bv as [m|]; [|destruct Hbest; lia].
  destruct Hbest as [Hm Hleast].
  destruct (freq_repeated values m bc Hm Hbig) as (Hmin & Hmself & Hbc).
  exists m. split; [reflexivity|]. split; [exact Hmin|]. split.
  - intros v Hv. destruct (num_eq v v) eqn:Hvself.
    + destruct (Hkey v Hv Hvself) as (k & Hin & _).
      specialize (Hmax _ _ Hin). lia.
    + rewrite (occurrences_unequal v values Hvself). lia.
  - intros v Hv Htie.
    destruct (Hkey v Hv (Hself v ltac:(lia))) as (k & Hin & Hk).
    rewrite Htie, <- Hbc in Hin.
    rewrite <- (num_lt_eq_l k v m Hk). now apply Hleast.
Qed.

End Mode.

Lemma Z_number_order : NumberOrder Z.
Proof.
  split; cbn [num_eq num_lt Z_number]; intros.
  - now rewrite Z.eqb_sym.
  - rewrite Z.eqb_eq in *. congruence.
  - apply Z.ltb_irrefl.
  - rewrite Z.ltb_lt in *. lia.
  - rewrite Z.ltb_ge in *. rewrite Z.eqb_eq. lia.
  - rewrite Z.eqb_eq in *. now subst.
  - rewrite Z.eqb_eq in *. now subst.
Qed.

(** C4: when no value occurs more than once, [mode] returns [None]; when
    one does, [mode] returns a value with the highest number of occurrences,
    and of several such values the smallest, in whatever order the entries
    of the frequency table are scanned.  On floats,
    [mode([1, 2, 2, 3, 3])] is [2] and [mode([1, 2, 3])] is [None]. *)
Theorem mode_spec {V : Type} `{NumberOrder V} (values : list V) :
  ((forall v, v ∈ values -> occurrences v values <= 1) -> mode values = None)
  /\ ((exists v, v ∈ values /\ 1 < occurrences v values) ->
       exists m,
         mode values = Some m
         /\ m ∈ values
         /\ (forall v, v ∈ values -> occurrences v values <= occurrences m values)
         /\ (forall v, v ∈ values ->
               occurrences v values = occurrences m values -> num_lt v m = false))
  /\ (forall items, items ≡ₚ dict_items (frequencies values) ->
        mode_of_items items = mode values)
  /\ mode [1; 2; 2; 3; 3]%float = Some 2%float
  /\ mode [1; 2; 3]%float = None.
Proof.
  split; [apply mode_none|]. split; [apply mode_some|].
  split; [apply mode_any_order|]. split; reflexivity.
Qed.

Lemma mode_spec_witness :
  mode [1; 2; 2; 3; 3]%float = Some 2%float
  /\ (forall items,
        items ≡ₚ dict_items (frequencies [1; 2; 2; 3; 3]%float) ->
        mode_of_items items = Some 2%float).
Proof.
  destruct (mode_spec (H0:=FloatOrder.float_sqrt_order) [1; 2; 2; 3; 3]%float)
    as (_ & _ & Horder & _).
  split; [reflexivity|]. intros items Hitems.
  rewrite (Horder items Hitems). reflexivity.
Defined.

(** C10: on the empty list [mode] returns [None] without raising, while
    [mean] divides by the count zero; [median], [variance_population] and
    [stddev_population] raise as well, so [mode] is the only statistic that
    may be called on a list not known to be non-empty. *)
Theorem mode_alone_accepts_empty {V : Type} `{Number V} :
  mode (V:=V) [] = None
  /\ mean (V:=V) [] = Raise ZeroDivisionError
  /\ median (V:=V) [] = Raise IndexError
  /\ variance_population (V:=V) [] = Raise ZeroDivisionError
  /\ stddev_population (V:=V) [] = Raise ZeroDivisionError.
Proof. repeat split. Qed.

End ModeFacts.

(** *** Dictionaries whose key equality is equality *)

Section DictKeys.
Context {K V : Type} (eqb : K -> K -> bool).
Hypothesis eqb_eq : forall a b, eqb a b = true <-> a = b.

Lemma eqb_false (a b : K) : eqb a b = false <-> a <> b.
Proof.
  destruct (eqb a b) eqn:E.
  - apply eqb_eq in E. split; [discriminate|contradiction].
  - split; [|reflexivity]. intros _ Hab. apply eqb_eq in Hab. congruence.
Qed.

Lemma dict_find_set (d : list (K * V)) (k k' : K) (v : V) :
  dict_find eqb (dict_set eqb d k v) k'
  = if eqb k k' then Some v else dict_find eqb d k'.
Proof.
  induction d as [|[k0 v0] d IH]; cbn [dict_set dict_find]; [reflexivity|].
  destruct (eqb k0 k) eqn:Hk0; cbn [dict_find].
  - apply eqb_eq in Hk0 as ->. now destruct (eqb k k').
  - rewrite IH. destruct (eqb k0 k') eqn:Hk0'; [|reflexivity].
    apply eqb_eq in Hk0' as ->. apply eqb_false in Hk0.
    destruct (eqb k k') eqn:Hkk'; [|reflexivity].
    apply eqb_eq in Hkk'. congruence.
Qed.

Lemma dict_keys_set (d : list (K * V)) (k : K) (v : V) :
  dict_keys (dict_set eqb d k v)
  = if dict_mem eqb d k then dict_keys d else dict_keys d ++ [k].
Proof.
  unfold dict_mem, dict_keys.
  induction d as [|[k0 v0] d IH]; cbn [dict_set dict_find map]; [reflexivity|].
  destruct (eqb k0 k) eqn:Hk0; cbn [map fst]; [reflexivity|].
  rewrite IH. now destruct (dict_find eqb d k).
Qed.

Lemma dict_keys_find (d : list (K * V)) (k : K) :
  k ∈ dict_keys d <-> is_Some (dict_find eqb d k).
Proof.
  unfold dict_keys. induction d as [|[k0 v0] d IH]; cbn [map fst dict_find].
  - split; [intros Hin; inversion Hin|intros [x Hx]; discriminate].
  - rewrite elem_of_cons, IH. destruct (eqb k0 k) eqn:Hk0.
    + apply eqb_eq in Hk0 as ->. split; [eauto|now left].
    + apply eqb_false in Hk0. split; [intros [?|?]; [congruence|assumption]|].
      now right.
Qed.
End DictKeys.

Lemma map_result_ok {A B} (f : A -> result B) (g : A -> B) (xs : list A) :
  (forall x, x ∈ xs -> f x = Ok (g x)) -> map_result f xs = Ok (map g xs).
Proof.
  induction xs as [|x xs IH]; intros Hf; cbn [map_result map]; [reflexivity|].
  rewrite (Hf x) by constructor. cbn [rbind].
  rewrite IH; [reflexivity|]. intros y Hy. apply Hf. now constructor.
Qed.

(** *** The stable sort *)

Section StableSortFacts.
Context {K A : Type} (lt : K -> K -> bool).
Hypothesis lt_asym : forall a b, lt a b = true -> lt b a = false.
Hypothesis le_trans : forall a b c,
  lt b a = false -> lt c b = false -> lt c a = false.

Lemma insert_keyed_perm (x : K * A) (l : list (K * A)) :
  insert_keyed lt x l ≡ₚ x :: l.
Proof.
  induction l as [|y l IH]; cbn [insert_keyed]; [reflexivity|].
  destruct (lt (fst y) (fst x)); [|reflexivity].
  rewrite IH. apply Permutation_swap.
Qed.

Lemma stable_sort_perm (l : list (K * A)) : stable_sort lt l ≡ₚ l.
Proof.
  induction l as [|x l IH]; cbn [stable_sort fold_right]; [reflexivity|].
  fold (stable_sort lt l). now rewrite insert_keyed_perm, IH.
Qed.

Lemma insert_keyed_sorted (x : K * A) (l : list (K * A)) :
  StronglySorted (fun a b => lt (fst b) (fst a) = false) l ->
  StronglySorted (fun a b => lt (fst b) (fst a) = false) (insert_keyed lt x l).
Proof.
  induction l as [|y l IH]; intros Hl; cbn [insert_keyed].
  - repeat constructor.
  - apply StronglySorted_inv in Hl as [Hl Hy].
    destruct (lt (fst y) (fst x)) eqn:Hyx.
    + constructor; [now apply IH|].
      rewrite insert_keyed_perm. constructor; [now apply lt_asym|exact Hy].
    + constructor; [now constructor|].
      constructor; [exact Hyx|].
      eapply Forall_impl; [exact Hy|]. intros z Hz. cbv beta in *.
      now apply (le_trans (fst x) (fst y) (fst z)).
Qed.

Lemma stable_sort_sorted (l : list (K * A)) :
  StronglySorted (fun a b => lt (fst b) (fst a) = false) (stable_sort lt l).
Proof.
  induction l as [|x l IH]; cbn [stable_sort fold_right]; [constructor|].
  now apply insert_keyed_sorted.
Qed.
End StableSortFacts.

(** ** wordCount.py: [count_words] and [sort_words] *)

Module WordFacts.
Import WordCount.

Lemma count_of_app (w : string) (p q : list string) :
  count_of w (p ++ q) = count_of w p + count_of w q.
Proof. induction p as [|x p IH]; cbn [app count_of]; lia. Qed.

Lemma count_of_notin (w : string) (p : list string) : w ∉ p -> count_of w p = 0.
Proof.
  induction p as [|x p IH]; intros Hw; cbn [count_of]; [reflexivity|].
  apply not_elem_of_cons in Hw as [Hne Hw]. rewrite (IH Hw).
  destruct (String.eqb_spec x w); [congruence|reflexivity].
Qed.

Lemma first_index_of_nonneg (w : string) (p : list string) :
  0 <= first_index_of w p.
Proof.
  induction p as [|x p IH]; cbn [first_index_of]; [lia|].
  destruct (String.eqb x w); lia.
Qed.

Lemma first_index_of_app (w : string) (p q : list string) :
  first_index_of w (p ++ q)
  = if decide (w ∈ p) then first_index_of w p
    else Z.of_nat (length p) + first_index_of w q.
Proof.
  induction p as [|x p IH]; cbn [app first_index_of length].
  - destruct (decide (w ∈ [])) as [Hin|_]; [inversion Hin|lia].
  - destruct (String.eqb_spec x w) as [->|Hne].
    + destruct (decide (w ∈ w :: p)) as [_|Hout]; [reflexivity|].
      exfalso. apply Hout. constructor.
    + rewrite IH. destruct (decide (w ∈ p)) as [Hin|Hout].
      * destruct (decide (w ∈ x :: p)) as [_|Hout]; [reflexivity|].
        exfalso. apply Hout. now constructor.
      * destruct (decide (w ∈ x :: p)) as [Hin|_]; [|lia].
        apply elem_of_cons in Hin as [?|?]; [congruence|contradiction].
Qed.

Lemma first_index_of_inj (a b : string) (p : list string) :
  a ∈ p -> b ∈ p -> first_index_of a p = first_index_of b p -> a = b.
Proof.
  induction p as [|x p IH]; intros Ha Hb; [inversion Ha|].
  cbn [first_index_of].
  pose proof (first_index_of_nonneg a p). pose proof (first_index_of_nonneg b p).
  destruct (String.eqb_spec x a) as [Hxa|Hxa], (String.eqb_spec x b) as [Hxb|Hxb];
    try lia; [congruence|].
  intros Heq. apply IH; [| |lia].
  - apply elem_of_cons in Ha as [?|?]; [congruence|assumption].
  - apply elem_of_cons in Hb as [?|?]; [congruence|assumption].
Qed.

(** One more word keeps the two tables right. *)
Lemma count_step_ok (seen : list string) (st : word_dict * word_dict)
    (w : string) :
  table_ok seen st ->
  exists st',
    count_step st (Z.of_nat (length seen), w) = Ok st'
    /\ table_ok (seen ++ [w]) st'.
Proof.
  destruct st as [counts first_index]. intros (Hnodup & Hcounts & Hfirst).
  cbn [fst snd] in *. unfold count_step, dict_mem, dict_lookup.
  pose proof (Hcounts w) as Hw.
  destruct (decide (w ∈ seen)) as [Hin|Hout]; rewrite Hw; cbn [negb rbind].
  - eexists; split; [reflexivity|]. split; [|split]; cbn [fst snd].
    + rewrite (dict_keys_set String.eqb). unfold dict_mem. now rewrite Hw.
    + intros x. rewrite (dict_find_set String.eqb String.eqb_eq), Hcounts.
      rewrite count_of_app. cbn [count_of].
      destruct (String.eqb_spec w x) as [<-|Hne].
      * destruct (decide (w ∈ seen ++ [w])) as [_|Hno]; [f_equal; lia|].
        exfalso. apply Hno. apply elem_of_app. now left.
      * destruct (decide (x ∈ seen)) as [Hx|Hx];
          destruct (decide (x ∈ seen ++ [w])) as [Hx'|Hx'].
        -- f_equal. lia.
        -- exfalso. apply Hx'. apply elem_of_app. now left.
        -- apply elem_of_app in Hx' as [?|Hx']; [contradiction|].
           apply list_elem_of_singleton in Hx'. congruence.
        -- reflexivity.
    + intros x. rewrite Hfirst, first_index_of_app.
      destruct (decide (x ∈ seen)) as [Hx|Hx];
        destruct (decide (x ∈ seen ++ [w])) as [Hx'|Hx']; try reflexivity.
      * exfalso. apply Hx'. apply elem_of_app. now left.
      * apply elem_of_app in Hx' as [?|Hx']; [contradiction|].
        apply list_elem_of_singleton in Hx' as ->. contradiction.
  - eexists; split; [reflexivity|]. split; [|split]; cbn [fst snd].
    + rewrite (dict_keys_set String.eqb). unfold dict_mem. rewrite Hw.
      apply NoDup_app. split; [exact Hnodup|]. split; [|apply NoDup_singleton].
      intros x Hx Hxw. apply list_elem_of_singleton in Hxw as ->.
      apply (dict_keys_find String.eqb String.eqb_eq) in Hx as [c Hc].
      rewrite Hw in Hc. discriminate.
    + intros x. rewrite (dict_find_set String.eqb String.eqb_eq), Hcounts.
      rewrite count_of_app. cbn [count_of].
      destruct (String.eqb_spec w x) as [<-|Hne].
      * rewrite (count_of_notin w seen Hout).
        destruct (decide (w ∈ seen ++ [w])) as [_|Hno]; [reflexivity|].
        exfalso. apply Hno. apply elem_of_app. right. constructor.
      * destruct (decide (x ∈ seen)) as [Hx|Hx];
          destruct (decide (x ∈ seen ++ [w])) as [Hx'|Hx'].
        -- f_equal. lia.
        -- exfalso. apply Hx'. apply elem_of_app. now left.
        -- apply elem_of_app in Hx' as [?|Hx']; [contradiction|].
           apply list_elem_of_singleton in Hx'. congruence.
        -- reflexivity.
    + intros x. rewrite (dict_find_set String.eqb String.eqb_eq), Hfirst.
      rewrite first_index_of_app. cbn [first_index_of].
      destruct (String.eqb_spec w x) as [<-|Hne].
      * destruct (decide (w ∈ seen)) as [?|_]; [contradiction|].
        destruct (decide (w ∈ seen ++ [w])) as [_|Hno]; [f_equal; lia|].
        exfalso. apply Hno. apply elem_of_app. right. constructor.
      * destruct (decide (x ∈ seen)) as [Hx|Hx];
          destruct (decide (x ∈ seen ++ [w])) as [Hx'|Hx']; try reflexivity.
        -- exfalso. apply Hx'. apply elem_of_app. now left.
        -- apply elem_of_app in Hx' as [?|Hx']; [contradiction|].
           apply list_elem_of_singleton in Hx'. congruence.
Qed.

Lemma count_words_from (ws seen : list string) (st : word_dict * word_dict) :
  table_ok seen st ->
  exists st',
    for_each (zip (map Z.of_nat (seq (length seen) (length ws))) ws) count_step st
    = Ok st'
    /\ table_ok (seen ++ ws) st'.
Proof.
  revert seen st. induction ws as [|w ws IH]; intros seen st Hst.
  - exists st. rewrite app_nil_r. now split.
  - cbn [length seq map zip zip_with for_each].
    destruct (count_step_ok seen st w Hst) as (st1 & -> & Hst1). cbn [rbind].
    destruct (IH (seen ++ [w]) st1 Hst1) as (st2 & Hrun & Hst2).
    rewrite length_app in Hrun. cbn [length] in Hrun.
    replace (length seen + 1)%nat with (S (length seen)) in Hrun by lia.
    exists st2. split; [exact Hrun|]. now rewrite <- app_assoc in Hst2.
Qed.

Lemma count_words_ok (words : list string) :
  exists st, count_words words = Ok st /\ table_ok words st.
Proof.
  apply (count_words_from words [] ([], [])). split; [constructor|].
  split; intros w; cbn [fst snd dict_find];
    destruct (decide (w ∈ [])) as [Hin|_]; try reflexivity; inversion Hin.
Qed.

Lemma StronglySorted_map {A B} (f : A -> B) (R1 : A -> A -> Prop)
    (R2 : B -> B -> Prop) (l : list A) :
  (forall x y, x ∈ l -> y ∈ l -> R1 x y -> R2 (f x) (f y)) ->
  StronglySorted R1 l -> StronglySorted R2 (map f l).
Proof.
  induction l as [|x l IH]; intros Himp Hl; cbn [map]; [constructor|].
  apply StronglySorted_inv in Hl as [Hl Hx]. constructor.
  - apply IH; [|exact Hl]. intros a b Ha Hb. apply Himp; now constructor.
  - apply Forall_forall. intros y Hy.
    apply list_elem_of_In, in_map_iff in Hy as (z & <- & Hz).
    apply list_elem_of_In in Hz.
    apply Himp; [constructor|now constructor|].
    rewrite Forall_forall in Hx. now apply Hx.
Qed.

Lemma StronglySorted_distinct {A} (R R' : A -> A -> Prop) (l : list A) :
  NoDup l ->
  (forall a b, a ∈ l -> b ∈ l -> a <> b -> R a b -> R' a b) ->
  StronglySorted R l -> StronglySorted R' l.
Proof.
  induction l as [|x l IH]; intros Hnodup Himp Hl; [constructor|].
  apply NoDup_cons in Hnodup as [Hx Hnodup].
  apply StronglySorted_inv in Hl as [Hl Hall]. constructor.
  - apply IH; [exact Hnodup| |exact Hl].
    intros a b Ha Hb. apply Himp; now constructor.
  - apply Forall_forall. intros y Hy. rewrite Forall_forall in Hall.
    apply Himp; [constructor|now constructor| |now apply Hall].
    intros ->. contradiction.
Qed.

Lemma pair_lt_asym (a b : Z * Z) : pair_lt a b = true -> pair_lt b a = false.
Proof.
  unfold pair_lt. destruct a as [a1 a2], b as [b1 b2]. cbn [fst snd].
  destruct (Z.ltb_spec a1 b1), (Z.eqb_spec a1 b1), (Z.ltb_spec a2 b2),
    (Z.ltb_spec b1 a1), (Z.eqb_spec b1 a1), (Z.ltb_spec b2 a2);
    cbn; intros; try reflexivity; try discriminate; lia.
Qed.

Lemma pair_le_trans (a b c : Z * Z) :
  pair_lt b a = false -> pair_lt c b = false -> pair_lt c a = false.
Proof.
  unfold pair_lt. destruct a as [a1 a2], b as [b1 b2], c as [c1 c2].
  cbn [fst snd].
  destruct (Z.ltb_spec b1 a1), (Z.eqb_spec b1 a1), (Z.ltb_spec b2 a2),
    (Z.ltb_spec c1 b1), (Z.eqb_spec c1 b1), (Z.ltb_spec c2 b2),
    (Z.ltb_spec c1 a1), (Z.eqb_spec c1 a1), (Z.ltb_spec c2 a2);
    cbn; intros; try reflexivity; try discriminate; lia.
Qed.

Lemma before_total (words : list string) (a b : string) :
  a ∈ words -> b ∈ words -> a <> b -> before words a b \/ before words b a.
Proof.
  intros Ha Hb Hne. unfold before.
  assert (first_index_of a words <> first_index_of b words) as Hfirst.
  { intros Heq. apply Hne. now apply (first_index_of_inj a b words). }
  lia.
Qed.

(** [sort_words] on the tables of [count_words]. *)
Lemma sort_words_spec (words : list string) (st : word_dict * word_dict) :
  table_ok words st ->
  exists out,
    sort_words (fst st) (snd st) = Ok out
    /\ NoDup out
    /\ (forall w, w ∈ out <-> w ∈ words)
    /\ StronglySorted (before words) out.
Proof.
  destruct st as [counts first_index]. intros (Hnodup & Hcounts & Hfirst).
  cbn [fst snd] in *.
  assert (forall w, w ∈ dict_keys counts <-> w ∈ words) as Hkeys.
  { intros w. rewrite (dict_keys_find String.eqb String.eqb_eq), Hcounts.
    destruct (decide (w ∈ words)) as [Hin|Hout]; split; intros Hw;
      try assumption; eauto.
    - destruct Hw as [c Hc]. discriminate.
    - contradiction. }
  set (g := fun w : string => ((- count_of w words, first_index_of w words), w)).
  unfold sort_words.
  rewrite (map_result_ok _ g).
  2:{ intros w Hw. apply Hkeys in Hw. unfold dict_lookup.
      rewrite Hcounts, Hfirst. now destruct (decide (w ∈ words)). }
  cbn [rbind].
  pose proof (stable_sort_perm pair_lt (map g (dict_keys counts))) as Hperm.
  assert (map snd (stable_sort pair_lt (map g (dict_keys counts)))
          ≡ₚ dict_keys counts) as Hout.
  { rewrite Hperm, map_map. cbn [g snd]. now rewrite map_id. }
  eexists; split; [reflexivity|]. split; [now rewrite Hout|].
  split; [intros w; now rewrite Hout|].
  apply (StronglySorted_distinct
           (fun a b => a ∈ words /\ b ∈ words
                       /\ pair_lt (fst (g b)) (fst (g a)) = false)).
  - now rewrite Hout.
  - intros a b _ _ Hne (Ha & Hb & Hle).
    destruct (before_total words a b Ha Hb Hne) as [?|Hba]; [assumption|].
    exfalso. unfold before in Hba. unfold pair_lt, g in Hle. cbn [fst snd] in Hle.
    destruct (Z.ltb_spec (- count_of b words) (- count_of a words)),
      (Z.eqb_spec (- count_of b words) (- count_of a words)),
      (Z.ltb_spec (first_index_of b words) (first_index_of a words));
      cbn in Hle; try discriminate; lia.
  - apply (StronglySorted_map snd (fun x y => pair_lt (fst y) (fst x) = false));
      [|apply stable_sort_sorted; [apply pair_lt_asym|apply pair_le_trans]].
    intros x y Hx Hy Hle. rewrite Hperm in Hx, Hy.
    apply list_elem_of_In, in_map_iff in Hx as (a & <- & Ha).
    apply list_elem_of_In, in_map_iff in Hy as (b & <- & Hb).
    apply list_elem_of_In, Hkeys in Ha. apply list_elem_of_In, Hkeys in Hb.
    now cbn [g snd].
Qed.

(** C7: [order], that is [sort_words] on the tables of [count_words],
    returns every distinct word once, with more occurrences first and, among
    words with equally many, the one that occurred first; the alphabet plays
    no part, and the order is total because two words never share their
    first position. *)
Theorem order_spec :
  (forall words : list string,
     exists out,
       order words = Ok out
       /\ NoDup out
       /\ (forall w, w ∈ out <-> w ∈ words)
       /\ StronglySorted (before words) out
       /\ (forall a b, a ∈ words -> b ∈ words -> a <> b ->
             before words a b \/ before words b a))
  /\ order ["b"; "a"; "c"; "a"; "b"] = Ok ["b"; "a"; "c"].
Proof.
  split; [|reflexivity]. intros words. unfold order.
  destruct (count_words_ok words) as (st & -> & Hst). cbn [rbind].
  destruct (sort_words_spec words st Hst) as (out & Hsort & Hnodup & Hin & Hsorted).
  destruct st as [counts first_index]. cbn [fst snd] in Hsort.
  exists out. split; [exact Hsort|]. split; [exact Hnodup|].
  split; [exact Hin|]. split; [exact Hsorted|]. apply before_total.
Qed.

Lemma order_spec_witness :
  exists out,
    order ["hola"; "hola"; "mundo"; "mundo"; "mundo"] = Ok out
    /\ StronglySorted (before ["hola"; "hola"; "mundo"; "mundo"; "mundo"]) out.
Proof.
  destruct order_spec as [Hall _].
  destruct (Hall ["hola"; "hola"; "mundo"; "mundo"; "mundo"])
    as (out & Hout & _ & _ & Hsorted & _).
  exists out. split; [exact Hout|exact Hsorted].
Defined.

End WordFacts.

(** ** Text primitives *)

Lemma rstrip_idem (s : string) : rstrip (rstrip s) = rstrip s.
Proof.
  induction s as [|c s IH]; cbn [rstrip]; [reflexivity|].
  destruct (is_space c && is_empty (rstrip s)) eqn:E; [reflexivity|].
  cbn [rstrip]. now rewrite IH, E.
Qed.

Lemma lstrip_head (c : ascii) (s : string) :
  is_space c = false -> lstrip (String c s) = String c s.
Proof. intros Hc. cbn [lstrip]. now rewrite Hc. Qed.

Lemma lstrip_starts (s : string) :
  lstrip s = "" \/ exists c s', lstrip s = String c s' /\ is_space c = false.
Proof.
  induction s as [|c s IH]; cbn [lstrip]; [now left|].
  destruct (is_space c) eqn:Hc; [exact IH|]. right. now exists c, s.
Qed.

Lemma strip_idem (s : string) : strip (strip s) = strip s.
Proof.
  unfold strip. destruct (lstrip_starts s) as [->|(c & s' & -> & Hc)];
    [reflexivity|].
  assert (rstrip (String c s') = String c (rstrip s')) as Hr
    by (cbn [rstrip]; now rewrite Hc).
  rewrite Hr, lstrip_head by exact Hc. rewrite <- Hr. apply rstrip_idem.
Qed.

(** ** convertNumbers.py: the integer parser *)

Module ParseFacts.

Lemma all_digits_app (a b : string) :
  all_digits (a +:+ b) = all_digits a && all_digits b.
Proof.
  induction a as [|c a IH]; [reflexivity|].
  rewrite string_app_cons. cbn [all_digits]. rewrite IH. apply andb_assoc.
Qed.

Lemma is_empty_app_char (a : string) (c : ascii) :
  is_empty (a +:+ String c "") = false.
Proof. destruct a; reflexivity. Qed.

Lemma digit_not_underscore (c : ascii) : is_digit c = true -> Ascii.eqb c "_" = false.
Proof.
  intros Hc. destruct (Ascii.eqb_spec c "_") as [->|]; [discriminate|reflexivity].
Qed.

Lemma split_on_bad (s cur : string) :
  all_digits cur = false -> forallb digit_group (split_on "_" s cur) = false.
Proof.
  revert cur. induction s as [|c s IH]; intros cur Hcur; cbn [split_on forallb].
  - unfold digit_group. rewrite Hcur. now rewrite andb_false_r.
  - destruct (Ascii.eqb c "_"); cbn [forallb].
    + unfold digit_group. rewrite Hcur. now rewrite andb_false_r.
    + apply IH. rewrite all_digits_app, Hcur. reflexivity.
Qed.

(** The digits that [int] reads are the groups of the wide literal. *)
Lemma int_digits_grouped (s : string) :
  forall (acc : Z) (cur : string) (seen : bool),
    all_digits cur = true -> seen = negb (is_empty cur) ->
    int_digits s acc seen
    = if forallb digit_group (split_on "_" s cur)
      then Some (decimal_value s acc) else None.
Proof.
  induction s as [|c s IH]; intros acc cur seen Hcur ->;
    cbn [int_digits split_on decimal_value forallb].
  - unfold digit_group. rewrite Hcur, andb_true_r, andb_true_r.
    now destruct (is_empty cur).
  - destruct (is_digit c) eqn:Hc.
    + rewrite (digit_not_underscore c Hc).
      apply IH.
      * rewrite all_digits_app, Hcur. cbn [all_digits]. now rewrite Hc.
      * now rewrite is_empty_app_char.
    + destruct (Ascii.eqb c "_") eqn:Hu; cbn [andb forallb].
      * unfold digit_group at 1. rewrite Hcur, andb_true_r.
        destruct (is_empty cur); cbn [negb andb]; [reflexivity|].
        now apply IH.
      * rewrite split_on_bad; [reflexivity|].
        rewrite all_digits_app. cbn [all_digits]. rewrite Hc.
        now rewrite andb_false_r.
Qed.

Lemma int_body_grouped (r : string) :
  int_body r
  = if forallb digit_group (split_on "_" r "")
       && (digit_count r <=? int_max_str_digits)
    then Some (decimal_value r 0) else None.
Proof.
  unfold int_body.
  rewrite (int_digits_grouped r 0 "" false eq_refl eq_refl).
  destruct (Z.ltb_spec int_max_str_digits (digit_count r)) as [Hover|Hin],
    (Z.leb_spec (digit_count r) int_max_str_digits) as [Hin'|Hover'];
    try lia; [now rewrite andb_false_r|now rewrite andb_true_r].
Qed.

Lemma py_int_grouped_stripped (t : string) :
  match t with
  | String "+" r => int_body r
  | String "-" r => Z.opp <$> int_body r
  | _ => int_body t
  end
  = if is_grouped_literal t && within_digit_limit t
    then Some (literal_value t) else None.
Proof.
  unfold is_grouped_literal, within_digit_limit, literal_value.
  destruct t as [|c r].
  - reflexivity.
  - destruct c as [[] [] [] [] [] [] [] []];
      cbn [unsigned_part sign_of];
      rewrite int_body_grouped;
      match goal with
      | |- context [if ?b then _ else _] => destruct b
      end; cbn [fmap option_fmap option_map]; try reflexivity; f_equal; lia.
Qed.

Lemma py_int_grouped (text : string) :
  py_int text
  = if is_grouped_literal (strip text) && within_digit_limit (strip text)
    then Some (literal_value (strip text))
    else None.
Proof. unfold py_int. apply py_int_grouped_stripped. Qed.

Lemma split_on_digits (s cur : string) :
  all_digits s = true -> split_on "_" s cur = [cur +:+ s].
Proof.
  revert cur. induction s as [|c s IH]; intros cur Hs; cbn [split_on].
  - now rewrite string_app_nil_r.
  - cbn [all_digits] in Hs. apply andb_prop in Hs as [Hc Hs].
    rewrite (digit_not_underscore c Hc), (IH _ Hs).
    now rewrite string_app_assoc.
Qed.

Lemma int_literal_grouped (t : string) :
  is_int_literal t = true -> is_grouped_literal t = true.
Proof.
  unfold is_int_literal, is_grouped_literal. intros Ht.
  pose proof Ht as Hgroup. apply andb_prop in Ht as [_ Hdigits].
  rewrite (split_on_digits _ "" Hdigits), string_app_nil_l.
  cbn [forallb]. unfold digit_group. now rewrite Hgroup.
Qed.

Lemma grouped_chars (s : string) :
  forall cur x,
    forallb digit_group (split_on "_" s cur) = true ->
    char_in x s = true -> is_digit x = true \/ x = "_"%char.
Proof.
  induction s as [|c s IH]; intros cur x Hgroups Hx; cbn [char_in] in Hx;
    [discriminate|].
  cbn [split_on] in Hgroups.
  destruct (Ascii.eqb c "_") eqn:Hu.
  - cbn [forallb] in Hgroups. apply andb_prop in Hgroups as [_ Hgroups].
    apply orb_prop in Hx as [Hx|Hx].
    + right. apply Ascii.eqb_eq in Hx as ->. now apply Ascii.eqb_eq.
    + now apply (IH "" x).
  - assert (is_digit c = true) as Hc.
    { destruct (is_digit c) eqn:Hc; [reflexivity|].
      rewrite split_on_bad in Hgroups; [discriminate|].
      rewrite all_digits_app. cbn [all_digits]. rewrite Hc.
      now rewrite andb_false_r. }
    apply orb_prop in Hx as [Hx|Hx].
    + left. now apply Ascii.eqb_eq in Hx as ->.
    + now apply (IH _ x Hgroups).
Qed.

Lemma char_in_unsigned (x : ascii) (t : string) :
  char_in x t = true ->
  char_in x (unsigned_part t) = true \/ x = "+"%char \/ x = "-"%char.
Proof.
  destruct t as [|c r]; [discriminate|]. intros Hx.
  destruct (Ascii.eqb_spec c "+") as [->|Hplus];
    [|destruct (Ascii.eqb_spec c "-") as [->|Hminus]].
  - cbn [char_in unsigned_part] in *. apply orb_prop in Hx as [Hx|Hx].
    + right. left. now apply Ascii.eqb_eq.
    + now left.
  - cbn [char_in unsigned_part] in *. apply orb_prop in Hx as [Hx|Hx].
    + right. right. now apply Ascii.eqb_eq.
    + now left.
  - left. replace (unsigned_part (String c r)) with (String c r); [exact Hx|].
    destruct c as [[] [] [] [] [] [] [] []]; try reflexivity; congruence.
Qed.

(** A character that is no digit, no underscore and no sign occurs in no
    wide literal. *)
Lemma grouped_no_char (t : string) (x : ascii) :
  is_digit x = false -> x <> "_"%char -> x <> "+"%char -> x <> "-"%char ->
  char_in x t = true -> is_grouped_literal t = false.
Proof.
  intros Hdigit Hu Hplus Hminus Hx.
  destruct (is_grouped_literal t) eqn:Ht; [|reflexivity]. exfalso.
  destruct (char_in_unsigned x t Hx) as [Hbody|[?|?]]; try contradiction.
  destruct (grouped_chars _ "" x Ht Hbody) as [Hd|?]; [|contradiction].
  rewrite Hd in Hdigit. discriminate.
Qed.

(** C5, as the code has it, for a line of characters below 256: the
    integer parser appends a value for the line exactly when the trimmed
    line is an optional sign followed by groups of decimal digits with one
    underscore between two groups, and the digits are no more than 4300; the
    value is the number that the digits denote; for every other line it
    appends one entry to the error log and no value.  A sign followed by
    digits only is such a literal when it is within the limit; a text with
    a decimal point or an exponent letter is not, so nothing is truncated to
    an integer. *)
Theorem parse_line_accepts (ints : list Z) (errors : list string)
    (line_no : Z) (raw : string) :
  (if is_grouped_literal (strip raw) && within_digit_limit (strip raw)
   then ConvertNumbers.parse_line (ints, errors) (line_no, raw)
        = (ints ++ [literal_value (strip raw)], errors)
   else exists msg,
        ConvertNumbers.parse_line (ints, errors) (line_no, raw)
        = (ints, errors ++ [msg]))
  /\ (is_int_literal (strip raw) = true -> is_grouped_literal (strip raw) = true)
  /\ (char_in "." (strip raw) = true \/ char_in "e" (strip raw) = true
       \/ char_in "E" (strip raw) = true ->
       is_grouped_literal (strip raw) = false).
Proof.
  split; [|split].
  - unfold ConvertNumbers.parse_line.
    destruct (is_empty (strip raw)) eqn:Hempty.
    + destruct (strip raw); [|discriminate]. cbn. eauto.
    + rewrite py_int_grouped, strip_idem.
      destruct (is_grouped_literal (strip raw) && within_digit_limit (strip raw));
        eauto.
  - apply int_literal_grouped.
  - intros [Hx|[Hx|Hx]]; eapply grouped_no_char; try exact Hx;
      try reflexivity; discriminate.
Qed.

Lemma parse_line_accepts_witness :
  ConvertNumbers.parse_line ([], []) (1, "-1_000" +:+ NL) = ([-1000], [])
  /\ (exists msg, ConvertNumbers.parse_line ([], []) (2, "3.7" +:+ NL) = ([], [msg])).
Proof.
  split.
  - exact (proj1 (parse_line_accepts [] [] 1 ("-1_000" +:+ NL))).
  - exact (proj1 (parse_line_accepts [] [] 2 ("3.7" +:+ NL))).
Defined.

(** The claim C5 in its narrow form fails: the line [1_000] gives the value
    1000 although it is not a sign followed by digits only. *)
Lemma underscore_literal_counterexample :
  ~ (forall raw : string,
       (exists v, fst (ConvertNumbers.parse_line ([], []) (1, raw)) = [v])
       <-> is_int_literal (strip raw) = true).
Proof.
  intros Hclaim. destruct (Hclaim "1_000") as [Hliteral _].
  assert (is_int_literal (strip "1_000") = true) as Habsurd
    by (apply Hliteral; exists 1000; reflexivity).
  discriminate Habsurd.
Qed.

End ParseFacts.

(** ** The three parsers, line by line *)

Module LineFacts.

Lemma omap_cons' {A B} (f : A -> option B) (x : A) (l : list A) :
  omap f (x :: l)
  = match f x with
    | Some y => y :: omap f l
    | None => omap f l
    end.
Proof. reflexivity. Qed.

Lemma parse_integers_step (ints : list Z) (errors : list string) (n : Z)
    (raw : string) :
  exists msg,
    ConvertNumbers.parse_line (ints, errors) (n, raw)
    = match int_of_line raw with
      | Some value => (ints ++ [value], errors)
      | None => (ints, errors ++ [msg])
      end.
Proof.
  unfold ConvertNumbers.parse_line, int_of_line.
  destruct (is_empty (strip raw)); [eauto|].
  destruct (py_int (strip raw)); eauto.
Qed.

Lemma parse_numbers_step {V : Type} `{NumberText V} (numbers : list V)
    (errors : list string) (n : Z) (raw : string) :
  exists msg,
    Statistics.parse_line (numbers, errors) (n, raw)
    = match num_of_line raw with
      | Some value => (numbers ++ [value], errors)
      | None => (numbers, errors ++ [msg])
      end.
Proof.
  unfold Statistics.parse_line, num_of_line.
  destruct (is_empty (strip raw)); [eauto|].
  destruct (num_parse (strip raw)); eauto.
Qed.

Lemma parse_integers_lines (lines : list string) :
  forall (start : nat) (ints : list Z) (errors : list string),
  exists logged,
    fold_left ConvertNumbers.parse_line
      (zip (map (fun k => Z.of_nat (S k)) (seq start (length lines))) lines)
      (ints, errors)
    = (ints ++ omap int_of_line lines, errors ++ logged)
    /\ length logged
       = length (List.filter (fun raw => is_none (int_of_line raw)) lines).
Proof.
  induction lines as [|raw lines IH]; intros start ints errors.
  - exists []. now rewrite !app_nil_r.
  - cbn [length seq map zip zip_with fold_left List.filter].
    rewrite omap_cons'.
    destruct (parse_integers_step ints errors (Z.of_nat (S start)) raw)
      as [msg ->].
    destruct (int_of_line raw) as [value|]; cbn [is_none].
    + destruct (IH (S start) (ints ++ [value]) errors) as (logged & -> & Hlen).
      exists logged. split; [now rewrite <- app_assoc|exact Hlen].
    + destruct (IH (S start) ints (errors ++ [msg])) as (logged & -> & Hlen).
      exists (msg :: logged). split; [now rewrite <- app_assoc|].
      cbn [length]. now rewrite Hlen.
Qed.

Lemma parse_numbers_lines {V : Type} `{NumberText V} (lines : list string) :
  forall (start : nat) (numbers : list V) (errors : list string),
  exists logged,
    fold_left Statistics.parse_line
      (zip (map (fun k => Z.of_nat (S k)) (seq start (length lines))) lines)
      (numbers, errors)
    = (numbers ++ omap num_of_line lines, errors ++ logged)
    /\ length logged
       = length (List.filter (fun raw => is_none (num_of_line (V:=V) raw)) lines).
Proof.
  induction lines as [|raw lines IH]; intros start numbers errors.
  - exists []. now rewrite !app_nil_r.
  - cbn [length seq map zip zip_with fold_left List.filter].
    rewrite omap_cons'.
    destruct (parse_numbers_step numbers errors (Z.of_nat (S start)) raw)
      as [msg ->].
    destruct (num_of_line raw) as [value|]; cbn [is_none].
    + destruct (IH (S start) (numbers ++ [value]) errors)
        as (logged & -> & Hlen).
      exists logged. split; [now rewrite <- app_assoc|exact Hlen].
    + destruct (IH (S start) numbers (errors ++ [msg])) as (logged & -> & Hlen).
      exists (msg :: logged). split; [now rewrite <- app_assoc|].
      cbn [length]. now rewrite Hlen.
Qed.

Lemma parse_words_parts (parts words acc : list string) :
  fold_left
    (fun words p =>
       let w := WordCount.normalize_token p in
       if negb (is_empty w) then words ++ [w] else words)
    parts (words ++ acc)
  = words
    ++ fold_left
         (fun words p =>
            let w := WordCount.normalize_token p in
            if negb (is_empty w) then words ++ [w] else words)
         parts acc.
Proof.
  revert acc. induction parts as [|p parts IH]; intros acc; cbn [fold_left];
    [reflexivity|].
  cbv zeta. destruct (negb (is_empty (WordCount.normalize_token p))).
  - rewrite <- app_assoc. apply IH.
  - apply IH.
Qed.

Lemma parse_words_line (words : list string) (raw : string) :
  WordCount.parse_line words raw = words ++ WordCount.parse_line [] raw.
Proof.
  unfold WordCount.parse_line.
  destruct (is_empty (strip raw)); [now rewrite app_nil_r|].
  rewrite <- (parse_words_parts _ words []). now rewrite app_nil_r.
Qed.

Lemma parse_words_lines (lines : list string) (words : list string) :
  fold_left WordCount.parse_line lines words
  = words ++ concat (map (WordCount.parse_line []) lines).
Proof.
  revert words. induction lines as [|raw lines IH]; intros words;
    cbn [fold_left map concat].
  - now rewrite app_nil_r.
  - rewrite IH, (parse_words_line words raw). now rewrite <- app_assoc.
Qed.

(** C6, as the code has it: the numeric and the integer parser read every
    line of the file to the end, a line gives either its value or exactly
    one entry of the error log, so the log has one entry for each skipped
    line; the word parser also reads every line to the end and keeps the
    words of each, but it logs nothing for a line, blank or not. *)
Theorem skipped_lines_logged {V : Type} `{NumberText V} (fs : filesystem)
    (path : string) (lines : list string) :
  fs path = FileLines lines ->
  (exists logged,
     ConvertNumbers.parse_integers fs path = Ok (omap int_of_line lines, logged)
     /\ length logged
        = length (List.filter (fun raw => is_none (int_of_line raw)) lines))
  /\ (exists logged,
        Statistics.parse_numbers (V:=V) fs path
        = Ok (omap num_of_line lines, logged)
        /\ length logged
           = length (List.filter (fun raw => is_none (num_of_line (V:=V) raw))
                       lines))
  /\ WordCount.parse_words fs path
     = Ok (concat (map (WordCount.parse_line []) lines), []).
Proof.
  intros Hfile. split; [|split].
  - unfold ConvertNumbers.parse_integers, enumerate1. rewrite Hfile.
    destruct (parse_integers_lines lines 0 [] []) as (logged & -> & Hlen).
    exists ([] ++ logged). now split.
  - unfold Statistics.parse_numbers, enumerate1. rewrite Hfile.
    destruct (parse_numbers_lines lines 0 [] []) as (logged & -> & Hlen).
    exists ([] ++ logged). now split.
  - unfold WordCount.parse_words. rewrite Hfile.
    now rewrite parse_words_lines.
Qed.

Lemma skipped_lines_logged_witness :
  ConvertNumbers.parse_integers
    (fun _ => FileLines ["10" +:+ NL; NL; "bad" +:+ NL; "-10" +:+ NL]) "tc.txt"
  = Ok ([10; -10],
        ["Line 2: empty line (skipped)";
         "Line 3: invalid integer 'bad' (skipped)"])
  /\ exists logged,
       Statistics.parse_numbers (V:=Z)
         (fun _ => FileLines ["10" +:+ NL; NL; "bad" +:+ NL]) "tc.txt"
       = Ok (omap num_of_line ["10" +:+ NL; NL; "bad" +:+ NL], logged)
       /\ length logged = 2%nat.
Proof.
  split; [reflexivity|].
  destruct (skipped_lines_logged (V:=Z)
              (fun _ => FileLines ["10" +:+ NL; NL; "bad" +:+ NL]) "tc.txt"
              ["10" +:+ NL; NL; "bad" +:+ NL] eq_refl)
    as (_ & (logged & Hrun & Hlog) & _).
  exists logged. split; [exact Hrun|]. rewrite Hlog. reflexivity.
Defined.

(** The claim C6 fails for the word parser: a file of one blank line has a
    skipped line and an empty error log. *)
Lemma blank_line_not_logged :
  ~ (forall lines : list string,
       exists words logged,
         WordCount.parse_words (fun _ => FileLines lines) "tc.txt"
         = Ok (words, logged)
         /\ length logged
            = length (List.filter (fun raw => is_empty (strip raw)) lines)).
Proof.
  intros Hclaim. destruct (Hclaim [NL]) as (words & logged & Hrun & Hlen).
  vm_compute in Hrun. injection Hrun as <- <-. discriminate Hlen.
Qed.

End LineFacts.

(** ** The three [main] functions *)

Module MainFacts.

Section StatisticsRuns.
Context {V : Type} `{Number V}.

Lemma find_min_total (arr : list V) (i : Z) :
  0 <= i < Z.of_nat (length arr) ->
  exists m,
    find_min list_index (Z.of_nat (length arr)) arr i = Ok m
    /\ i <= m < Z.of_nat (length arr).
Proof.
  intros Hi.
  destruct (for_each_range (fun j m => i <= m < j)
    (fun min_idx j =>
       let* aj := list_index arr j in
       let* am := list_index arr min_idx in
       Ok (if num_lt aj am then j else min_idx))
    (i + 1) (Z.of_nat (length arr)) i) as (m & Hm & Hrange); try lia.
  - intros j m Hj Hm.
    destruct (list_index_range arr j ltac:(lia)) as (aj & -> & _).
    destruct (list_index_range arr m ltac:(lia)) as (am & -> & _).
    cbn [rbind]. eexists; split; [reflexivity|]. destruct (num_lt aj am); lia.
  - exists m. split; [exact Hm|lia].
Qed.

Lemma selection_sort_total (values : list V) :
  exists out,
    Statistics.selection_sort values = Ok out /\ length out = length values.
Proof.
  unfold Statistics.selection_sort, sort_loop.
  destruct (for_each_range (fun (_ : Z) (arr : list V) => length arr = length values)
    (fun arr i =>
       let* min_idx := find_min list_index (Z.of_nat (length values)) arr i in
       swap list_index list_store arr i min_idx)
    0 (Z.of_nat (length values)) values) as (out & Hout & Hlen);
    [lia|reflexivity| |now exists out].
  intros i arr Hi Hlen. cbv beta in *. rewrite <- Hlen in *.
  destruct (find_min_total arr i Hi) as (m & -> & Hm). cbn [rbind].
  destruct (lookup_lt_is_Some_2 arr (Z.to_nat i) ltac:(lia)) as [y Hy].
  destruct (lookup_lt_is_Some_2 arr (Z.to_nat m) ltac:(lia)) as [x Hx].
  rewrite (SortFacts.swap_spec arr i m x y) by (assumption || lia).
  eexists; split; [reflexivity|]. now rewrite !length_insert.
Qed.

Lemma div_by_count_ok (total : V) (values : list V) :
  values <> [] ->
  exists x, Statistics.div_by_count total (Z.of_nat (length values)) = Ok x.
Proof.
  intros Hne. unfold Statistics.div_by_count.
  destruct values; [contradiction|]. cbn [length].
  destruct (Z.eqb_spec (Z.of_nat (S (length values))) 0); [lia|eauto].
Qed.

Lemma mean_ok (values : list V) :
  values <> [] -> exists x, Statistics.mean values = Ok x.
Proof. intros Hne. unfold Statistics.mean. now apply div_by_count_ok. Qed.

Lemma median_ok (values : list V) :
  values <> [] -> exists x, Statistics.median values = Ok x.
Proof.
  intros Hne. unfold Statistics.median.
  destruct (selection_sort_total values) as (out & -> & Hlen). cbn [rbind].
  assert (0 < Z.of_nat (length out)) as Hpos.
  { rewrite Hlen. destruct values; [contradiction|]. cbn [length]. lia. }
  set (n := Z.of_nat (length out)) in *.
  pose proof (Z.div_mod n 2 ltac:(lia)) as Hdiv.
  pose proof (Z.mod_pos_bound n 2 ltac:(lia)) as Hmod.
  destruct (Z.eqb_spec (n mod 2) 1) as [Hodd|Heven].
  - destruct (list_index_range out (n / 2) ltac:(lia)) as (x & -> & _). eauto.
  - destruct (list_index_range out (n / 2 - 1) ltac:(lia)) as (a & -> & _).
    destruct (list_index_range out (n / 2) ltac:(lia)) as (b & -> & _).
    cbn [rbind]. eauto.
Qed.

Lemma variance_ok (values : list V) :
  values <> [] -> exists x, Statistics.variance_population values = Ok x.
Proof.
  intros Hne. unfold Statistics.variance_population.
  destruct (mean_ok values Hne) as [mu ->]. cbn [rbind].
  now apply div_by_count_ok.
Qed.

Lemma stddev_ok (values : list V) :
  values <> [] -> exists x, Statistics.stddev_population values = Ok x.
Proof.
  intros Hne. unfold Statistics.stddev_population.
  destruct (variance_ok values Hne) as [var ->]. cbn [rbind]. eauto.
Qed.

End StatisticsRuns.

Section StatisticsMain.
Context {V : Type} `{Number V} `{NumberText V}.

Lemma statistics_usage (fs : filesystem) (elapsed : string) (argv : list string) :
  length argv <> 2%nat ->
  exists o,
    Statistics.main (V:=V) fs elapsed argv = Ok o
    /\ exit_code o = 2 /\ results_file o = None.
Proof.
  intros Hargs. unfold Statistics.main.
  destruct (Z.eqb_spec (Z.of_nat (length argv)) 2) as [?|_]; [lia|].
  cbn [negb]. eexists; split; [reflexivity|]. now split.
Qed.

Lemma statistics_runs (fs : filesystem) (elapsed prog path : string)
    (numbers : list V) (errors : list string) :
  Statistics.parse_numbers (V:=V) fs path = Ok (numbers, errors) ->
  exists o,
    Statistics.main (V:=V) fs elapsed [prog; path] = Ok o
    /\ exit_code o
       = match numbers with
         | [] => 1
         | _ :: _ => 0
         end
    /\ is_Some (results_file o).
Proof.
  intros Hparse. unfold Statistics.main.
  change (negb (Z.of_nat (length [prog; path]) =? 2)) with false.
  change (list_index [prog; path] 1) with (Ok path). cbn [rbind].
  rewrite Hparse. cbn [rbind].
  destruct numbers as [|x numbers].
  - eexists; split; [reflexivity|]. split; [reflexivity|]. cbn. eauto.
  - destruct (Z.eqb_spec (Z.of_nat (length (x :: numbers))) 0) as [Hlen|_];
      [cbn [length] in Hlen; lia|].
    destruct (mean_ok (x :: numbers) ltac:(discriminate)) as [mu ->].
    destruct (median_ok (x :: numbers) ltac:(discriminate)) as [med ->].
    destruct (variance_ok (x :: numbers) ltac:(discriminate)) as [var ->].
    destruct (stddev_ok (x :: numbers) ltac:(discriminate)) as [std ->].
    cbn [rbind]. eexists; split; [reflexivity|]. split; [reflexivity|].
    cbn. eauto.
Qed.
End StatisticsMain.

Lemma convert_usage (fs : filesystem) (elapsed : string) (argv : list string) :
  length argv <> 2%nat ->
  exists o,
    returns (fun fuel => ConvertNumbers.main fuel fs elapsed argv) (Ok o)
    /\ exit_code o = 2 /\ results_file o = None.
Proof.
  intros Hargs. eexists. split; [|split].
  - exists 0%nat. intros fuel _. unfold ConvertNumbers.main.
    destruct (Z.eqb_spec (Z.of_nat (length argv)) 2) as [?|_]; [lia|].
    reflexivity.
  - reflexivity.
  - reflexivity.
Qed.

Lemma convert_rows_returns (numbers : list Z) :
  forall (lines : list string) (item_no : Z),
  exists k out,
    returns_within k
      (fun fuel => ConvertNumbers.convert_rows fuel numbers lines item_no)
      (Ok out).
Proof.
  induction numbers as [|n numbers IH]; intros lines item_no.
  - exists 0%nat, lines. intros fuel _. reflexivity.
  - destruct (ConvertNumbersFacts.to_base_reads_back n 2 ltac:(lia))
      as (b2 & Hb2 & _).
    destruct (ConvertNumbersFacts.to_base_reads_back n 16 ltac:(lia))
      as (b16 & Hb16 & _).
    destruct (IH (lines ++ [str_of_int item_no +:+ TAB +:+ str_of_int n +:+ TAB
                              +:+ b2 +:+ TAB +:+ b16]) (item_no + 1))
      as (k & out & Hrest).
    exists (Nat.max (bits (Z.abs n)) k), out. intros fuel Hfuel.
    cbn [ConvertNumbers.convert_rows].
    rewrite (Hb2 fuel) by lia. cbn [fbind].
    rewrite (Hb16 fuel) by lia. cbn [fbind].
    apply Hrest. lia.
Qed.

Lemma convert_runs (fs : filesystem) (elapsed prog path : string)
    (numbers : list Z) (errors : list string) :
  ConvertNumbers.parse_integers fs path = Ok (numbers, errors) ->
  exists o,
    returns (fun fuel => ConvertNumbers.main fuel fs elapsed [prog; path]) (Ok o)
    /\ exit_code o = 0 /\ is_Some (results_file o).
Proof.
  intros Hparse.
  destruct (convert_rows_returns numbers
              ["ITEM" +:+ TAB +:+ "DEC" +:+ TAB +:+ "BIN" +:+ TAB +:+ "HEX"] 1)
    as (k & out & Hrows).
  eexists. split; [|split].
  - exists k. intros fuel Hfuel. unfold ConvertNumbers.main.
    change (negb (Z.of_nat (length [prog; path]) =? 2)) with false.
    change (list_index [prog; path] 1) with (Ok path). cbn [fbind].
    rewrite Hparse, (Hrows fuel Hfuel). cbn [fbind]. reflexivity.
  - reflexivity.
  - cbn. eauto.
Qed.

Lemma word_usage (fs : filesystem) (elapsed : string) (argv : list string) :
  length argv <> 2%nat ->
  exists o,
    WordCount.main fs elapsed argv = Ok o
    /\ exit_code o = 2 /\ results_file o = None.
Proof.
  intros Hargs. unfold WordCount.main.
  destruct (Z.eqb_spec (Z.of_nat (length argv)) 2) as [?|_]; [lia|].
  cbn [negb]. eexists; split; [reflexivity|]. now split.
Qed.

Lemma list_index_last {A} (l : list A) :
  l <> [] -> exists x, list_index l (-1) = Ok x.
Proof.
  intros Hne. unfold list_index.
  assert (0 < length l)%nat as Hlen by (destruct l; [contradiction|cbn; lia]).
  change (-1 <? 0) with true. cbv iota.
  destruct (Z.ltb_spec (-1 + Z.of_nat (length l)) 0) as [?|_]; [lia|].
  destruct (Z.leb_spec (Z.of_nat (length l)) (-1 + Z.of_nat (length l)))
    as [?|_]; [lia|].
  cbn [orb].
  destruct (lookup_lt_is_Some_2 l (Z.to_nat (-1 + Z.of_nat (length l)))
              ltac:(lia)) as [x ->].
  eauto.
Qed.

Lemma split_on_not_nil (sep : ascii) (s cur : string) : split_on sep s cur <> [].
Proof.
  revert cur. induction s as [|c s IH]; intros cur; cbn [split_on];
    [discriminate|].
  destruct (Ascii.eqb c sep); [discriminate|apply IH].
Qed.

Lemma report_rows (counts : WordCount.word_dict) (ordered : list string) :
  (forall w, w ∈ ordered -> is_Some (dict_find String.eqb counts w)) ->
  forall lines,
  exists out,
    for_each ordered
      (fun lines w =>
         let* c := dict_lookup String.eqb counts w in
         Ok (lines ++ [w +:+ TAB +:+ str_of_int c]))
      lines
    = Ok out.
Proof.
  induction ordered as [|w ordered IH]; intros Hcounts lines; cbn [for_each];
    [eauto|].
  unfold dict_lookup at 1.
  destruct (Hcounts w ltac:(constructor)) as [c ->]. cbn [rbind].
  apply IH. intros w' Hw'. apply Hcounts. now constructor.
Qed.

Lemma word_runs (fs : filesystem) (elapsed prog path : string)
    (words errors : list string) :
  WordCount.parse_words fs path = Ok (words, errors) ->
  exists o,
    WordCount.main fs elapsed [prog; path] = Ok o
    /\ exit_code o = 0 /\ is_Some (results_file o).
Proof.
  intros Hparse. unfold WordCount.main.
  change (negb (Z.of_nat (length [prog; path]) =? 2)) with false.
  change (list_index [prog; path] 1) with (Ok path). cbn [rbind].
  rewrite Hparse. cbn [rbind].
  destruct (list_index_last (split_on "/" path "") (split_on_not_nil _ _ _))
    as [base_name ->].
  cbn [rbind].
  destruct (Z.eqb_spec (Z.of_nat (length words)) 0) as [_|_]; cbn [negb rbind].
  - eexists; split; [reflexivity|]. split; [reflexivity|]. cbn. eauto.
  - destruct (WordFacts.count_words_ok words) as ([counts first_idx] & -> & Hst).
    cbn [rbind].
    destruct (WordFacts.sort_words_spec words (counts, first_idx) Hst)
      as (ordered & Hsort & _ & Hin & _).
    cbn [fst snd] in Hsort. rewrite Hsort. cbn [rbind].
    destruct Hst as (_ & Hcounts & _). cbn [fst] in Hcounts.
    destruct (report_rows counts ordered) with
      (lines := ["Row Labels" +:+ TAB +:+ "Count of " +:+ base_name])
      as [out ->].
    { intros w Hw. apply Hin in Hw. rewrite Hcounts.
      destruct (decide (w ∈ words)); [eauto|contradiction]. }
    cbn [rbind]. eexists; split; [reflexivity|]. split; [reflexivity|].
    cbn. eauto.
Qed.

End MainFacts.

(** * Further properties *)

(** ** [to_base]: errors, canonical form, injectivity *)

Module ToBaseMore.
Import ConvertNumbers.

Lemma returns_unique {A} (f : nat -> option A) (r r' : A) :
  returns f r -> returns f r' -> r = r'.
Proof.
  intros [k Hk] [k' Hk'].
  pose proof (Hk (Nat.max k k') ltac:(lia)) as H1.
  pose proof (Hk' (Nat.max k k') ltac:(lia)) as H2.
  congruence.
Qed.

(** With a base from 2 to 16 the digit loop never raises, whatever the
    fuel: the index into [HEX_DIGITS] is a remainder below 16. *)
Lemma digit_loop_no_raise (fuel : nat) :
  forall base value digits e,
    2 <= base <= 16 -> 0 <= value ->
    digit_loop fuel base value digits <> Some (Raise e).
Proof.
  induction fuel as [|fuel IH]; intros base value digits e Hb Hv;
    cbn [digit_loop]; destruct (Z.ltb_spec 0 value) as [Hpos|_];
    try discriminate.
  pose proof (Z.mod_pos_bound value base ltac:(lia)) as Hr.
  destruct (ConvertNumbersFacts.hex_digit (value mod base) ltac:(lia))
    as (c & -> & _).
  apply IH; [exact Hb|]. apply Z.div_pos; lia.
Qed.

(** X1: [to_base] raises exactly when the base is below 2 or above 16, and
    then it raises the [ValueError] of the base check; with a base from 2
    to 16 no amount of fuel makes it raise. *)
Theorem to_base_raises_iff (fuel : nat) (n base : Z) (e : exn) :
  to_base fuel n base = Some (Raise e)
  <-> (base < 2 \/ 16 < base)
      /\ e = ValueError "Base must be between 2 and 16".
Proof.
  unfold to_base.
  destruct (Z.ltb_spec base 2) as [Hlow|Hlow];
    [|destruct (Z.ltb_spec 16 base) as [Hhigh|Hhigh]]; cbn [orb].
  - split; [intros [= <-]; split; [lia|reflexivity]|now intros [_ ->]].
  - split; [intros [= <-]; split; [lia|reflexivity]|now intros [_ ->]].
  - split; [|lia]. intros Hrun. exfalso.
    destruct (Z.eqb_spec n 0) as [_|Hn]; [discriminate|].
    destruct (digit_loop fuel base (if n <? 0 then - n else n) []) as [[ds|e']|]
      eqn:Hloop; cbn [fbind] in Hrun.
    + rewrite ConvertNumbersFacts.reverse_digits_eq in Hrun. discriminate.
    + apply digit_loop_no_raise in Hloop; [exact Hloop|lia|].
      destruct (Z.ltb_spec n 0); lia.
    + discriminate.
Qed.

(** X2: for a base from 2 to 16, [to_base] gives different strings for
    different integers. *)
Theorem to_base_injective (base n m : Z) (s : string) :
  2 <= base <= 16 ->
  returns (fun fuel => to_base fuel n base) (Ok s) ->
  returns (fun fuel => to_base fuel m base) (Ok s) ->
  n = m.
Proof.
  intros Hb Hn Hm.
  destruct (ConvertNumbersFacts.to_base_reads_back n base Hb) as (sn & Hsn & Hpn).
  destruct (ConvertNumbersFacts.to_base_reads_back m base Hb) as (sm & Hsm & Hpm).
  pose proof (returns_unique _ _ _ Hn (ex_intro _ (bits (Z.abs n)) Hsn)) as En.
  pose proof (returns_unique _ _ _ Hm (ex_intro _ (bits (Z.abs m)) Hsm)) as Em.
  injection En as <-. injection Em as <-. congruence.
Qed.

Lemma to_base_injective_witness :
  returns (fun fuel => to_base fuel 255 16) (Ok "FF")
  /\ returns (fun fuel => to_base fuel (200 + 55) 16) (Ok "FF")
  /\ 255 = 200 + 55.
Proof.
  assert (returns (fun fuel => to_base fuel 255 16) (Ok "FF")) as Hrun.
  { exists 8%nat. intros fuel Hfuel.
    do 8 (destruct fuel as [|fuel]; [lia|]). reflexivity. }
  split; [exact Hrun|]. split; [exact Hrun|].
  exact (to_base_injective 16 255 (200 + 55) "FF" ltac:(lia) Hrun Hrun).
Defined.

Lemma numeral_digits_below (b : Z) (s : string) :
  forall acc v, numeral_value b acc s = Some v -> digits_below b s = true.
Proof.
  induction s as [|c s IH]; intros acc v Hv; cbn [numeral_value digits_below] in *;
    [reflexivity|].
  destruct (digit_value c) as [d|]; [|discriminate].
  destruct (d <? b); [|discriminate]. cbn [andb]. exact (IH _ v Hv).
Qed.

(** The digit that the loop appends last, the most significant one, is not
    zero. *)
Lemma digit_loop_shape (fuel : nat) :
  forall base value digits,
    2 <= base <= 16 -> 0 < value < 2 ^ Z.of_nat fuel ->
    exists ds c,
      digit_loop fuel base value digits
      = Some (Ok (digits ++ ds ++ [String c ""]))
      /\ Ascii.eqb c "0" = false.
Proof.
  induction fuel as [|fuel IH]; intros base value digits Hb Hv.
  - cbn in Hv. lia.
  - cbn [digit_loop]. destruct (Z.ltb_spec 0 value) as [_|?]; [|lia].
    pose proof (Z.mod_pos_bound value base ltac:(lia)) as Hr.
    destruct (ConvertNumbersFacts.hex_digit (value mod base) ltac:(lia))
      as (c & -> & Hc).
    destruct (Z.eq_dec (value / base) 0) as [Hq|Hq].
    + rewrite Hq. exists [], c. split.
      * destruct fuel; reflexivity.
      * destruct (Ascii.eqb_spec c "0") as [->|]; [|reflexivity].
        change (digit_value "0") with (Some 0) in Hc. injection Hc as Hc.
        pose proof (Z.div_mod value base ltac:(lia)) as Hdiv.
        rewrite Hq, <- Hc in Hdiv. lia.
    + pose proof (ConvertNumbersFacts.quotient_below base value fuel
                    ltac:(lia) ltac:(lia)) as Hbelow.
      destruct (IH base (value / base) (digits ++ [String c ""]) Hb ltac:(lia))
        as (ds & c' & -> & Hc').
      exists (String c "" :: ds), c'. split; [|exact Hc'].
      now rewrite <- app_assoc.
Qed.

(** X3: what [to_base] returns for a base from 2 to 16 is a numeral in
    canonical form: ["0"], or digits below the base that do not start with
    ["0"], with ["-"] in front exactly when the number is negative. *)
Theorem to_base_canonical (base n : Z) (s : string) :
  2 <= base <= 16 ->
  returns (fun fuel => to_base fuel n base) (Ok s) ->
  canonical_numeral base s = true /\ is_negative_numeral s = (n <? 0).
Proof.
  intros Hb Hs.
  destruct (Z.eq_dec n 0) as [->|Hn].
  - pose proof (returns_unique _ _ _ Hs
                  (ex_intro _ 0%nat (ConvertNumbersFacts.to_base_zero base 0 Hb)))
      as Es.
    injection Es as ->. now split.
  - pose proof (ConvertNumbersFacts.bits_bound (Z.abs n) ltac:(lia)) as Hbits.
    destruct (digit_loop_shape (bits (Z.abs n)) base (Z.abs n) [] Hb ltac:(lia))
      as (ds & c & Hloop & Hc).
    destruct (ConvertNumbersFacts.digit_loop_returns base (Z.abs n) [] Hb
                ltac:(lia)) as (ds1 & Hret & Hval).
    rewrite (Hret (bits (Z.abs n)) ltac:(lia)) in Hloop.
    injection Hloop as ->.
    pose proof (ConvertNumbersFacts.to_base_from_digits _ n base _ Hb Hn Hret)
      as Hrun.
    cbn [app] in Hrun.
    pose proof (returns_unique _ _ _ Hs (ex_intro _ (bits (Z.abs n)) Hrun)) as Es.
    injection Es as ->.
    rewrite rev_app_distr in *. cbn [rev app concat_strings fold_right] in *.
    fold (concat_strings (rev ds)) in *. rewrite string_app_cons in *.
    rewrite string_app_nil_l in *.
    pose proof (ConvertNumbersFacts.numeral_not_minus _ _ _ _ Hval) as Hminus.
    pose proof (numeral_digits_below _ _ _ _ Hval) as Hdigits.
    unfold canonical_numeral, is_negative_numeral, magnitude_part.
    destruct (Z.ltb_spec n 0) as [Hneg|Hpos].
    + rewrite string_app_cons, string_app_nil_l.
      change (Ascii.eqb "-" "-") with true. cbv iota.
      cbn [leading_nonzero]. rewrite Hc, Hdigits. cbn [negb andb].
      split; [apply orb_true_r|reflexivity].
    + rewrite string_app_nil_l. rewrite Hminus.
      cbn [leading_nonzero]. rewrite Hc, Hdigits. cbn [negb andb].
      split; [apply orb_true_r|reflexivity].
Qed.

Lemma to_base_canonical_witness :
  canonical_numeral 2 "-1010" = true /\ is_negative_numeral "-1010" = (-10 <? 0).
Proof.
  apply (to_base_canonical 2 (-10) "-1010"); [lia|].
  exists 5%nat. intros fuel Hfuel.
  do 5 (destruct fuel as [|fuel]; [lia|]). reflexivity.
Defined.

End ToBaseMore.

(** ** convertNumbers.py: the report of [main] *)

Module ConvertMore.
Import ConvertNumbers.

Lemma convert_rows_spec (numbers : list Z) :
  forall (lines : list string) (item_no : Z),
  exists k rows,
    returns_within k (fun fuel => convert_rows fuel numbers lines item_no)
      (Ok (lines ++ rows))
    /\ length rows = length numbers
    /\ forall i n, numbers !! i = Some n ->
         exists b2 b16,
           rows !! i
           = Some (str_of_int (item_no + Z.of_nat i) +:+ TAB +:+ str_of_int n
                   +:+ TAB +:+ b2 +:+ TAB +:+ b16)
           /\ parse_numeral 2 b2 = Some n
           /\ parse_numeral 16 b16 = Some n.
Proof.
  induction numbers as [|n numbers IH]; intros lines item_no.
  - exists 0%nat, []. rewrite app_nil_r. split; [|split].
    + intros fuel _. reflexivity.
    + reflexivity.
    + intros i n Hi. discriminate.
  - destruct (ConvertNumbersFacts.to_base_reads_back n 2 ltac:(lia))
      as (b2 & Hb2 & Hp2).
    destruct (ConvertNumbersFacts.to_base_reads_back n 16 ltac:(lia))
      as (b16 & Hb16 & Hp16).
    set (line := str_of_int item_no +:+ TAB +:+ str_of_int n +:+ TAB
                 +:+ b2 +:+ TAB +:+ b16).
    destruct (IH (lines ++ [line]) (item_no + 1)) as (k & rows & Hrest & Hlen & Hrows).
    exists (Nat.max (bits (Z.abs n)) k), (line :: rows). split; [|split].
    + intros fuel Hfuel. cbn [convert_rows].
      rewrite (Hb2 fuel) by lia. cbn [fbind].
      rewrite (Hb16 fuel) by lia. cbn [fbind].
      fold line. rewrite (Hrest fuel) by lia. now rewrite <- app_assoc.
    + cbn [length]. now rewrite Hlen.
    + intros [|i] m Hi.
      * injection Hi as <-. exists b2, b16. split; [|now split].
        change ((line :: rows) !! 0%nat) with (Some line).
        subst line. now rewrite Z.add_0_r.
      * change ((n :: numbers) !! S i) with (numbers !! i) in Hi.
        destruct (Hrows i m Hi) as (c2 & c16 & Hrow & Hc2 & Hc16).
        exists c2, c16. split; [|now split].
        change ((line :: rows) !! S i) with (rows !! i).
        rewrite Hrow. do 3 f_equal. lia.
Qed.

(** X4: run on one file whose bytes are UTF-8, the conversion tool prints
    the error lines and then the report, writes the report, without the
    error lines, to the results file, and exits with 0: the header, one row
    for each integer parsed, in the order of the file and numbered from 1,
    and the line of the elapsed time.  The binary and the hexadecimal column
    of a row read back as its integer.  On a file that is not UTF-8 the
    [UnicodeDecodeError] leaves [main]: nothing is printed or written. *)
Theorem convert_report (fs : filesystem) (elapsed prog path : string) :
  match fs path with
  | FileUndecodable detail =>
      forall fuel,
        main fuel fs elapsed [prog; path]
        = Some (Raise (UnicodeDecodeError detail))
  | _ =>
      exists numbers errors rows,
        parse_integers fs path = Ok (numbers, errors)
        /\ length rows = length numbers
        /\ (forall i n, numbers !! i = Some n ->
              exists b2 b16,
                rows !! i
                = Some (str_of_int (1 + Z.of_nat i) +:+ TAB +:+ str_of_int n
                        +:+ TAB +:+ b2 +:+ TAB +:+ b16)
                /\ parse_numeral 2 b2 = Some n
                /\ parse_numeral 16 b16 = Some n)
        /\ returns (fun fuel => main fuel fs elapsed [prog; path])
             (Ok {| exit_code := 0;
                    console :=
                      map (fun err => "ERROR: " +:+ err) errors
                      ++ ["ITEM" +:+ TAB +:+ "DEC" +:+ TAB +:+ "BIN" +:+ TAB
                          +:+ "HEX"]
                      ++ rows ++ ["Time Elapsed (s):" +:+ TAB +:+ elapsed];
                    results_file :=
                      Some (write_results
                              (["ITEM" +:+ TAB +:+ "DEC" +:+ TAB +:+ "BIN"
                                +:+ TAB +:+ "HEX"]
                               ++ rows
                               ++ ["Time Elapsed (s):" +:+ TAB +:+ elapsed]))
                 |})
  end.
Proof.
  assert (forall numbers errors,
            parse_integers fs path = Ok (numbers, errors) ->
            exists numbers errors rows,
              parse_integers fs path = Ok (numbers, errors)
              /\ length rows = length numbers
              /\ (forall i n, numbers !! i = Some n ->
                    exists b2 b16,
                      rows !! i
                      = Some (str_of_int (1 + Z.of_nat i) +:+ TAB
                              +:+ str_of_int n +:+ TAB +:+ b2 +:+ TAB +:+ b16)
                      /\ parse_numeral 2 b2 = Some n
                      /\ parse_numeral 16 b16 = Some n)
              /\ returns (fun fuel => main fuel fs elapsed [prog; path])
                   (Ok {| exit_code := 0;
                          console :=
                            map (fun err => "ERROR: " +:+ err) errors
                            ++ ["ITEM" +:+ TAB +:+ "DEC" +:+ TAB +:+ "BIN"
                                +:+ TAB +:+ "HEX"]
                            ++ rows
                            ++ ["Time Elapsed (s):" +:+ TAB +:+ elapsed];
                          results_file :=
                            Some (write_results
                                    (["ITEM" +:+ TAB +:+ "DEC" +:+ TAB +:+ "BIN"
                                      +:+ TAB +:+ "HEX"]
                                     ++ rows
                                     ++ ["Time Elapsed (s):" +:+ TAB
                                         +:+ elapsed])) |})) as Hread.
  { intros numbers errors Hparse.
    destruct (convert_rows_spec numbers
                ["ITEM" +:+ TAB +:+ "DEC" +:+ TAB +:+ "BIN" +:+ TAB +:+ "HEX"] 1)
      as (k & rows & Hrun & Hlen & Hrows).
    exists numbers, errors, rows. split; [exact Hparse|].
    split; [exact Hlen|]. split; [exact Hrows|].
    exists k. intros fuel Hfuel. unfold main.
    change (negb (Z.of_nat (length [prog; path]) =? 2)) with false.
    change (list_index [prog; path] 1) with (Ok path). cbn [fbind].
    rewrite Hparse. cbn [fbind]. rewrite (Hrun fuel Hfuel). cbn [fbind].
    now rewrite <- !app_assoc. }
  destruct (fs path) as [lines| |exc|detail] eqn:Hfs.
  - destruct (fold_left parse_line (enumerate1 lines) ([], []))
      as [numbers errors] eqn:Hfold.
    apply (Hread numbers errors). unfold parse_integers.
    now rewrite Hfs, Hfold.
  - eapply Hread. unfold parse_integers. now rewrite Hfs.
  - eapply Hread. unfold parse_integers. now rewrite Hfs.
  - intros fuel. unfold main, parse_integers.
    change (negb (Z.of_nat (length [prog; path]) =? 2)) with false.
    change (list_index [prog; path] 1) with (Ok path). cbn [fbind].
    now rewrite Hfs.
Qed.

End ConvertMore.

(** ** computeStatistics.py: sorting again, the median, no exception *)

Module StatisticsMore.
Import Statistics.

Lemma StronglySorted_lookup_pair {A} (R : A -> A -> Prop) (l : list A)
    (i j : nat) (x y : A) :
  StronglySorted R l -> (i < j)%nat -> l !! i = Some x -> l !! j = Some y ->
  R x y.
Proof.
  intros Hl Hij Hx Hy. rewrite <- (take_drop_middle l j y Hy) in Hl.
  apply (StronglySorted_app_1_elem_of R _ _ x y Hl); [|constructor].
  apply (list_elem_of_lookup_2 _ i). now rewrite lookup_take_lt.
Qed.

Section MoreStatistics.
Context {V : Type} `{Number V}.

(** X5: on a list that is not empty none of the statistics raises: [mean],
    [median] and [variance_population] return a value, and
    [stddev_population] returns the square root of that variance. *)
Theorem statistics_defined (values : list V) :
  values <> [] ->
  exists mu med var,
    mean values = Ok mu
    /\ median values = Ok med
    /\ variance_population values = Ok var
    /\ stddev_population values = Ok (num_pow_half var).
Proof.
  intros Hne.
  destruct (MainFacts.mean_ok values Hne) as [mu Hmu].
  destruct (MainFacts.median_ok values Hne) as [med Hmed].
  destruct (MainFacts.variance_ok values Hne) as [var Hvar].
  exists mu, med, var. split; [exact Hmu|]. split; [exact Hmed|].
  split; [exact Hvar|]. unfold stddev_population. now rewrite Hvar.
Qed.

Lemma find_min_sorted (arr : list V) (i : Z) :
  StronglySorted (fun x y => num_lt y x = false) arr ->
  0 <= i < Z.of_nat (length arr) ->
  find_min list_index (Z.of_nat (length arr)) arr i = Ok i.
Proof.
  intros Hsorted Hi.
  destruct (for_each_range (fun (_ : Z) (m : Z) => m = i)
    (fun min_idx j =>
       let* aj := list_index arr j in
       let* am := list_index arr min_idx in
       Ok (if num_lt aj am then j else min_idx))
    (i + 1) (Z.of_nat (length arr)) i) as (m & Hm & ->);
    [lia|reflexivity| |exact Hm].
  intros j m Hj ->.
  destruct (list_index_range arr j ltac:(lia)) as (aj & -> & Haj).
  destruct (list_index_range arr i ltac:(lia)) as (ai & -> & Hai).
  cbn [rbind]. eexists; split; [reflexivity|].
  now rewrite (StronglySorted_lookup_pair _ arr (Z.to_nat i) (Z.to_nat j) ai aj
                 Hsorted ltac:(lia) Hai Haj).
Qed.

Lemma selection_sort_fixed (values : list V) :
  StronglySorted (fun x y => num_lt y x = false) values ->
  selection_sort values = Ok values.
Proof.
  intros Hsorted. unfold selection_sort, sort_loop.
  destruct (for_each_range (fun (_ : Z) (arr : list V) => arr = values)
    (fun arr i =>
       let* min_idx := find_min list_index (Z.of_nat (length values)) arr i in
       swap list_index list_store arr i min_idx)
    0 (Z.of_nat (length values)) values) as (out & Hout & ->);
    [lia|reflexivity| |exact Hout].
  intros i arr Hi ->.
  rewrite (find_min_sorted values i Hsorted Hi). cbn [rbind].
  destruct (lookup_lt_is_Some_2 values (Z.to_nat i) ltac:(lia)) as [x Hx].
  rewrite (SortFacts.swap_spec values i i x x Hi Hi Hx Hx).
  eexists; split; [reflexivity|].
  cbv beta. now rewrite (list_insert_id values _ x Hx), (list_insert_id values _ x Hx).
Qed.

(** X6: [selection_sort] returns an ascending list as it is, and sorting
    its result once more changes nothing. *)
Theorem selection_sort_idempotent (values : list V) :
  (StronglySorted (fun x y => num_lt y x = false) values ->
   selection_sort values = Ok values)
  /\ ((forall x : V, num_lt x x = false) ->
      (forall x y z : V,
         num_lt x y = true -> num_lt y z = true -> num_lt x z = true) ->
      exists out, selection_sort values = Ok out /\ selection_sort out = Ok out).
Proof.
  split; [apply selection_sort_fixed|]. intros Hirr Htrans.
  destruct (SortFacts.selection_sort_spec Hirr Htrans values)
    as (out & Hout & _ & Hsorted).
  exists out. split; [exact Hout|now apply selection_sort_fixed].
Qed.

(** X7: the median splits the values in the middle.  The values can be
    arranged as a left part, the middle and a right part of the same length
    as the left one, with nothing in the left part above the middle and
    nothing in the right part below it; the middle is one value, which
    [median] returns, when the number of values is odd, and two values [a]
    and [b], of which [median] returns [(a + b) / 2.0], when it is even. *)
Theorem median_is_middle (values : list V) :
  (forall x : V, num_lt x x = false) ->
  (forall x y z : V, num_lt x y = true -> num_lt y z = true -> num_lt x z = true) ->
  values <> [] ->
  exists pre post,
    length pre = length post
    /\ ((exists m,
           values ≡ₚ pre ++ m :: post
           /\ median values = Ok m
           /\ (forall x, x ∈ pre -> num_lt m x = false)
           /\ (forall y, y ∈ post -> num_lt y m = false))
        \/ (exists a b,
              values ≡ₚ pre ++ a :: b :: post
              /\ median values = Ok (num_div (num_add a b) num_two)
              /\ (forall x, x ∈ pre -> num_lt a x = false)
              /\ num_lt b a = false
              /\ (forall y, y ∈ post -> num_lt y b = false))).
Proof.
  intros Hirr Htrans Hne.
  destruct (SortFacts.selection_sort_spec Hirr Htrans values)
    as (out & Hout & Hperm & Hsorted).
  unfold median. rewrite Hout. cbn [rbind].
  assert (0 < Z.of_nat (length out)) as Hpos.
  { rewrite (Permutation_length Hperm). destruct values; [contradiction|].
    cbn [length]. lia. }
  set (n := Z.of_nat (length out)) in *.
  pose proof (Z.div_mod n 2 ltac:(lia)) as Hdiv.
  pose proof (Z.mod_pos_bound n 2 ltac:(lia)) as Hmod.
  destruct (Z.eqb_spec (n mod 2) 1) as [Hodd|Heven].
  - destruct (list_index_range out (n / 2) ltac:(lia)) as (m & -> & Hm).
    pose proof (take_drop_middle out _ m Hm) as Hsplit.
    exists (take (Z.to_nat (n / 2)) out), (drop (S (Z.to_nat (n / 2))) out).
    split; [rewrite length_take, length_drop; lia|]. left. exists m.
    rewrite <- Hsplit in Hsorted. split; [now rewrite Hsplit|].
    split; [reflexivity|]. split.
    + intros x Hx.
      apply (StronglySorted_app_1_elem_of _ _ _ x m Hsorted Hx). constructor.
    + intros y Hy. apply StronglySorted_app_1_r, StronglySorted_inv in Hsorted.
      destruct Hsorted as [_ Hall]. rewrite Forall_forall in Hall.
      now apply Hall.
  - destruct (list_index_range out (n / 2 - 1) ltac:(lia)) as (a & -> & Ha).
    destruct (list_index_range out (n / 2) ltac:(lia)) as (b & -> & Hb).
    cbn [rbind].
    pose proof (take_drop_middle out _ a Ha) as Hsplit.
    replace (S (Z.to_nat (n / 2 - 1))) with (Z.to_nat (n / 2)) in Hsplit by lia.
    pose proof (drop_S out b (Z.to_nat (n / 2)) Hb) as Hdrop.
    rewrite Hdrop in Hsplit.
    exists (take (Z.to_nat (n / 2 - 1)) out), (drop (S (Z.to_nat (n / 2))) out).
    split; [rewrite length_take, length_drop; lia|]. right. exists a, b.
    rewrite <- Hsplit in Hsorted. split; [now rewrite Hsplit|].
    split; [reflexivity|]. split; [|split].
    + intros x Hx.
      apply (StronglySorted_app_1_elem_of _ _ _ x a Hsorted Hx). constructor.
    + apply StronglySorted_app_1_r, StronglySorted_inv in Hsorted.
      destruct Hsorted as [_ Hall]. rewrite Forall_forall in Hall.
      apply Hall. constructor.
    + intros y Hy. apply StronglySorted_app_1_r, StronglySorted_inv in Hsorted.
      destruct Hsorted as [Hrest _]. apply StronglySorted_inv in Hrest.
      destruct Hrest as [_ Hall]. rewrite Forall_forall in Hall.
      now apply Hall.
Qed.

End MoreStatistics.

Lemma statistics_defined_witness :
  exists mu med var,
    mean [1; 2; 4]%float = Ok mu
    /\ median [1; 2; 4]%float = Ok med
    /\ variance_population [1; 2; 4]%float = Ok var
    /\ stddev_population [1; 2; 4]%float = Ok (num_pow_half var).
Proof. apply (statistics_defined [1; 2; 4]%float). discriminate. Defined.

Lemma median_is_middle_witness :
  exists pre post,
    length pre = length post
    /\ ((exists m,
           [3; 1; 2]%float ≡ₚ pre ++ m :: post
           /\ median [3; 1; 2]%float = Ok m
           /\ (forall x, x ∈ pre -> num_lt m x = false)
           /\ (forall y, y ∈ post -> num_lt y m = false))
        \/ (exists a b,
              [3; 1; 2]%float ≡ₚ pre ++ a :: b :: post
              /\ median [3; 1; 2]%float = Ok (num_div (num_add a b) num_two)
              /\ (forall x, x ∈ pre -> num_lt a x = false)
              /\ num_lt b a = false
              /\ (forall y, y ∈ post -> num_lt y b = false))).
Proof.
  apply (median_is_middle [3; 1; 2]%float).
  - apply (num_lt_irrefl (NumberOrder:=FloatOrder.float_sqrt_order)).
  - apply (num_lt_trans (NumberOrder:=FloatOrder.float_sqrt_order)).
  - discriminate.
Defined.

End StatisticsMore.

(** ** [mode]: the order of the input, the counts, the other scripts *)

Module ModeMore.
Import Statistics.

Section MoreMode.
Context {V : Type} `{NumberOrder V}.

Lemma occurrences_perm (v : V) (l l' : list V) :
  l ≡ₚ l' -> occurrences v l = occurrences v l'.
Proof.
  induction 1 as [|x l l' _ IH|x y l|l l' l'' _ IH1 _ IH2]; cbn [occurrences];
    lia.
Qed.

Lemma repeated_self_equal (v : V) (l : list V) :
  0 < occurrences v l -> num_eq v v = true.
Proof.
  intros Hv. destruct (num_eq v v) eqn:E; [reflexivity|].
  rewrite (ModeFacts.occurrences_unequal v l E) in Hv. lia.
Qed.

(** X8: [mode] does not depend on the order of the values: two lists with
    the same values, in any two orders, both have no mode or have modes that
    are equal under [==]. *)
Theorem mode_permutation (values values' : list V) :
  values ≡ₚ values' ->
  match mode values, mode values' with
  | Some a, Some b => num_eq a b = true
  | None, None => True
  | _, _ => False
  end.
Proof.
  intros Hperm.
  destruct (decide (Exists (fun v => 1 < occurrences v values) values))
    as [Hsome|Hnone].
  - apply Exists_exists in Hsome as (v & Hv & Htwice).
    destruct (ModeFacts.mode_some values (ex_intro _ v (conj Hv Htwice)))
      as (m & -> & Hm & Hmax & Hleast).
    destruct (ModeFacts.mode_some values')
      as (m' & -> & Hm' & Hmax' & Hleast').
    { exists v. split; [now rewrite <- Hperm|].
      now rewrite <- (occurrences_perm v values values' Hperm). }
    rewrite <- Hperm in Hm'.
    assert (occurrences m values = occurrences m' values) as Htie.
    { pose proof (Hmax m' Hm').
      pose proof (Hmax' m ltac:(now rewrite <- Hperm)) as Hle.
      rewrite <- !(occurrences_perm _ values values' Hperm) in Hle. lia. }
    pose proof (Hmax v Hv) as Hbig.
    apply num_lt_total.
    + apply (repeated_self_equal m values). lia.
    + apply (repeated_self_equal m' values). lia.
    + apply Hleast'; [now rewrite <- Hperm|].
      now rewrite <- !(occurrences_perm _ values values' Hperm).
    + apply Hleast; [exact Hm'|]. now symmetry.
  - assert (forall v, v ∈ values -> occurrences v values <= 1) as Hsingle.
    { intros v Hv. destruct (Z.le_gt_cases (occurrences v values) 1) as [?|Hgt];
        [assumption|].
      exfalso. apply Hnone. apply Exists_exists. exists v. split; [exact Hv|lia]. }
    rewrite (ModeFacts.mode_none values Hsingle).
    rewrite (ModeFacts.mode_none values'); [exact I|].
    intros v Hv. rewrite <- (occurrences_perm v values values' Hperm).
    apply Hsingle. now rewrite Hperm.
Qed.

End MoreMode.

Lemma mode_permutation_witness :
  match mode [3; 2; 3; 2; 1]%float, mode [1; 2; 2; 3; 3]%float with
  | Some a, Some b => num_eq a b = true
  | None, None => True
  | _, _ => False
  end.
Proof.
  apply (mode_permutation (H0:=FloatOrder.float_sqrt_order)).
  change [3; 2; 3; 2; 1]%float with (rev [1; 2; 3; 2; 3]%float).
  rewrite <- Permutation_rev. do 2 apply perm_skip. apply perm_swap.
Defined.

Section Counts.
Context {K : Type} (eqb : K -> K -> bool).

Lemma dict_sum_app (d d' : list (K * Z)) :
  dict_sum (d ++ d') = dict_sum d + dict_sum d'.
Proof.
  induction d as [|e d IH]; cbn [app dict_sum fold_right]; [reflexivity|].
  fold (dict_sum (d ++ d')). fold (dict_sum d). lia.
Qed.

(** Setting a key to a count one above the count it had adds one to the
    sum. *)
Lemma dict_sum_increment (d : list (K * Z)) (k : K) :
  dict_sum (dict_set eqb d k (dict_get eqb d k 0 + 1)) = dict_sum d + 1.
Proof.
  unfold dict_get.
  induction d as [|[k0 c0] d IH]; cbn [dict_set dict_find]; [reflexivity|].
  destruct (eqb k0 k); cbn [dict_sum fold_right fst snd].
  - fold (dict_sum d). lia.
  - fold (dict_sum (dict_set eqb d k
                      (match dict_find eqb d k with
                       | Some v => v
                       | None => 0
                       end + 1))).
    fold (dict_sum d). rewrite IH. lia.
Qed.
End Counts.

Lemma frequencies_sum_from {V : Type} `{Number V} (values : list V) :
  forall freq,
    dict_sum
      (fold_left
         (fun freq v => dict_set num_eq freq v (dict_get num_eq freq v 0 + 1))
         values freq)
    = dict_sum freq + Z.of_nat (length values).
Proof.
  induction values as [|v values IH]; intros freq; cbn [fold_left length];
    [lia|].
  rewrite IH, dict_sum_increment. lia.
Qed.

(** X9: the counts of the frequency table of [mode] sum to the number of
    values. *)
Theorem frequencies_sum {V : Type} `{Number V} (values : list V) :
  dict_sum (frequencies values) = Z.of_nat (length values).
Proof. unfold frequencies. now rewrite frequencies_sum_from. Qed.

Lemma best_steps_agree {V : Type} `{Number V} (items : list (V * Z)) :
  forall st,
    fold_left (StatisticsVariants.best_step (V:=V)) items st
    = fold_left best_step items st.
Proof.
  assert (forall st entry,
            StatisticsVariants.best_step (V:=V) st entry = best_step st entry)
    as Hstep.
  { intros [bc bv] [v c]. unfold StatisticsVariants.best_step, best_step.
    destruct (Z.ltb_spec bc c); cbn [orb]; [reflexivity|].
    destruct (Z.eqb_spec c bc) as [->|]; cbn [andb]; [|reflexivity].
    now destruct bv as [b|]; [destruct (num_lt v b)|]. }
  induction items as [|e items IH]; intros st; cbn [fold_left]; [reflexivity|].
  now rewrite Hstep, IH.
Qed.

Lemma mode_copy_eq {V : Type} `{Number V} (values : list V) :
  StatisticsVariants.mode_copy values = mode values.
Proof.
  unfold StatisticsVariants.mode_copy, mode, mode_of_items.
  now rewrite best_steps_agree.
Qed.

Lemma mode_short_eq {V : Type} `{Number V} (values : list V) :
  StatisticsVariants.mode values = mode values.
Proof.
  unfold StatisticsVariants.mode, mode, mode_of_items.
  rewrite best_steps_agree.
  destruct (fold_left best_step (dict_items (frequencies values)) (0, None))
    as [bc bv].
  destruct (Z.ltb_spec 1 bc), (Z.leb_spec bc 1); try reflexivity; lia.
Qed.

(** X10: the three scripts of the statistics tool compute the same mode:
    the loop with one condition joined by [or] does what the loop with
    [if] and [elif] does. *)
Theorem mode_variants_agree {V : Type} `{Number V} (values : list V) :
  StatisticsVariants.mode values = mode values
  /\ StatisticsVariants.mode_copy values = mode values.
Proof. split; [apply mode_short_eq|apply mode_copy_eq]. Qed.

End ModeMore.

(** ** The [main] functions of the other statistics scripts *)

Module VariantMains.
Import StatisticsVariants.

Section Mains.
Context {V : Type} `{Number V} `{NumberText V}.

(** Where the file can be opened or is missing, [parse_numbers] of the two
    scripts does what [parse_numbers] of [computeStatistics.py] does. *)
Lemma parse_numbers_run (fs : filesystem) (path : string) :
  StatisticsVariants.parse_numbers (V:=V) fs path
  = match fs path with
    | FileUnreadable exc => Failed (OSError exc)
    | _ => lift (Statistics.parse_numbers fs path)
    end.
Proof.
  unfold StatisticsVariants.parse_numbers, Statistics.parse_numbers.
  now destruct (fs path).
Qed.

Lemma parse_numbers_read (fs : filesystem) (path : string) :
  match fs path with
  | FileLines _ | FileNotFound =>
      exists numbers errors,
        Statistics.parse_numbers (V:=V) fs path = Ok (numbers, errors)
        /\ StatisticsVariants.parse_numbers (V:=V) fs path
           = Finished (numbers, errors)
  | _ => True
  end.
Proof.
  unfold StatisticsVariants.parse_numbers, Statistics.parse_numbers.
  destruct (fs path) as [lines| |exc|detail]; try exact I.
  - destruct (fold_left Statistics.parse_line (enumerate1 lines) ([], []))
      as [numbers errors].
    now exists numbers, errors.
  - now eexists _, _.
Qed.

Lemma statistics_unreadable (fs : filesystem) (elapsed prog path exc : string) :
  fs path = FileUnreadable exc ->
  exists msg,
    Statistics.main (V:=V) fs elapsed [prog; path]
    = Ok {| exit_code := 1;
            console :=
              ["ERROR: Could not read file '" +:+ path +:+ "': " +:+ exc; msg];
            results_file := Some msg |}.
Proof.
  intros Hfs. unfold Statistics.main, Statistics.parse_numbers.
  change (negb (Z.of_nat (length [prog; path]) =? 2)) with false.
  change (list_index [prog; path] 1) with (Ok path). cbn [rbind].
  rewrite Hfs. eexists. reflexivity.
Qed.

Lemma statistics_undecodable (fs : filesystem)
    (elapsed prog path detail : string) :
  fs path = FileUndecodable detail ->
  Statistics.main (V:=V) fs elapsed [prog; path]
  = Raise (UnicodeDecodeError detail).
Proof.
  intros Hfs. unfold Statistics.main, Statistics.parse_numbers.
  change (negb (Z.of_nat (length [prog; path]) =? 2)) with false.
  change (list_index [prog; path] 1) with (Ok path). cbn [rbind].
  now rewrite Hfs.
Qed.

(** What [main] of [convert_numbers.py] does with what was parsed. *)
Lemma copy_read (fs : filesystem) (elapsed prog path : string)
    (numbers : list V) (errors : list string) :
  Statistics.parse_numbers fs path = Ok (numbers, errors) ->
  StatisticsVariants.parse_numbers fs path = Finished (numbers, errors) ->
  match numbers with
  | [] =>
      main_copy (V:=V) fs elapsed [prog; path]
      = Finished
          {| exit_code := 1;
             console := map (fun err => "ERROR: " +:+ err) errors;
             results_file := None |}
  | _ :: _ =>
      main_copy (V:=V) fs elapsed [prog; path]
      = lift (Statistics.main fs elapsed [prog; path])
  end.
Proof.
  intros Hp Hrun. unfold main_copy, Statistics.main.
  change (negb (Z.of_nat (length [prog; path]) =? 2)) with false.
  change (list_index [prog; path] 1) with (Ok path).
  cbn [rbind lift run_bind]. rewrite Hp, Hrun. cbn [rbind run_bind].
  destruct numbers as [|x numbers]; [reflexivity|].
  destruct (Z.eqb_spec (Z.of_nat (length (x :: numbers))) 0) as [Hlen|_];
    [cbn [length] in Hlen; lia|].
  unfold format_results_copy, Statistics.format_results.
  rewrite (ModeMore.mode_copy_eq (x :: numbers)).
  destruct (Statistics.mean (x :: numbers)); cbn [rbind lift run_bind];
    [|reflexivity].
  destruct (Statistics.median (x :: numbers)); cbn [rbind lift run_bind];
    [|reflexivity].
  destruct (Statistics.variance_population (x :: numbers));
    cbn [rbind lift run_bind]; [|reflexivity].
  destruct (Statistics.stddev_population (x :: numbers));
    cbn [rbind lift run_bind]; reflexivity.
Qed.

Lemma copy_fails (fs : filesystem) (elapsed prog path : string) (e : error) :
  StatisticsVariants.parse_numbers (V:=V) fs path = Failed e ->
  main_copy (V:=V) fs elapsed [prog; path] = Failed e.
Proof.
  intros Hrun. unfold main_copy.
  change (negb (Z.of_nat (length [prog; path]) =? 2)) with false.
  change (list_index [prog; path] 1) with (Ok path).
  cbn [lift run_bind]. now rewrite Hrun.
Qed.

(** X11: [main] of [convert_numbers.py] against [main] of
    [computeStatistics.py], run on one file.  When a number was parsed the
    two leave the same exit code, the same console text and the same results
    file.  When the file was read or is missing and gave no number,
    [convert_numbers.py] exits 1 having printed the error lines only and
    written no file.  When the file cannot be opened, the [OSError] leaves
    [main] of [convert_numbers.py], while [computeStatistics.py] reports it
    and exits 1.  When the file is not UTF-8, the [UnicodeDecodeError]
    leaves both. *)
Theorem statistics_copy_agrees (fs : filesystem) (elapsed prog path : string) :
  match fs path with
  | FileUnreadable exc =>
      main_copy (V:=V) fs elapsed [prog; path] = Failed (OSError exc)
      /\ exists msg,
           Statistics.main (V:=V) fs elapsed [prog; path]
           = Ok {| exit_code := 1;
                   console :=
                     ["ERROR: Could not read file '" +:+ path +:+ "': " +:+ exc;
                      msg];
                   results_file := Some msg |}
  | FileUndecodable detail =>
      main_copy (V:=V) fs elapsed [prog; path]
      = Failed (Exn (UnicodeDecodeError detail))
      /\ Statistics.main (V:=V) fs elapsed [prog; path]
         = Raise (UnicodeDecodeError detail)
  | _ =>
      exists numbers errors,
        Statistics.parse_numbers (V:=V) fs path = Ok (numbers, errors)
        /\ match numbers with
           | [] =>
               main_copy (V:=V) fs elapsed [prog; path]
               = Finished
                   {| exit_code := 1;
                      console := map (fun err => "ERROR: " +:+ err) errors;
                      results_file := None |}
           | _ :: _ =>
               main_copy (V:=V) fs elapsed [prog; path]
               = lift (Statistics.main fs elapsed [prog; path])
           end
  end.
Proof.
  pose proof (parse_numbers_run fs path) as Hrun.
  pose proof (parse_numbers_read fs path) as Hread.
  destruct (fs path) as [lines| |exc|detail] eqn:Hfs.
  - destruct Hread as (numbers & errors & Hp & Hp').
    exists numbers, errors. split; [exact Hp|]. now apply copy_read.
  - destruct Hread as (numbers & errors & Hp & Hp').
    exists numbers, errors. split; [exact Hp|]. now apply copy_read.
  - split; [now apply copy_fails|now apply statistics_unreadable].
  - split; [|now apply statistics_undecodable].
    apply copy_fails. unfold StatisticsVariants.parse_numbers. now rewrite Hfs.
Qed.

Variable py_sum : list V -> V.
Variable square : V -> option V.

Lemma squares_spec (mu : V) (values : list V) :
  (squares square mu values = Failed OverflowError
   /\ exists v, v ∈ values /\ square (num_sub v mu) = None)
  \/ (exists sqs, squares square mu values = Finished sqs
      /\ forall v, v ∈ values -> is_Some (square (num_sub v mu))).
Proof.
  induction values as [|v values IH]; cbn [squares].
  - right. exists []. split; [reflexivity|]. intros v Hv. inversion Hv.
  - destruct (square (num_sub v mu)) as [sq|] eqn:Hsq.
    + destruct IH as [(-> & w & Hw & Hno)|(sqs & -> & Hall)]; cbn [run_bind].
      * left. split; [reflexivity|]. exists w.
        split; [now apply elem_of_cons; right|exact Hno].
      * right. eexists; split; [reflexivity|].
        intros w [->|Hw]%elem_of_cons; [now rewrite Hsq|now apply Hall].
    + left. split; [reflexivity|]. exists v. split; [constructor|exact Hsq].
Qed.

Lemma short_fails (fs : filesystem) (elapsed prog path : string) (e : error) :
  StatisticsVariants.parse_numbers (V:=V) fs path = Failed e ->
  main py_sum square fs elapsed [prog; path] = Failed e.
Proof.
  intros Hrun. unfold main.
  change (negb (Z.of_nat (length [prog; path]) =? 2)) with false.
  change (list_index [prog; path] 1) with (Ok path).
  cbn [lift run_bind]. now rewrite Hrun.
Qed.

(** What the two [main] functions do with what was parsed. *)
Lemma short_read (fs : filesystem) (elapsed prog path : string)
    (numbers : list V) (errors : list string) :
  Statistics.parse_numbers fs path = Ok (numbers, errors) ->
  StatisticsVariants.parse_numbers fs path = Finished (numbers, errors) ->
  let printed := map (fun err => "ERROR: " +:+ err) errors in
  match numbers with
  | [] =>
      main py_sum square fs elapsed [prog; path]
      = Finished {| exit_code := 1; console := printed;
                    results_file := None |}
      /\ exists msg,
           Statistics.main (V:=V) fs elapsed [prog; path]
           = Ok {| exit_code := 1; console := printed ++ [msg];
                   results_file := Some msg |}
  | _ :: _ =>
      exists mu med var std mu',
        Statistics.main (V:=V) fs elapsed [prog; path]
        = Ok {| exit_code := 0;
                console :=
                  printed
                  ++ [Statistics.format_results (Z.of_nat (length numbers))
                        mu med (Statistics.mode numbers) std var elapsed];
                results_file :=
                  Some (Statistics.format_results (Z.of_nat (length numbers))
                          mu med (Statistics.mode numbers) std var elapsed) |}
        /\ mean py_sum numbers = Ok mu'
        /\ (((exists v, v ∈ numbers /\ square (num_sub v mu') = None)
             /\ main py_sum square fs elapsed [prog; path]
                = Failed OverflowError)
            \/ ((forall v, v ∈ numbers -> is_Some (square (num_sub v mu')))
                /\ exists var',
                     main py_sum square fs elapsed [prog; path]
                     = Finished
                         {| exit_code := 0;
                            console :=
                              printed
                              ++ [Statistics.format_results
                                    (Z.of_nat (length numbers)) mu' med
                                    (Statistics.mode numbers)
                                    (num_pow_half var') var' elapsed];
                            results_file :=
                              Some (Statistics.format_results
                                      (Z.of_nat (length numbers)) mu' med
                                      (Statistics.mode numbers)
                                      (num_pow_half var') var' elapsed) |}))
  end.
Proof.
  intros Hp Hrun. cbv zeta. unfold main, Statistics.main.
  change (negb (Z.of_nat (length [prog; path]) =? 2)) with false.
  change (list_index [prog; path] 1) with (Ok path).
  cbn [rbind lift run_bind]. rewrite Hp, Hrun. cbn [rbind run_bind].
  destruct numbers as [|x numbers].
  - split; [reflexivity|]. eexists. reflexivity.
  - destruct (Z.eqb_spec (Z.of_nat (length (x :: numbers))) 0) as [Hlen|_];
      [cbn [length] in Hlen; lia|].
    set (numbers' := x :: numbers).
    assert (numbers' <> []) as Hne by discriminate.
    destruct (MainFacts.mean_ok numbers' Hne) as [mu Hmu].
    destruct (MainFacts.median_ok numbers' Hne) as [med Hmed].
    destruct (MainFacts.variance_ok numbers' Hne) as [var Hvar].
    destruct (MainFacts.stddev_ok numbers' Hne) as [std Hstd].
    assert (exists mu', mean py_sum numbers' = Ok mu') as [mu' Hmu']
      by now apply MainFacts.div_by_count_ok.
    exists mu, med, var, std, mu'.
    rewrite Hmu, Hmed, Hvar, Hstd. cbn [rbind].
    split; [reflexivity|]. split; [exact Hmu'|].
    unfold stddev_population, variance_population.
    rewrite Hmu'. cbn [lift run_bind].
    rewrite (ModeMore.mode_short_eq numbers').
    destruct (squares_spec mu' numbers')
      as [(Hsq & Hno)|(sqs & Hsq & Hall)]; rewrite Hsq; cbn [run_bind].
    + left. now split.
    + right. split; [exact Hall|].
      destruct (MainFacts.div_by_count_ok (py_sum sqs) numbers' Hne)
        as [var' ->].
      cbn [lift run_bind]. exists var'. reflexivity.
Qed.

(** X12: [main] of [compute_statistics.py] against [main] of
    [computeStatistics.py], run on one file.  When the file cannot be opened
    the [OSError] leaves [main] of [compute_statistics.py], while
    [computeStatistics.py] reports it and exits 1; when the file is not
    UTF-8 the [UnicodeDecodeError] leaves both.  With no number parsed
    both exit 1, but [compute_statistics.py] prints the error lines only and
    writes no results file.  With numbers [computeStatistics.py] always
    reports and exits 0; [compute_statistics.py] ends with
    [OverflowError] exactly when the square of a deviation overflows, and
    otherwise reports, with the same count, median and mode, and exits
    0. *)
Theorem statistics_short_differs (fs : filesystem) (elapsed prog path : string) :
  match fs path with
  | FileUnreadable exc =>
      main py_sum square fs elapsed [prog; path] = Failed (OSError exc)
      /\ exists msg,
           Statistics.main (V:=V) fs elapsed [prog; path]
           = Ok {| exit_code := 1;
                   console :=
                     ["ERROR: Could not read file '" +:+ path +:+ "': " +:+ exc;
                      msg];
                   results_file := Some msg |}
  | FileUndecodable detail =>
      main py_sum square fs elapsed [prog; path]
      = Failed (Exn (UnicodeDecodeError detail))
      /\ Statistics.main (V:=V) fs elapsed [prog; path]
         = Raise (UnicodeDecodeError detail)
  | _ =>
      exists numbers errors,
        Statistics.parse_numbers (V:=V) fs path = Ok (numbers, errors)
        /\ let printed := map (fun err => "ERROR: " +:+ err) errors in
           match numbers with
           | [] =>
               main py_sum square fs elapsed [prog; path]
               = Finished {| exit_code := 1; console := printed;
                             results_file := None |}
               /\ exists msg,
                    Statistics.main (V:=V) fs elapsed [prog; path]
                    = Ok {| exit_code := 1; console := printed ++ [msg];
                            results_file := Some msg |}
           | _ :: _ =>
               exists mu med var std mu',
                 Statistics.main (V:=V) fs elapsed [prog; path]
                 = Ok {| exit_code := 0;
                         console :=
                           printed
                           ++ [Statistics.format_results
                                 (Z.of_nat (length numbers))
                                 mu med (Statistics.mode numbers) std var
                                 elapsed];
                         results_file :=
                           Some (Statistics.format_results
                                   (Z.of_nat (length numbers))
                                   mu med (Statistics.mode numbers) std var
                                   elapsed) |}
                 /\ mean py_sum numbers = Ok mu'
                 /\ (((exists v, v ∈ numbers /\ square (num_sub v mu') = None)
                      /\ main py_sum square fs elapsed [prog; path]
                         = Failed OverflowError)
                     \/ ((forall v, v ∈ numbers ->
                            is_Some (square (num_sub v mu')))
                         /\ exists var',
                              main py_sum square fs elapsed [prog; path]
                              = Finished
                                  {| exit_code := 0;
                                     console :=
                                       printed
                                       ++ [Statistics.format_results
                                             (Z.of_nat (length numbers)) mu' med
                                             (Statistics.mode numbers)
                                             (num_pow_half var') var' elapsed];
                                     results_file :=
                                       Some (Statistics.format_results
                                               (Z.of_nat (length numbers)) mu'
                                               med (Statistics.mode numbers)
                                               (num_pow_half var') var' elapsed)
                                  |}))
           end
  end.
Proof.
  pose proof (parse_numbers_run fs path) as Hrun.
  pose proof (parse_numbers_read fs path) as Hread.
  destruct (fs path) as [lines| |exc|detail] eqn:Hfs.
  - destruct Hread as (numbers & errors & Hp & Hp').
    exists numbers, errors. split; [exact Hp|]. now apply short_read.
  - destruct Hread as (numbers & errors & Hp & Hp').
    exists numbers, errors. split; [exact Hp|]. now apply short_read.
  - split; [now apply short_fails|now apply statistics_unreadable].
  - split; [|now apply statistics_undecodable].
    apply short_fails. unfold StatisticsVariants.parse_numbers. now rewrite Hfs.
Qed.

End Mains.
End VariantMains.

(** ** wordCount.py: the words of the list *)

Module WordsMore.
Import WordCount.

Lemma lower_char_idem (c : ascii) : lower_char (lower_char c) = lower_char c.
Proof. destruct c as [[] [] [] [] [] [] [] []]; reflexivity. Qed.

Lemma lower_char_space (c : ascii) : is_space (lower_char c) = is_space c.
Proof. destruct c as [[] [] [] [] [] [] [] []]; reflexivity. Qed.

Lemma lower_idem (s : string) : lower (lower s) = lower s.
Proof.
  induction s as [|c s IH]; cbn [lower]; [reflexivity|].
  now rewrite lower_char_idem, IH.
Qed.

Lemma strip_front_lower (s : string) :
  lower s = s -> lower (strip_front s) = strip_front s.
Proof.
  induction s as [|c s IH]; intros Hs; cbn [strip_front]; [reflexivity|].
  destruct (char_in c PUNCTUATION); [|exact Hs].
  apply IH. cbn [lower] in Hs. now injection Hs.
Qed.

Lemma strip_back_lower (s : string) :
  lower s = s -> lower (strip_back s) = strip_back s.
Proof.
  induction s as [|c s IH]; intros Hs; cbn [strip_back]; [reflexivity|].
  cbn [lower] in Hs. injection Hs as Hc Hs.
  destruct (char_in c PUNCTUATION && is_empty (strip_back s)); [reflexivity|].
  cbn [lower]. now rewrite Hc, (IH Hs).
Qed.

Lemma strip_front_first (s : string) (c : ascii) :
  first_char (strip_front s) = Some c -> char_in c PUNCTUATION = false.
Proof.
  induction s as [|x s IH]; cbn [strip_front]; [discriminate|].
  destruct (char_in x PUNCTUATION) eqn:Hx; [exact IH|].
  cbn [first_char]. now intros [= <-].
Qed.

Lemma strip_back_first (s : string) (c : ascii) :
  first_char (strip_back s) = Some c -> first_char s = Some c.
Proof.
  destruct s as [|x s]; cbn [strip_back]; [discriminate|].
  now destruct (char_in x PUNCTUATION && is_empty (strip_back s)).
Qed.

Lemma strip_back_last (s : string) (c : ascii) :
  last_char (strip_back s) = Some c -> char_in c PUNCTUATION = false.
Proof.
  induction s as [|x s IH]; cbn [strip_back]; [discriminate|].
  destruct (strip_back s) as [|y r] eqn:Hr.
  - cbn [is_empty]. rewrite andb_true_r.
    destruct (char_in x PUNCTUATION) eqn:Hx; [discriminate|].
    cbn [last_char]. now intros [= <-].
  - cbn [is_empty]. rewrite andb_false_r. cbn [last_char]. exact IH.
Qed.

(** X13: what [normalize_token] returns has no punctuation character at its
    start and none at its end, and no capital letter: turning it to lower
    case changes nothing. *)
Theorem normalize_token_clean (token : string) :
  (forall c, first_char (normalize_token token) = Some c ->
     char_in c PUNCTUATION = false)
  /\ (forall c, last_char (normalize_token token) = Some c ->
        char_in c PUNCTUATION = false)
  /\ lower (normalize_token token) = normalize_token token.
Proof.
  unfold normalize_token. split; [|split].
  - intros c Hc. apply strip_back_first in Hc. now apply strip_front_first in Hc.
  - intros c. apply strip_back_last.
  - apply strip_back_lower, strip_front_lower, lower_idem.
Qed.

Lemma no_space_app (a b : string) :
  no_space (a +:+ b) = no_space a && no_space b.
Proof.
  induction a as [|c a IH]; [now rewrite string_app_nil_l|].
  rewrite string_app_cons. cbn [no_space]. rewrite IH. now rewrite andb_assoc.
Qed.

(** The parts of [split] are not empty and hold no white space. *)
Lemma split_ws_parts (s : string) :
  forall cur, no_space cur = true ->
    Forall (fun p => p <> "" /\ no_space p = true) (split_ws s cur).
Proof.
  induction s as [|c s IH]; intros cur Hcur; cbn [split_ws].
  - destruct cur; cbn [is_empty]; [constructor|].
    constructor; [|constructor]. now split.
  - destruct (is_space c) eqn:Hc.
    + destruct cur; cbn [is_empty]; [now apply IH|].
      constructor; [now split|now apply IH].
    + apply IH. rewrite no_space_app, Hcur. cbn [no_space]. now rewrite Hc.
Qed.

Lemma rstrip_no_space (s : string) : no_space s = true -> rstrip s = s.
Proof.
  induction s as [|c s IH]; cbn [no_space rstrip]; [reflexivity|].
  intros [Hc Hs]%andb_true_iff. apply negb_true_iff in Hc.
  now rewrite Hc, (IH Hs).
Qed.

Lemma strip_no_space (s : string) : no_space s = true -> strip s = s.
Proof.
  intros Hs. unfold strip.
  assert (lstrip s = s) as ->; [|now apply rstrip_no_space].
  destruct s as [|c s]; [reflexivity|]. cbn [no_space] in Hs.
  apply andb_true_iff in Hs as [Hc _]. apply negb_true_iff in Hc.
  now apply lstrip_head.
Qed.

Lemma lower_no_space (s : string) : no_space (lower s) = no_space s.
Proof.
  induction s as [|c s IH]; cbn [lower no_space]; [reflexivity|].
  now rewrite lower_char_space, IH.
Qed.

Lemma strip_front_no_space (s : string) :
  no_space s = true -> no_space (strip_front s) = true.
Proof.
  induction s as [|c s IH]; cbn [strip_front]; [reflexivity|]. intros Hs.
  destruct (char_in c PUNCTUATION); [|exact Hs].
  apply IH. cbn [no_space] in Hs. now apply andb_true_iff in Hs as [_ Hs].
Qed.

Lemma strip_back_no_space (s : string) :
  no_space s = true -> no_space (strip_back s) = true.
Proof.
  induction s as [|c s IH]; cbn [strip_back no_space]; [reflexivity|].
  intros [Hc Hs]%andb_true_iff.
  destruct (char_in c PUNCTUATION && is_empty (strip_back s)); [reflexivity|].
  cbn [no_space]. now rewrite Hc, (IH Hs).
Qed.

Lemma strip_front_fixed (s : string) :
  (forall c, first_char s = Some c -> char_in c PUNCTUATION = false) ->
  strip_front s = s.
Proof.
  destruct s as [|c s]; [reflexivity|]. intros Hs. cbn [strip_front].
  now rewrite (Hs c eq_refl).
Qed.

Lemma strip_back_fixed (s : string) :
  (forall c, last_char s = Some c -> char_in c PUNCTUATION = false) ->
  strip_back s = s.
Proof.
  induction s as [|x s IH]; [reflexivity|]. intros Hs. cbn [strip_back].
  destruct s as [|y r].
  - cbn [strip_back is_empty]. now rewrite (Hs x eq_refl).
  - rewrite (IH Hs). cbn [is_empty]. now rewrite andb_false_r.
Qed.

(** A token of [split] comes out of [normalize_token] in a form that
    [normalize_token] leaves as it is. *)
Lemma normalize_fixed (token : string) :
  no_space token = true ->
  no_space (normalize_token token) = true
  /\ normalize_token (normalize_token token) = normalize_token token.
Proof.
  intros Htoken.
  assert (no_space (normalize_token token) = true) as Hw.
  { unfold normalize_token.
    apply strip_back_no_space, strip_front_no_space.
    now rewrite lower_no_space, (strip_no_space token Htoken). }
  split; [exact Hw|].
  assert (lower (normalize_token token) = normalize_token token) as Hlow.
  { unfold normalize_token.
    apply strip_back_lower, strip_front_lower, lower_idem. }
  assert (forall c, first_char (normalize_token token) = Some c ->
            char_in c PUNCTUATION = false) as Hfirst.
  { intros c Hc. unfold normalize_token in Hc.
    apply strip_back_first in Hc. now apply strip_front_first in Hc. }
  assert (forall c, last_char (normalize_token token) = Some c ->
            char_in c PUNCTUATION = false) as Hlast.
  { intros c. unfold normalize_token. apply strip_back_last. }
  set (w := normalize_token token) in *.
  unfold normalize_token at 1.
  now rewrite (strip_no_space w Hw), Hlow, (strip_front_fixed w Hfirst),
    (strip_back_fixed w Hlast).
Qed.

(** X14: on a token without white space, as [split] gives them,
    [normalize_token] is idempotent: a second pass changes nothing. *)
Theorem normalize_token_idempotent (token : string) :
  no_space token = true ->
  normalize_token (normalize_token token) = normalize_token token.
Proof. intros Htoken. now apply normalize_fixed. Qed.

Lemma normalize_token_idempotent_witness :
  normalize_token (normalize_token "(Hola!),") = normalize_token "(Hola!),".
Proof. apply normalize_token_idempotent. reflexivity. Defined.

(** With white space inside the token a second pass can still change the
    result: the first pass strips the white space at the ends before the
    punctuation and not after it. *)
Lemma normalize_token_space_inside :
  normalize_token ". a" = " a" /\ normalize_token " a" = "a".
Proof. split; reflexivity. Qed.

Lemma parse_line_words (P : string -> Prop) (raw : string) (words : list string) :
  (forall p, p <> "" -> no_space p = true -> normalize_token p <> "" ->
     P (normalize_token p)) ->
  Forall P words -> Forall P (parse_line words raw).
Proof.
  intros HP Hwords. unfold parse_line.
  destruct (is_empty (strip raw)); [exact Hwords|].
  unfold split.
  pose proof (split_ws_parts (strip raw) "" eq_refl) as Hparts.
  revert words Hwords.
  induction Hparts as [|p parts [Hp Hsp] _ IH]; intros words Hwords;
    cbn [fold_left]; [exact Hwords|].
  apply IH. destruct (normalize_token p) as [|c w] eqn:Hw; cbn [is_empty negb];
    [exact Hwords|].
  apply Forall_app. split; [exact Hwords|]. constructor; [|constructor].
  rewrite <- Hw. apply HP; try assumption. now rewrite Hw.
Qed.

(** X15: every word that [parse_words] returns is not empty, holds no white
    space, and is in the form of [normalize_token]: normalising it again
    gives the same word.  [parse_words] raises only for a file that is not
    UTF-8. *)
Theorem parse_words_normalized (fs : filesystem) (file_path : string) :
  match parse_words fs file_path with
  | Ok (words, _) =>
      Forall (fun w => w <> "" /\ no_space w = true /\ normalize_token w = w)
        words
  | Raise e =>
      exists detail,
        fs file_path = FileUndecodable detail /\ e = UnicodeDecodeError detail
  end.
Proof.
  unfold parse_words.
  destruct (fs file_path) as [lines| |exc|detail]; try constructor;
    [|now exists detail].
  assert (forall words,
              Forall (fun w => w <> "" /\ no_space w = true
                               /\ normalize_token w = w) words ->
              Forall (fun w => w <> "" /\ no_space w = true
                               /\ normalize_token w = w)
                (fold_left parse_line lines words)) as Hall.
  { induction lines as [|raw lines IH]; intros words Hwords; cbn [fold_left];
      [exact Hwords|].
    apply IH. apply parse_line_words; [|exact Hwords].
    intros p _ Hsp Hne. split; [exact Hne|]. now apply normalize_fixed. }
  apply Hall. constructor.
Qed.

Lemma strip_front_shape (s : string) :
  exists a, s = a +:+ strip_front s /\ all_chars_in PUNCTUATION a = true.
Proof.
  induction s as [|c s IH]; cbn [strip_front]; [now exists ""|].
  destruct (char_in c PUNCTUATION) eqn:Hc; [|now exists ""].
  destruct IH as (a & Hs & Ha). exists (String c a).
  rewrite string_app_cons, <- Hs. split; [reflexivity|].
  cbn [all_chars_in]. now rewrite Hc, Ha.
Qed.

Lemma strip_back_shape (s : string) :
  exists b, s = strip_back s +:+ b /\ all_chars_in PUNCTUATION b = true.
Proof.
  induction s as [|c s IH]; cbn [strip_back]; [now exists ""|].
  destruct IH as (b & Hs & Hb).
  destruct (char_in c PUNCTUATION && is_empty (strip_back s)) eqn:Hc.
  - apply andb_true_iff in Hc as [Hc Hempty].
    destruct (strip_back s); [|discriminate].
    rewrite string_app_nil_l in Hs. exists (String c b).
    rewrite string_app_nil_l. split; [now rewrite Hs|].
    cbn [all_chars_in]. now rewrite Hc, Hb.
  - exists b. rewrite string_app_cons, <- Hs. now split.
Qed.

(** X21: [normalize_token] takes characters away at the two ends only, and
    only punctuation: the token, stripped of white space and in lower case,
    is the result with a run of punctuation before it and one behind it. *)
Theorem normalize_token_shape (token : string) :
  exists a b,
    lower (strip token) = a +:+ normalize_token token +:+ b
    /\ all_chars_in PUNCTUATION a = true
    /\ all_chars_in PUNCTUATION b = true.
Proof.
  unfold normalize_token.
  destruct (strip_front_shape (lower (strip token))) as (a & Ha & Hpa).
  destruct (strip_back_shape (strip_front (lower (strip token))))
    as (b & Hb & Hpb).
  exists a, b. split; [|now split].
  now rewrite <- Hb, <- Ha.
Qed.

End WordsMore.

(** ** wordCount.py: the two tables of [count_words] *)

Module CountMore.
Import WordCount.

(** Where [first_index_of] points, the word stands, and nowhere before. *)
Lemma first_index_of_lookup (w : string) (words : list string) :
  w ∈ words ->
  exists i : nat,
    first_index_of w words = Z.of_nat i
    /\ words !! i = Some w
    /\ forall j : nat, (j < i)%nat -> words !! j <> Some w.
Proof.
  induction words as [|x words IH]; intros Hw; [inversion Hw|].
  cbn [first_index_of]. destruct (String.eqb_spec x w) as [->|Hne].
  - exists 0%nat. split; [reflexivity|]. split; [reflexivity|]. lia.
  - apply elem_of_cons in Hw as [?|Hw]; [congruence|].
    destruct (IH Hw) as (i & Hi & Hat & Hmin). exists (S i).
    split; [lia|]. split; [exact Hat|].
    intros [|j] Hj; cbn; [congruence|]. apply Hmin. lia.
Qed.

Lemma count_of_in (w : string) (words : list string) :
  w ∈ words -> 1 <= count_of w words.
Proof.
  induction words as [|x words IH]; intros Hw; [inversion Hw|].
  cbn [count_of]. destruct (String.eqb_spec x w) as [->|Hne].
  - assert (0 <= count_of w words); [|lia].
    clear. induction words as [|y words IH]; cbn [count_of]; [lia|].
    destruct (String.eqb y w); lia.
  - apply elem_of_cons in Hw as [?|Hw]; [congruence|]. specialize (IH Hw). lia.
Qed.

(** X16: [count_words] never raises, and its tables answer for every word
    of the list and for no other: [counts[w]] is the number of times [w]
    occurs, at least 1, and [first_index[w]] is the place where it occurs
    first; a word that is not in the list raises [KeyError] in both. *)
Theorem count_words_lookup (words : list string) :
  exists counts first_index,
    count_words words = Ok (counts, first_index)
    /\ (forall w, w ∈ words ->
          dict_lookup String.eqb counts w = Ok (count_of w words)
          /\ 1 <= count_of w words
          /\ exists i : nat,
               dict_lookup String.eqb first_index w = Ok (Z.of_nat i)
               /\ words !! i = Some w
               /\ forall j : nat, (j < i)%nat -> words !! j <> Some w)
    /\ (forall w, w ∉ words ->
          dict_lookup String.eqb counts w = Raise KeyError
          /\ dict_lookup String.eqb first_index w = Raise KeyError).
Proof.
  destruct (WordFacts.count_words_ok words)
    as ([counts first_index] & Hrun & _ & Hcounts & Hfirst).
  cbn [fst snd] in *. exists counts, first_index. split; [exact Hrun|].
  unfold dict_lookup. split; intros w Hw; rewrite Hcounts, Hfirst;
    destruct (decide (w ∈ words)) as [Hin|Hout]; try contradiction.
  - split; [reflexivity|]. split; [now apply count_of_in|].
    destruct (first_index_of_lookup w words Hin) as (i & -> & Hat & Hmin).
    now exists i.
  - now split.
Qed.

Lemma first_index_of_in (w : string) (words : list string) :
  w ∈ words -> first_index_of w words < Z.of_nat (length words).
Proof.
  intros Hw. destruct (first_index_of_lookup w words Hw) as (i & -> & Hat & _).
  apply lookup_lt_Some in Hat. lia.
Qed.

(** One more word keeps the sum of the counts, the keys of the second table
    and the order of the keys. *)
Lemma count_step_keys (seen : list string) (st st' : word_dict * word_dict)
    (w : string) :
  table_ok seen st ->
  count_step st (Z.of_nat (length seen), w) = Ok st' ->
  (dict_sum (fst st) = Z.of_nat (length seen)
   /\ dict_keys (snd st) = dict_keys (fst st)
   /\ StronglySorted
        (fun a b => first_index_of a seen < first_index_of b seen)
        (dict_keys (fst st))) ->
  dict_sum (fst st') = Z.of_nat (length (seen ++ [w]))
  /\ dict_keys (snd st') = dict_keys (fst st')
  /\ StronglySorted
       (fun a b => first_index_of a (seen ++ [w]) < first_index_of b (seen ++ [w]))
       (dict_keys (fst st')).
Proof.
  destruct st as [counts first_index]. intros (Hnodup & Hcounts & Hfirst).
  cbn [fst snd] in *. intros Hstep (Hsum & Hkeys & Hsorted).
  assert (forall a, a ∈ dict_keys counts -> a ∈ seen) as Hseen.
  { intros a Ha. apply (dict_keys_find String.eqb String.eqb_eq) in Ha as [c Hc].
    rewrite Hcounts in Hc. now destruct (decide (a ∈ seen)). }
  assert (StronglySorted
            (fun a b => first_index_of a (seen ++ [w])
                        < first_index_of b (seen ++ [w]))
            (dict_keys counts)) as Hsorted'.
  { apply (WordFacts.StronglySorted_distinct
             (fun a b => first_index_of a seen < first_index_of b seen));
      [exact Hnodup| |exact Hsorted].
    intros a b Ha Hb _ Hlt. rewrite !WordFacts.first_index_of_app.
    destruct (decide (a ∈ seen)) as [_|Hno]; [|now apply Hseen in Ha].
    destruct (decide (b ∈ seen)) as [_|Hno]; [|now apply Hseen in Hb].
    exact Hlt. }
  unfold count_step, dict_mem, dict_lookup in Hstep.
  pose proof (Hcounts w) as Hw. pose proof (Hfirst w) as Hw'.
  rewrite length_app. cbn [length].
  destruct (decide (w ∈ seen)) as [Hin|Hout]; rewrite Hw in Hstep;
    cbn [negb rbind] in Hstep; injection Hstep as <-; cbn [fst snd].
  - pose proof (ModeMore.dict_sum_increment String.eqb counts w) as Hinc.
    unfold dict_get in Hinc. rewrite Hw in Hinc.
    split; [rewrite Hinc; lia|].
    rewrite (dict_keys_set String.eqb). unfold dict_mem. rewrite Hw.
    now split.
  - destruct (dict_find_none String.eqb counts w 1 Hw) as [_ ->].
    destruct (dict_find_none String.eqb first_index w
                (Z.of_nat (length seen)) Hw') as [_ ->].
    rewrite ModeMore.dict_sum_app. unfold dict_keys. rewrite !map_app.
    fold (dict_keys counts). fold (dict_keys first_index).
    cbn [map fst]. split; [cbn; lia|]. split; [now rewrite Hkeys|].
    apply StronglySorted_app_2; [|exact Hsorted'|repeat constructor].
    intros a b Ha Hb. apply list_elem_of_singleton in Hb as ->.
    rewrite !WordFacts.first_index_of_app.
    destruct (decide (a ∈ seen)) as [Ha'|Hno]; [|now apply Hseen in Ha].
    destruct (decide (w ∈ seen)) as [?|_]; [contradiction|].
    pose proof (first_index_of_in a seen Ha').
    pose proof (WordFacts.first_index_of_nonneg w [w]). lia.
Qed.

Lemma count_words_keys_from (ws seen : list string)
    (st st' : word_dict * word_dict) :
  table_ok seen st ->
  for_each (zip (map Z.of_nat (seq (length seen) (length ws))) ws) count_step st
  = Ok st' ->
  (dict_sum (fst st) = Z.of_nat (length seen)
   /\ dict_keys (snd st) = dict_keys (fst st)
   /\ StronglySorted
        (fun a b => first_index_of a seen < first_index_of b seen)
        (dict_keys (fst st))) ->
  dict_sum (fst st') = Z.of_nat (length (seen ++ ws))
  /\ dict_keys (snd st') = dict_keys (fst st')
  /\ StronglySorted
       (fun a b => first_index_of a (seen ++ ws) < first_index_of b (seen ++ ws))
       (dict_keys (fst st')).
Proof.
  revert seen st. induction ws as [|w ws IH]; intros seen st Hst Hrun Hinv.
  - cbn [length seq map zip zip_with for_each] in Hrun. injection Hrun as <-.
    now rewrite app_nil_r.
  - cbn [length seq map zip zip_with for_each] in Hrun.
    destruct (WordFacts.count_step_ok seen st w Hst) as (st1 & Hstep & Hst1).
    rewrite Hstep in Hrun. cbn [rbind] in Hrun.
    pose proof (count_step_keys seen st st1 w Hst Hstep Hinv) as Hinv1.
    replace (seen ++ w :: ws) with ((seen ++ [w]) ++ ws)
      by now rewrite <- app_assoc.
    apply (IH (seen ++ [w]) st1 Hst1); [|exact Hinv1].
    rewrite length_app. cbn [length].
    now replace (length seen + 1)%nat with (S (length seen)) by lia.
Qed.

(** X17: the counts of [count_words] sum to the number of words, the two
    tables have the same keys in the same order, no key twice, and the keys
    stand in the order in which the words occurred first. *)
Theorem count_words_tables (words : list string) :
  exists counts first_index,
    count_words words = Ok (counts, first_index)
    /\ dict_sum counts = Z.of_nat (length words)
    /\ dict_keys first_index = dict_keys counts
    /\ NoDup (dict_keys counts)
    /\ StronglySorted
         (fun a b => first_index_of a words < first_index_of b words)
         (dict_keys counts).
Proof.
  destruct (WordFacts.count_words_ok words)
    as ([counts first_index] & Hrun & Hnodup & _).
  exists counts, first_index. split; [exact Hrun|].
  assert (table_ok [] ([], [])) as Hinit.
  { split; [constructor|].
    split; intros w; cbn [fst snd dict_find];
      destruct (decide (w ∈ [])) as [Hin|_]; try reflexivity; inversion Hin. }
  destruct (count_words_keys_from words [] ([], []) (counts, first_index)
              Hinit Hrun) as (Hsum & Hkeys & Hsorted).
  { split; [reflexivity|]. split; [reflexivity|]. constructor. }
  cbn [fst snd app] in *. now split_and!.
Qed.

(** X18: [sort_words] returns a rearrangement of the keys of [counts] when
    every one of them is a key of [first_index], and raises [KeyError] when
    one of them is not; it raises nothing else. *)
Theorem sort_words_keys (counts first_index : word_dict) :
  (exists out,
     sort_words counts first_index = Ok out
     /\ out ≡ₚ dict_keys counts
     /\ forall w, w ∈ dict_keys counts -> dict_mem String.eqb first_index w = true)
  \/ (sort_words counts first_index = Raise KeyError
      /\ exists w, w ∈ dict_keys counts
                   /\ dict_mem String.eqb first_index w = false).
Proof.
  unfold sort_words.
  assert (forall items : list string,
            (forall w, w ∈ items -> w ∈ dict_keys counts) ->
            (exists keyed,
               map_result
                 (fun w =>
                    let* c := dict_lookup String.eqb counts w in
                    let* f := dict_lookup String.eqb first_index w in
                    Ok ((- c, f), w)) items = Ok keyed
               /\ map snd keyed = items
               /\ forall w, w ∈ items -> dict_mem String.eqb first_index w = true)
            \/ (map_result
                  (fun w =>
                     let* c := dict_lookup String.eqb counts w in
                     let* f := dict_lookup String.eqb first_index w in
                     Ok ((- c, f), w)) items = Raise KeyError
                /\ exists w, w ∈ items
                             /\ dict_mem String.eqb first_index w = false))
    as Hitems.
  { induction items as [|w items IH]; intros Hsub; cbn [map_result].
    - left. exists []. split; [reflexivity|]. split; [reflexivity|].
      intros w Hw. inversion Hw.
    - destruct (proj1 (dict_keys_find String.eqb String.eqb_eq counts w)
                  (Hsub w ltac:(constructor))) as [c Hc].
      assert ((let* c0 := dict_lookup String.eqb counts w in
               let* f := dict_lookup String.eqb first_index w in
               Ok ((- c0, f), w))
              = match dict_find String.eqb first_index w with
                | Some f => Ok ((- c, f), w)
                | None => Raise KeyError
                end) as ->.
      { unfold dict_lookup. rewrite Hc. cbn [rbind].
        now destruct (dict_find String.eqb first_index w). }
      destruct (dict_find String.eqb first_index w) as [f|] eqn:Hf; cbn [rbind].
      + destruct (IH (fun x Hx => Hsub x ltac:(now constructor)))
          as [(keyed & -> & Hsnd & Hall)|(-> & x & Hx & Hno)]; cbn [rbind].
        * left. eexists; split; [reflexivity|]. cbn [map snd].
          split; [now rewrite Hsnd|].
          intros x [->|Hx]%elem_of_cons; [|now apply Hall].
          unfold dict_mem. now rewrite Hf.
        * right. split; [reflexivity|]. exists x. split; [now apply elem_of_cons; right|exact Hno].
      + right. split; [reflexivity|]. exists w. split; [constructor|].
        unfold dict_mem. now rewrite Hf. }
  destruct (Hitems (dict_keys counts) (fun w Hw => Hw))
    as [(keyed & -> & Hsnd & Hall)|(-> & Hno)]; cbn [rbind].
  - left. eexists; split; [reflexivity|]. split; [|exact Hall].
    now rewrite (stable_sort_perm pair_lt keyed), Hsnd.
  - right. now split.
Qed.

End CountMore.

(** ** wordCount.py: the report *)

Module ReportMore.
Import WordCount.

Lemma last_char_app (a : string) (c : ascii) (b : string) :
  last_char (a +:+ String c b) = last_char (String c b).
Proof.
  induction a as [|x a IH]; [reflexivity|].
  rewrite string_app_cons. cbn [last_char].
  destruct (a +:+ String c b) eqn:Happ; [|exact IH].
  destruct a; discriminate.
Qed.

Lemma char_in_app (c : ascii) (a b : string) :
  char_in c (a +:+ b) = char_in c a || char_in c b.
Proof.
  induction a as [|x a IH]; [reflexivity|].
  rewrite string_app_cons. cbn [char_in]. now rewrite IH, orb_assoc.
Qed.

(** The last part of [s.split(sep)] is what stands behind the last [sep]. *)
Lemma split_on_last (sep : ascii) (s : string) :
  forall cur, char_in sep cur = false ->
    exists pre b,
      last (split_on sep s cur) = Some b
      /\ cur +:+ s = pre +:+ b
      /\ char_in sep b = false
      /\ (pre = "" \/ last_char pre = Some sep).
Proof.
  induction s as [|c s IH]; intros cur Hcur; cbn [split_on].
  - exists "", cur. split; [reflexivity|].
    split; [now rewrite string_app_nil_r|]. split; [exact Hcur|now left].
  - destruct (Ascii.eqb_spec c sep) as [->|Hne].
    + destruct (IH "" eq_refl) as (pre & b & Hlast & Hs & Hb & Hpre).
      rewrite string_app_nil_l in Hs.
      exists (cur +:+ String sep pre), b. split; [|split; [|split]].
      * destruct (split_on sep s "") as [|p parts] eqn:Hparts; [discriminate|].
        exact Hlast.
      * now rewrite string_app_assoc, string_app_cons, Hs.
      * exact Hb.
      * right. rewrite last_char_app.
        destruct Hpre as [->|Hpre]; [reflexivity|].
        destruct pre; [discriminate|exact Hpre].
    + destruct (IH (cur +:+ String c "")) as (pre & b & Hlast & Hs & Hb & Hpre).
      { rewrite char_in_app, Hcur. cbn [char_in orb].
        destruct (Ascii.eqb_spec sep c) as [?|_]; [congruence|reflexivity]. }
      exists pre, b. split; [exact Hlast|]. split; [|now split].
      now rewrite <- Hs, string_app_assoc.
Qed.

Lemma list_index_last_eq {A} (l : list A) (x : A) :
  last l = Some x -> list_index l (-1) = Ok x.
Proof.
  intros Hlast. rewrite last_lookup in Hlast.
  pose proof (lookup_lt_Some _ _ _ Hlast) as Hlt.
  unfold list_index. change (-1 <? 0) with true. cbv iota.
  destruct (Z.ltb_spec (-1 + Z.of_nat (length l)) 0) as [?|_]; [lia|].
  destruct (Z.leb_spec (Z.of_nat (length l)) (-1 + Z.of_nat (length l)))
    as [?|_]; [lia|].
  cbn [orb].
  replace (Z.to_nat (-1 + Z.of_nat (length l))) with (pred (length l)) by lia.
  now rewrite Hlast.
Qed.

(** [file_path.split("/")[-1]] *)
Lemma base_name_spec (path : string) :
  exists pre base_name,
    list_index (split_on "/" path "") (-1) = Ok base_name
    /\ path = pre +:+ base_name
    /\ char_in "/" base_name = false
    /\ (pre = "" \/ last_char pre = Some "/"%char).
Proof.
  destruct (split_on_last "/" path "" eq_refl) as (pre & b & Hlast & Hs & Hb & Hpre).
  exists pre, b. split; [now apply list_index_last_eq|].
  rewrite string_app_nil_l in Hs. now split.
Qed.

Lemma report_rows_spec (counts : word_dict) (g : string -> Z)
    (ordered : list string) :
  (forall w, w ∈ ordered -> dict_find String.eqb counts w = Some (g w)) ->
  forall lines,
    for_each ordered
      (fun lines w =>
         let* c := dict_lookup String.eqb counts w in
         Ok (lines ++ [w +:+ TAB +:+ str_of_int c]))
      lines
    = Ok (lines ++ map (fun w => w +:+ TAB +:+ str_of_int (g w)) ordered).
Proof.
  induction ordered as [|w ordered IH]; intros Hcounts lines; cbn [for_each map].
  - now rewrite app_nil_r.
  - unfold dict_lookup at 1. rewrite (Hcounts w ltac:(constructor)).
    cbn [rbind]. rewrite IH by (intros w' Hw'; apply Hcounts; now constructor).
    now rewrite <- app_assoc.
Qed.

Lemma word_read (fs : filesystem) (elapsed prog path : string)
    (words errors : list string) :
  parse_words fs path = Ok (words, errors) ->
  exists pre base_name ordered,
    path = pre +:+ base_name
    /\ char_in "/" base_name = false
    /\ (pre = "" \/ last_char pre = Some "/"%char)
    /\ order words = Ok ordered
    /\ main fs elapsed [prog; path]
       = Ok {| exit_code := 0;
               console :=
                 map (fun err => "ERROR: " +:+ err) errors
                 ++ ["Row Labels" +:+ TAB +:+ "Count of " +:+ base_name]
                 ++ match words with
                    | [] => ["(no words found)" +:+ TAB +:+ "0"]
                    | _ :: _ =>
                        map (fun w => w +:+ TAB +:+ str_of_int (count_of w words))
                          ordered
                    end
                 ++ ["Time Elapsed (s):" +:+ TAB +:+ elapsed];
               results_file :=
                 Some (write_results
                         (["Row Labels" +:+ TAB +:+ "Count of " +:+ base_name]
                          ++ match words with
                             | [] => ["(no words found)" +:+ TAB +:+ "0"]
                             | _ :: _ =>
                                 map (fun w =>
                                        w +:+ TAB +:+ str_of_int (count_of w words))
                                   ordered
                             end
                          ++ ["Time Elapsed (s):" +:+ TAB +:+ elapsed])) |}.
Proof.
  intros Hparse.
  destruct (base_name_spec path) as (pre & base_name & Hbase & Hpath & Hno & Hpre).
  destruct (WordFacts.count_words_ok words) as ([counts first_idx] & Hcount & Hst).
  destruct (WordFacts.sort_words_spec words (counts, first_idx) Hst)
    as (ordered & Hsort & _ & Hin & _).
  cbn [fst snd] in Hsort.
  exists pre, base_name, ordered.
  split; [exact Hpath|]. split; [exact Hno|]. split; [exact Hpre|].
  split; [unfold order; rewrite Hcount; exact Hsort|].
  unfold main.
  change (negb (Z.of_nat (length [prog; path]) =? 2)) with false.
  change (list_index [prog; path] 1) with (Ok path). cbn [rbind].
  rewrite Hparse. cbn [rbind]. rewrite Hbase. cbn [rbind].
  destruct words as [|w words]; [reflexivity|].
  destruct (Z.eqb_spec (Z.of_nat (length (w :: words))) 0) as [Hlen|_];
    [cbn [length] in Hlen; lia|].
  cbn [negb]. rewrite Hcount. cbn [rbind]. rewrite Hsort. cbn [rbind].
  rewrite (report_rows_spec counts (fun x => count_of x (w :: words))).
  - cbn [rbind]. now rewrite <- !app_assoc.
  - intros x Hx. apply Hin in Hx. destruct Hst as (_ & Hcounts & _).
    cbn [fst] in Hcounts. rewrite Hcounts.
    now destruct (decide (x ∈ w :: words)).
Qed.

(** X19: run on one file whose bytes are UTF-8, the word-count tool exits
    with 0, prints the error lines and then the report, and writes the
    report without the error lines to the results file.  The report is the
    header with the name of the file, which is what stands behind the last
    [/] of the path; one row for each distinct word, in the order of
    [order], with the number of its occurrences, or the row
    [(no words found)] with 0 when the file gave no word; and the line of
    the elapsed time.  On a file that is not UTF-8 the
    [UnicodeDecodeError] leaves [main]: nothing is printed or written. *)
Theorem word_report (fs : filesystem) (elapsed prog path : string) :
  match fs path with
  | FileUndecodable detail =>
      main fs elapsed [prog; path] = Raise (UnicodeDecodeError detail)
  | _ =>
      exists words errors pre base_name ordered,
        parse_words fs path = Ok (words, errors)
        /\ path = pre +:+ base_name
        /\ char_in "/" base_name = false
        /\ (pre = "" \/ last_char pre = Some "/"%char)
        /\ order words = Ok ordered
        /\ main fs elapsed [prog; path]
           = Ok {| exit_code := 0;
                   console :=
                     map (fun err => "ERROR: " +:+ err) errors
                     ++ ["Row Labels" +:+ TAB +:+ "Count of " +:+ base_name]
                     ++ match words with
                        | [] => ["(no words found)" +:+ TAB +:+ "0"]
                        | _ :: _ =>
                            map (fun w =>
                                   w +:+ TAB +:+ str_of_int (count_of w words))
                              ordered
                        end
                     ++ ["Time Elapsed (s):" +:+ TAB +:+ elapsed];
                   results_file :=
                     Some (write_results
                             (["Row Labels" +:+ TAB +:+ "Count of "
                               +:+ base_name]
                              ++ match words with
                                 | [] => ["(no words found)" +:+ TAB +:+ "0"]
                                 | _ :: _ =>
                                     map (fun w =>
                                            w +:+ TAB
                                            +:+ str_of_int (count_of w words))
                                       ordered
                                 end
                              ++ ["Time Elapsed (s):" +:+ TAB +:+ elapsed])) |}
  end.
Proof.
  assert (forall words errors,
            parse_words fs path = Ok (words, errors) ->
            exists words errors pre base_name ordered,
              parse_words fs path = Ok (words, errors)
              /\ path = pre +:+ base_name
              /\ char_in "/" base_name = false
              /\ (pre = "" \/ last_char pre = Some "/"%char)
              /\ order words = Ok ordered
              /\ main fs elapsed [prog; path]
                 = Ok {| exit_code := 0;
                         console :=
                           map (fun err => "ERROR: " +:+ err) errors
                           ++ ["Row Labels" +:+ TAB +:+ "Count of "
                               +:+ base_name]
                           ++ match words with
                              | [] => ["(no words found)" +:+ TAB +:+ "0"]
                              | _ :: _ =>
                                  map (fun w =>
                                         w +:+ TAB
                                         +:+ str_of_int (count_of w words))
                                    ordered
                              end
                           ++ ["Time Elapsed (s):" +:+ TAB +:+ elapsed];
                         results_file :=
                           Some (write_results
                                   (["Row Labels" +:+ TAB +:+ "Count of "
                                     +:+ base_name]
                                    ++ match words with
                                       | [] =>
                                           ["(no words found)" +:+ TAB +:+ "0"]
                                       | _ :: _ =>
                                           map (fun w =>
                                                  w +:+ TAB
                                                  +:+ str_of_int
                                                        (count_of w words))
                                             ordered
                                       end
                                    ++ ["Time Elapsed (s):" +:+ TAB
                                        +:+ elapsed])) |}) as Hread.
  { intros words errors Hparse.
    destruct (word_read fs elapsed prog path words errors Hparse)
      as (pre & base_name & ordered & Hrest).
    now exists words, errors, pre, base_name, ordered. }
  destruct (fs path) as [lines| |exc|detail] eqn:Hfs.
  - eapply Hread. unfold parse_words. now rewrite Hfs.
  - eapply Hread. unfold parse_words. now rewrite Hfs.
  - eapply Hread. unfold parse_words. now rewrite Hfs.
  - unfold main, parse_words.
    change (negb (Z.of_nat (length [prog; path]) =? 2)) with false.
    change (list_index [prog; path] 1) with (Ok path). cbn [rbind].
    now rewrite Hfs.
Qed.

(** A part without the separator, followed by the separator, is the next
    part of [split]. *)
Lemma split_on_part (sep : ascii) (a rest : string) :
  char_in sep a = false ->
  forall cur,
    split_on sep (a +:+ String sep rest) cur
    = (cur +:+ a) :: split_on sep rest "".
Proof.
  induction a as [|c a IH]; intros Ha cur.
  - rewrite string_app_nil_l, string_app_nil_r. cbn [split_on].
    now rewrite Ascii.eqb_refl.
  - cbn [char_in] in Ha. apply orb_false_iff in Ha as [Hc Ha].
    rewrite string_app_cons. cbn [split_on].
    destruct (Ascii.eqb_spec c sep) as [->|_];
      [now rewrite Ascii.eqb_refl in Hc|].
    rewrite (IH Ha). now rewrite string_app_assoc.
Qed.

(** X20: the text that [write_results] writes, cut at the line ends, gives
    the lines back, and one empty part behind the last line end, when no
    line holds a line end itself; so the file has one line for each element
    of [lines]. *)
Theorem write_results_lines (lines : list string) :
  (forall line, line ∈ lines -> char_in "010" line = false) ->
  split_on "010" (write_results lines) "" = lines ++ [""]
  /\ split_on "010" (ConvertNumbers.write_results lines) "" = lines ++ [""].
Proof.
  intros Hlines.
  assert (split_on "010" (concat_strings (map (fun line => line +:+ NL) lines)) ""
          = lines ++ [""]) as Hsplit; [|now split].
  induction lines as [|line lines IH]; [reflexivity|].
  cbn [map concat_strings fold_right]. fold (concat_strings
    (map (fun line => line +:+ NL) lines)).
  unfold NL at 1. rewrite string_app_assoc, string_app_cons, string_app_nil_l.
  rewrite split_on_part by (apply Hlines; constructor).
  rewrite string_app_nil_l, IH; [reflexivity|].
  intros l Hl. apply Hlines. now constructor.
Qed.

Lemma write_results_lines_witness :
  split_on "010"
    (write_results ["Row Labels" +:+ TAB +:+ "Count of tc.txt";
                    "hola" +:+ TAB +:+ "2"]) ""
  = ["Row Labels" +:+ TAB +:+ "Count of tc.txt"; "hola" +:+ TAB +:+ "2"; ""].
Proof.
  apply (write_results_lines
           ["Row Labels" +:+ TAB +:+ "Count of tc.txt"; "hola" +:+ TAB +:+ "2"]).
  intros line Hline.
  apply elem_of_cons in Hline as [->|Hline]; [reflexivity|].
  apply elem_of_cons in Hline as [->|Hline]; [reflexivity|].
  inversion Hline.
Defined.

End ReportMore.

(** ** A file that is missing *)

Module MissingFile.

Section Missing.
Context {V : Type} `{Number V} `{NumberText V}.
Variable py_sum : list V -> V.
Variable square : V -> option V.

(** X22: run on a path where there is no file, no tool fails.  Each prints
    [ERROR: File not found: <path>].  [computeStatistics.py] then prints its
    message with the elapsed time, writes it to the results file and exits
    1; its two copies exit 1 and write no file; the conversion tool and
    the word-count tool exit 0 and print and write a report without data
    rows, the word-count tool with the row [(no words found)]. *)
Theorem missing_file_outcomes (fs : filesystem) (elapsed prog path : string) :
  fs path = FileNotFound ->
  Statistics.main (V:=V) fs elapsed [prog; path]
  = Ok {| exit_code := 1;
          console :=
            ["ERROR: File not found: " +:+ path;
             "No valid numbers to process." +:+ NL
             +:+ "Time Elapsed (s): " +:+ elapsed +:+ NL];
          results_file :=
            Some ("No valid numbers to process." +:+ NL
                  +:+ "Time Elapsed (s): " +:+ elapsed +:+ NL) |}
  /\ StatisticsVariants.main (V:=V) py_sum square fs elapsed [prog; path]
     = StatisticsVariants.Finished
         {| exit_code := 1;
            console := ["ERROR: File not found: " +:+ path];
            results_file := None |}
  /\ StatisticsVariants.main_copy (V:=V) fs elapsed [prog; path]
     = StatisticsVariants.Finished
         {| exit_code := 1;
            console := ["ERROR: File not found: " +:+ path];
            results_file := None |}
  /\ (forall fuel,
        ConvertNumbers.main fuel fs elapsed [prog; path]
        = Some (Ok {| exit_code := 0;
                      console :=
                        ["ERROR: File not found: " +:+ path;
                         "ITEM" +:+ TAB +:+ "DEC" +:+ TAB +:+ "BIN" +:+ TAB
                         +:+ "HEX";
                         "Time Elapsed (s):" +:+ TAB +:+ elapsed];
                      results_file :=
                        Some (ConvertNumbers.write_results
                                ["ITEM" +:+ TAB +:+ "DEC" +:+ TAB +:+ "BIN"
                                 +:+ TAB +:+ "HEX";
                                 "Time Elapsed (s):" +:+ TAB +:+ elapsed]) |}))
  /\ exists pre base_name,
       path = pre +:+ base_name
       /\ char_in "/" base_name = false
       /\ (pre = "" \/ last_char pre = Some "/"%char)
       /\ WordCount.main fs elapsed [prog; path]
          = Ok {| exit_code := 0;
                  console :=
                    ["ERROR: File not found: " +:+ path;
                     "Row Labels" +:+ TAB +:+ "Count of " +:+ base_name;
                     "(no words found)" +:+ TAB +:+ "0";
                     "Time Elapsed (s):" +:+ TAB +:+ elapsed];
                  results_file :=
                    Some (WordCount.write_results
                            ["Row Labels" +:+ TAB +:+ "Count of " +:+ base_name;
                             "(no words found)" +:+ TAB +:+ "0";
                             "Time Elapsed (s):" +:+ TAB +:+ elapsed]) |}.
Proof.
  intros Hfs. split_and!.
  - unfold Statistics.main, Statistics.parse_numbers.
    change (negb (Z.of_nat (length [prog; path]) =? 2)) with false.
    change (list_index [prog; path] 1) with (Ok path). cbn [rbind].
    now rewrite Hfs.
  - unfold StatisticsVariants.main, StatisticsVariants.parse_numbers.
    change (negb (Z.of_nat (length [prog; path]) =? 2)) with false.
    change (list_index [prog; path] 1) with (Ok path).
    cbn [StatisticsVariants.lift StatisticsVariants.run_bind].
    now rewrite Hfs.
  - unfold StatisticsVariants.main_copy, StatisticsVariants.parse_numbers.
    change (negb (Z.of_nat (length [prog; path]) =? 2)) with false.
    change (list_index [prog; path] 1) with (Ok path).
    cbn [StatisticsVariants.lift StatisticsVariants.run_bind].
    now rewrite Hfs.
  - intros fuel. unfold ConvertNumbers.main, ConvertNumbers.parse_integers.
    change (negb (Z.of_nat (length [prog; path]) =? 2)) with false.
    change (list_index [prog; path] 1) with (Ok path). cbn [fbind].
    rewrite Hfs. now destruct fuel.
  - destruct (ReportMore.base_name_spec path)
      as (pre & base_name & Hbase & Hpath & Hno & Hpre).
    exists pre, base_name. split; [exact Hpath|]. split; [exact Hno|].
    split; [exact Hpre|].
    unfold WordCount.main, WordCount.parse_words.
    change (negb (Z.of_nat (length [prog; path]) =? 2)) with false.
    change (list_index [prog; path] 1) with (Ok path). cbn [rbind].
    rewrite Hfs, Hbase. reflexivity.
Qed.

End Missing.

Lemma missing_file_outcomes_witness :
  Statistics.main (V:=Z) (fun _ => FileNotFound) "0.000010"
    ["computeStatistics.py"; "data/tc.txt"]
  = Ok {| exit_code := 1;
          console :=
            ["ERROR: File not found: data/tc.txt";
             "No valid numbers to process." +:+ NL
             +:+ "Time Elapsed (s): 0.000010" +:+ NL];
          results_file :=
            Some ("No valid numbers to process." +:+ NL
                  +:+ "Time Elapsed (s): 0.000010" +:+ NL) |}.
Proof.
  exact (proj1 (missing_file_outcomes (V:=Z) (fun _ => 0) (fun x => Some (x * x))
                  (fun _ => FileNotFound) "0.000010" "computeStatistics.py"
                  "data/tc.txt" eq_refl)).
Defined.

End MissingFile.

(** ** The exit codes of the five scripts *)

Module ExitCodes.

Section Codes.
Context {V : Type} `{Number V} `{NumberText V}.
Variable py_sum : list V -> V.
Variable square : V -> option V.

Lemma variants_usage (fs : filesystem) (elapsed : string) (argv : list string) :
  length argv <> 2%nat ->
  (exists o,
     StatisticsVariants.main (V:=V) py_sum square fs elapsed argv
     = StatisticsVariants.Finished o
     /\ exit_code o = 2 /\ results_file o = None)
  /\ (exists o,
        StatisticsVariants.main_copy (V:=V) fs elapsed argv
        = StatisticsVariants.Finished o
        /\ exit_code o = 2 /\ results_file o = None).
Proof.
  intros Hargs.
  unfold StatisticsVariants.main, StatisticsVariants.main_copy.
  destruct (Z.eqb_spec (Z.of_nat (length argv)) 2) as [?|_]; [lia|].
  cbn [negb]. split; eexists; (split; [reflexivity|]); now split.
Qed.

(** The two scripts that keep going without data. *)
Lemma tools_run (fs : filesystem) (elapsed prog path : string) :
  (forall detail, fs path <> FileUndecodable detail) ->
  (exists o,
     returns (fun fuel => ConvertNumbers.main fuel fs elapsed [prog; path])
       (Ok o)
     /\ exit_code o = 0 /\ is_Some (results_file o))
  /\ (exists o,
        WordCount.main fs elapsed [prog; path] = Ok o
        /\ exit_code o = 0 /\ is_Some (results_file o)).
Proof.
  intros Hfs. split.
  - assert (exists numbers errors,
              ConvertNumbers.parse_integers fs path = Ok (numbers, errors))
      as (numbers & errors & Hparse).
    { unfold ConvertNumbers.parse_integers.
      destruct (fs path) as [lines| |exc|detail]; try (now eexists _, _).
      - destruct (fold_left ConvertNumbers.parse_line (enumerate1 lines) ([], []))
          as [numbers errors].
        now exists numbers, errors.
      - now destruct (Hfs detail). }
    exact (MainFacts.convert_runs fs elapsed prog path numbers errors Hparse).
  - assert (exists words errors,
              WordCount.parse_words fs path = Ok (words, errors))
      as (words & errors & Hparse).
    { unfold WordCount.parse_words.
      destruct (fs path) as [lines| |exc|detail]; try (now eexists _, _).
      now destruct (Hfs detail). }
    exact (MainFacts.word_runs fs elapsed prog path words errors Hparse).
Qed.

Lemma tools_undecodable (fs : filesystem) (elapsed prog path detail : string) :
  fs path = FileUndecodable detail ->
  returns (fun fuel => ConvertNumbers.main fuel fs elapsed [prog; path])
    (Raise (UnicodeDecodeError detail))
  /\ WordCount.main fs elapsed [prog; path] = Raise (UnicodeDecodeError detail).
Proof.
  intros Hfs. split.
  - exists 0%nat. intros fuel _.
    unfold ConvertNumbers.main, ConvertNumbers.parse_integers.
    change (negb (Z.of_nat (length [prog; path]) =? 2)) with false.
    change (list_index [prog; path] 1) with (Ok path). cbn [fbind].
    now rewrite Hfs.
  - unfold WordCount.main, WordCount.parse_words.
    change (negb (Z.of_nat (length [prog; path]) =? 2)) with false.
    change (list_index [prog; path] 1) with (Ok path). cbn [rbind].
    now rewrite Hfs.
Qed.

(** The three statistics scripts on what was parsed. *)
Lemma statistics_run (fs : filesystem) (elapsed prog path : string)
    (numbers : list V) (errors : list string) :
  Statistics.parse_numbers fs path = Ok (numbers, errors) ->
  StatisticsVariants.parse_numbers fs path
  = StatisticsVariants.Finished (numbers, errors) ->
  (exists o,
     Statistics.main (V:=V) fs elapsed [prog; path] = Ok o
     /\ exit_code o = match numbers with [] => 1 | _ :: _ => 0 end
     /\ is_Some (results_file o))
  /\ match numbers with
     | [] =>
         (exists o,
            StatisticsVariants.main (V:=V) py_sum square fs elapsed [prog; path]
            = StatisticsVariants.Finished o
            /\ exit_code o = 1 /\ results_file o = None)
         /\ (exists o,
               StatisticsVariants.main_copy (V:=V) fs elapsed [prog; path]
               = StatisticsVariants.Finished o
               /\ exit_code o = 1 /\ results_file o = None)
     | _ :: _ =>
         ((exists o,
             StatisticsVariants.main (V:=V) py_sum square fs elapsed
               [prog; path]
             = StatisticsVariants.Finished o
             /\ exit_code o = 0 /\ is_Some (results_file o))
          \/ StatisticsVariants.main (V:=V) py_sum square fs elapsed
               [prog; path]
             = StatisticsVariants.Failed StatisticsVariants.OverflowError)
         /\ (exists o,
               StatisticsVariants.main_copy (V:=V) fs elapsed [prog; path]
               = StatisticsVariants.Finished o
               /\ exit_code o = 0 /\ is_Some (results_file o))
     end.
Proof.
  intros Hp Hrun.
  pose proof (MainFacts.statistics_runs fs elapsed prog path numbers errors Hp)
    as Hmain.
  pose proof (VariantMains.copy_read fs elapsed prog path numbers errors Hp Hrun)
    as Hcopy.
  pose proof (VariantMains.short_read py_sum square fs elapsed prog path
                numbers errors Hp Hrun) as Hshort.
  cbv zeta in Hshort. split; [exact Hmain|].
  destruct numbers as [|x numbers].
  - destruct Hshort as [Hshort _]. split.
    + eexists. split; [exact Hshort|]. now split.
    + eexists. split; [exact Hcopy|]. now split.
  - destruct Hmain as (o & Hmain & Hcode & Hfile). split.
    + destruct Hshort as (mu & med & var & std & mu' & _ & _ & Hshort).
      destruct Hshort as [[_ Hover]|[_ [var' Hdone]]]; [now right|left].
      eexists. split; [exact Hdone|]. split; [reflexivity|]. cbn. eauto.
    + exists o. split; [|now split]. now rewrite Hcopy, Hmain.
Qed.

Lemma numbers_read (fs : filesystem) (path : string) (lines : list string) :
  fs path = FileLines lines ->
  exists logged,
    Statistics.parse_numbers (V:=V) fs path
    = Ok (omap num_of_line lines, logged)
    /\ StatisticsVariants.parse_numbers (V:=V) fs path
       = StatisticsVariants.Finished (omap num_of_line lines, logged).
Proof.
  intros Hfs.
  unfold Statistics.parse_numbers, StatisticsVariants.parse_numbers, enumerate1.
  rewrite Hfs.
  destruct (LineFacts.parse_numbers_lines (V:=V) lines 0 [] [])
    as (logged & -> & _).
  now exists ([] ++ logged).
Qed.

(** C1, as the code has it.  Run with a number of arguments other than one,
    each of the five scripts exits with code 2 and writes no results file.
    Run with one file argument:
    - on a file that is not UTF-8 every script ends with the
      [UnicodeDecodeError];
    - [computeStatistics.py] otherwise exits with 0 when a number was parsed
      and with 1 when none was, and writes its results file in both cases;
    - [compute_statistics.py] and [convert_numbers.py] end with the
      [OSError] of a file that cannot be opened; otherwise they exit with 1
      and write no file when no number was parsed, and with numbers
      [convert_numbers.py] exits with 0 and [compute_statistics.py] exits
      with 0 or ends with [OverflowError];
    - the conversion tool and the word-count tool otherwise write their
      results file and exit with 0, also when no integer or word was
      found. *)
Theorem exit_codes (fs : filesystem) (elapsed : string) (argv : list string) :
  (length argv <> 2%nat ->
   (exists o, Statistics.main (V:=V) fs elapsed argv = Ok o
              /\ exit_code o = 2 /\ results_file o = None)
   /\ (exists o,
         StatisticsVariants.main (V:=V) py_sum square fs elapsed argv
         = StatisticsVariants.Finished o
         /\ exit_code o = 2 /\ results_file o = None)
   /\ (exists o,
         StatisticsVariants.main_copy (V:=V) fs elapsed argv
         = StatisticsVariants.Finished o
         /\ exit_code o = 2 /\ results_file o = None)
   /\ (exists o, returns (fun fuel => ConvertNumbers.main fuel fs elapsed argv)
                   (Ok o)
                 /\ exit_code o = 2 /\ results_file o = None)
   /\ (exists o, WordCount.main fs elapsed argv = Ok o
                 /\ exit_code o = 2 /\ results_file o = None))
  /\ (forall prog path, argv = [prog; path] ->
      match fs path with
      | FileUndecodable detail =>
          Statistics.main (V:=V) fs elapsed argv
          = Raise (UnicodeDecodeError detail)
          /\ StatisticsVariants.main (V:=V) py_sum square fs elapsed argv
             = StatisticsVariants.Failed
                 (StatisticsVariants.Exn (UnicodeDecodeError detail))
          /\ StatisticsVariants.main_copy (V:=V) fs elapsed argv
             = StatisticsVariants.Failed
                 (StatisticsVariants.Exn (UnicodeDecodeError detail))
          /\ returns (fun fuel => ConvertNumbers.main fuel fs elapsed argv)
               (Raise (UnicodeDecodeError detail))
          /\ WordCount.main fs elapsed argv = Raise (UnicodeDecodeError detail)
      | FileUnreadable exc =>
          (exists o, Statistics.main (V:=V) fs elapsed argv = Ok o
                     /\ exit_code o = 1 /\ is_Some (results_file o))
          /\ StatisticsVariants.main (V:=V) py_sum square fs elapsed argv
             = StatisticsVariants.Failed (StatisticsVariants.OSError exc)
          /\ StatisticsVariants.main_copy (V:=V) fs elapsed argv
             = StatisticsVariants.Failed (StatisticsVariants.OSError exc)
          /\ (exists o,
                returns (fun fuel => ConvertNumbers.main fuel fs elapsed argv)
                  (Ok o)
                /\ exit_code o = 0 /\ is_Some (results_file o))
          /\ (exists o, WordCount.main fs elapsed argv = Ok o
                        /\ exit_code o = 0 /\ is_Some (results_file o))
      | FileNotFound =>
          (exists o, Statistics.main (V:=V) fs elapsed argv = Ok o
                     /\ exit_code o = 1 /\ is_Some (results_file o))
          /\ (exists o,
                StatisticsVariants.main (V:=V) py_sum square fs elapsed argv
                = StatisticsVariants.Finished o
                /\ exit_code o = 1 /\ results_file o = None)
          /\ (exists o,
                StatisticsVariants.main_copy (V:=V) fs elapsed argv
                = StatisticsVariants.Finished o
                /\ exit_code o = 1 /\ results_file o = None)
          /\ (exists o,
                returns (fun fuel => ConvertNumbers.main fuel fs elapsed argv)
                  (Ok o)
                /\ exit_code o = 0 /\ is_Some (results_file o))
          /\ (exists o, WordCount.main fs elapsed argv = Ok o
                        /\ exit_code o = 0 /\ is_Some (results_file o))
      | FileLines lines =>
          (exists o, Statistics.main (V:=V) fs elapsed argv = Ok o
                     /\ exit_code o
                        = match omap (num_of_line (V:=V)) lines with
                          | [] => 1
                          | _ :: _ => 0
                          end
                     /\ is_Some (results_file o))
          /\ match omap (num_of_line (V:=V)) lines with
             | [] =>
                 (exists o,
                    StatisticsVariants.main (V:=V) py_sum square fs elapsed argv
                    = StatisticsVariants.Finished o
                    /\ exit_code o = 1 /\ results_file o = None)
                 /\ (exists o,
                       StatisticsVariants.main_copy (V:=V) fs elapsed argv
                       = StatisticsVariants.Finished o
                       /\ exit_code o = 1 /\ results_file o = None)
             | _ :: _ =>
                 ((exists o,
                     StatisticsVariants.main (V:=V) py_sum square fs elapsed
                       argv
                     = StatisticsVariants.Finished o
                     /\ exit_code o = 0 /\ is_Some (results_file o))
                  \/ StatisticsVariants.main (V:=V) py_sum square fs elapsed
                       argv
                     = StatisticsVariants.Failed
                         StatisticsVariants.OverflowError)
                 /\ (exists o,
                       StatisticsVariants.main_copy (V:=V) fs elapsed argv
                       = StatisticsVariants.Finished o
                       /\ exit_code o = 0 /\ is_Some (results_file o))
             end
          /\ (exists o,
                returns (fun fuel => ConvertNumbers.main fuel fs elapsed argv)
                  (Ok o)
                /\ exit_code o = 0 /\ is_Some (results_file o))
          /\ (exists o, WordCount.main fs elapsed argv = Ok o
                        /\ exit_code o = 0 /\ is_Some (results_file o))
      end).
Proof.
  split.
  - intros Hargs.
    destruct (variants_usage fs elapsed argv Hargs) as [Hshort Hcopy].
    split; [now apply MainFacts.statistics_usage|].
    split; [exact Hshort|]. split; [exact Hcopy|].
    split; [now apply MainFacts.convert_usage|now apply MainFacts.word_usage].
  - intros prog path ->.
    pose proof (tools_run fs elapsed prog path) as Htools.
    pose proof (tools_undecodable fs elapsed prog path) as Hbytes.
    pose proof (numbers_read fs path) as Hlines.
    pose proof (statistics_run fs elapsed prog path) as Hstat.
    pose proof (VariantMains.parse_numbers_run (V:=V) fs path) as Hrun.
    pose proof (VariantMains.statistics_unreadable (V:=V) fs elapsed prog path)
      as Hunreadable.
    pose proof (VariantMains.statistics_undecodable (V:=V) fs elapsed prog path)
      as Hundecodable.
    pose proof (eq_refl (Statistics.parse_numbers (V:=V) fs path)) as Hparse.
    unfold Statistics.parse_numbers at 2 in Hparse.
    destruct (fs path) as [lines| |exc|detail] eqn:Hfs.
    + destruct (Hlines lines eq_refl) as (logged & Hp & Hp').
      destruct (Hstat _ _ Hp Hp') as [Hmain Hothers].
      destruct Htools as [Hconv Hword]; [discriminate|].
      split; [exact Hmain|]. split; [exact Hothers|]. now split.
    + destruct (Hstat [] ["File not found: " +:+ path] Hparse) as [Hmain Hothers].
      { rewrite Hrun, Hparse. reflexivity. }
      destruct Htools as [Hconv Hword]; [discriminate|].
      destruct Hothers as [Hshort Hcopy].
      split; [exact Hmain|]. split; [exact Hshort|]. split; [exact Hcopy|].
      now split.
    + destruct Htools as [Hconv Hword]; [discriminate|].
      split.
      { destruct (Hunreadable exc eq_refl) as [msg Hmain].
        eexists. split; [exact Hmain|]. split; [reflexivity|]. cbn. eauto. }
      split; [now apply VariantMains.short_fails|].
      split; [now apply VariantMains.copy_fails|]. now split.
    + destruct (Hbytes detail eq_refl) as [Hconv Hword].
      split; [now apply Hundecodable|].
      split; [apply VariantMains.short_fails; now rewrite Hrun, Hparse|].
      split; [apply VariantMains.copy_fails; now rewrite Hrun, Hparse|].
      now split.
Qed.

End Codes.

Lemma exit_codes_witness :
  (exists o, Statistics.main (V:=Z) (fun _ => FileLines ["1" +:+ NL; "x" +:+ NL])
               "0.000010" ["computeStatistics.py"; "tc.txt"] = Ok o
             /\ exit_code o = 0)
  /\ (exists o, WordCount.main (fun _ => FileNotFound) "0.000010"
                  ["wordCount.py"] = Ok o
                /\ exit_code o = 2 /\ results_file o = None).
Proof.
  split.
  - destruct (exit_codes (V:=Z) (fun _ => 0) (fun x => Some (x * x))
                (fun _ => FileLines ["1" +:+ NL; "x" +:+ NL])
                "0.000010" ["computeStatistics.py"; "tc.txt"]) as [_ Hrun].
    destruct (Hrun "computeStatistics.py" "tc.txt" eq_refl)
      as ((o & Hmain & Hcode & _) & _).
    exists o. split; [exact Hmain|exact Hcode].
  - destruct (exit_codes (V:=Z) (fun _ => 0) (fun x => Some (x * x))
                (fun _ => FileNotFound) "0.000010"
                ["wordCount.py"]) as [Husage _].
    destruct (Husage ltac:(discriminate)) as (_ & _ & _ & _ & Hword).
    exact Hword.
Defined.

(** The claim C1 fails for the conversion tool: on a file without a valid
    integer it exits with code 0, not 1. *)
Lemma convert_empty_exit_zero :
  ~ (forall (fuel : nat) (fs : filesystem) (elapsed prog path : string)
            (o : outcome),
       ConvertNumbers.main fuel fs elapsed [prog; path] = Some (Ok o) ->
       (exists errors, ConvertNumbers.parse_integers fs path = Ok ([], errors)) ->
       exit_code o = 1).
Proof.
  intros Hclaim.
  specialize (Hclaim 0%nat (fun _ => FileLines ["bad" +:+ NL]) "0.000010"
                "convertNumbers.py" "tc.txt" _ eq_refl).
  assert (0 = 1) as Habsurd; [|discriminate Habsurd].
  apply Hclaim. eexists. reflexivity.
Qed.

End ExitCodes.
